(** * Cei-Noise: conflict detection, NTSC and capacity estimators

    A shallow embedding of the numeric core of the repository's backend:

    - [ntsc_calculator.py]         (modules [NTSC] and [Float64])
    - [enhanced_route_analyzer.py] (module [Analyzer])
    - [airspace_capacity.py]       (module [Capacity])
    - [route_optimizer.py], the safety assessment
                                   (module [RouteOptimizer])
    - [ground_risk_evaluator.py]   (module [GroundRisk])

    [airspace_capacity_analyzer.py] is left out: its first two lines are bare
    names, its signatures use [Tuple] without importing it, and no file
    imports it, so none of its functions can run.

    Number model.  Python [float] values are modelled by the real numbers
    [R]: arithmetic is exact, comparisons are the order of [R], and the
    special values NaN and the infinities do not exist, except for the
    initial [float('inf')] of a running minimum, which has a constructor of
    its own.  The exceptions that the arithmetic of the source can raise are
    kept: a division by zero raises [ZeroDivisionError] and [math.sqrt] of a
    negative number raises [ValueError].  Dictionaries with a fixed set of
    keys are records.

    Rounding.  The running program rounds every operation to binary64.  The
    statements below are meant to be read on the rounded values as well:
    they compare values, bound them with a margin, give the expression that
    the code evaluates, operation for operation, or count with whole
    numbers; where one gives a closed form, such as a multiple of [PI], the
    program meets it up to rounding.  Where a statement returns a result for
    every input, the program does so as long as the haversine term it
    computes stays within [[0, 1]] (rounding can push it just above 1 for
    points that are nearly antipodal, and [math.sqrt] then raises) and as
    long as [t + 1.0] differs from [t], that is below [2 ^ 53] seconds.
    Module [Float64] embeds the interpolator over binary64 numbers, to show
    where an equation that holds over [R] fails in the running program. *)

From Stdlib Require Import PrimFloat.
From Stdlib Require Import Reals Lra Lia ZArith List String Bool.
From Stdlib Require Import Permutation.
From Equations Require Import Equations.
Import ListNotations.

Open Scope R_scope.

(** ** Python runtime: exceptions and [math] *)

Module Py.

Inductive exn : Set :=
| ZeroDivisionError
| ValueError.

Inductive result (A : Type) : Type :=
| Ok (a : A)
| Raise (e : exn).

Arguments Ok {A} a.
Arguments Raise {A} e.

Definition bind {A B : Type} (m : result A) (k : A -> result B) : result B :=
  match m with
  | Ok a => k a
  | Raise e => Raise e
  end.

(** [x / y] on floats. *)
Definition div (x y : R) : result R :=
  if Req_dec_T y 0 then Raise ZeroDivisionError else Ok (x / y).

(** The comparison [x < y] as a truth value. *)
Definition ltb (x y : R) : bool := if Rlt_dec x y then true else false.

(** [math.sqrt]. *)
Definition math_sqrt (x : R) : result R :=
  if Rlt_dec x 0 then Raise ValueError else Ok (sqrt x).

(** [math.radians]. *)
Definition math_radians (x : R) : R := x * (PI / 180).

(** [math.atan2 y x], the angle of the point [(x, y)] in [(-PI, PI]]. *)
Definition math_atan2 (y x : R) : R :=
  if Rlt_dec 0 x then atan (y / x)
  else if Rlt_dec x 0 then
         if Rle_dec 0 y then atan (y / x) + PI else atan (y / x) - PI
  else if Rlt_dec 0 y then PI / 2
  else if Rlt_dec y 0 then - (PI / 2)
  else 0.

(** The two-argument built-ins [min(a, b)] and [max(a, b)]: the first
    argument is returned unless the second is strictly better. *)
Definition min (a b : R) : R := if Rlt_dec b a then b else a.
Definition max (a b : R) : R := if Rlt_dec a b then b else a.

(** [int(x)] on a float: truncation towards zero. *)
Definition int (x : R) : Z :=
  if Rle_dec 0 x then Int_part x else (- Int_part (- x))%Z.

(** A float that may be [float('inf')]. *)
Inductive ext : Set :=
| Fin (x : R)
| Inf.

(** [min(m, x)] where [m] may still be infinite and [x] is finite. *)
Definition min_ext (m : ext) (x : R) : ext :=
  match m with
  | Inf => Fin x
  | Fin y => Fin (min y x)
  end.

End Py.

Import Py.

Notation "x <- m ;; k" := (bind m (fun x => k))
  (at level 61, m at next level, right associativity).
Notation "' p <- m ;; k" := (bind m (fun p => k))
  (at level 61, p pattern, m at next level, right associativity).

(** ** Shared data *)

(** A position dictionary [{'longitude', 'latitude', 'height'}]. *)
Record Position : Type := mkPosition {
  longitude : R;
  latitude : R;
  height : R
}.

(** [_haversine_distance]: the three classes ([NTSCCalculator],
    [EnhancedRouteAnalyzer], [AirspaceCapacityAnalyzer]) each carry the same
    method, statement for statement; it is embedded once. *)
Definition _haversine_distance (lat1 lon1 lat2 lon2 : R) : result R :=
  let R0 := 6371000 in
  let phi1 := math_radians lat1 in
  let phi2 := math_radians lat2 in
  let delta_phi := math_radians (lat2 - lat1) in
  let delta_lambda := math_radians (lon2 - lon1) in
  let a := (sin (delta_phi / 2)) ^ 2 +
           cos phi1 * cos phi2 * (sin (delta_lambda / 2)) ^ 2 in
  sa <- math_sqrt a ;;
  sb <- math_sqrt (1 - a) ;;
  let c := 2 * math_atan2 sa sb in
  Ok (R0 * c).

(** The haversine term [a] of the source, as a function of the inputs; used to
    state facts about [_haversine_distance]. *)
Definition haversine_a (lat1 lon1 lat2 lon2 : R) : R :=
  (sin (math_radians (lat2 - lat1) / 2)) ^ 2 +
  cos (math_radians lat1) * cos (math_radians lat2) *
  (sin (math_radians (lon2 - lon1) / 2)) ^ 2.

(** ** ntsc_calculator.py *)

Module NTSC.

Record FlightSegment : Type := mkFlightSegment {
  start_time : R;
  end_time : R;
  start_pos : Position;
  end_pos : Position;
  aircraft_id : string
}.

Definition HORIZONTAL_SEPARATION : R := 50.
Definition VERTICAL_SEPARATION : R := 30.

(** [_interpolate_position] *)
Definition _interpolate_position (segment : FlightSegment) (time : R)
  : result Position :=
  t_ratio <- div (time - start_time segment)
                 (end_time segment - start_time segment) ;;
  let t_ratio := max 0 (min 1 t_ratio) in
  Ok {| longitude := longitude (start_pos segment) +
          t_ratio * (longitude (end_pos segment) - longitude (start_pos segment));
        latitude := latitude (start_pos segment) +
          t_ratio * (latitude (end_pos segment) - latitude (start_pos segment));
        height := height (start_pos segment) +
          t_ratio * (height (end_pos segment) - height (start_pos segment)) |}.

(** The separation test of the sampling loop:
    [horizontal_dist < HORIZONTAL_SEPARATION and
     vertical_dist < VERTICAL_SEPARATION]. *)
Definition in_conflict (horizontal_dist vertical_dist : R) : bool :=
  ltb horizontal_dist HORIZONTAL_SEPARATION &&
  ltb vertical_dist VERTICAL_SEPARATION.

Definition time_step : R := 1.

(** One pass through the body of the [while] loop of
    [_calculate_conflict_duration], up to and excluding [t += time_step]:
    the new values of [conflict_duration] and [min_distance]. *)
Definition sample (seg1 seg2 : FlightSegment) (t : R)
    (conflict_duration : R) (min_distance : ext) : result (R * ext) :=
  pos1 <- _interpolate_position seg1 t ;;
  pos2 <- _interpolate_position seg2 t ;;
  horizontal_dist <- _haversine_distance (latitude pos1) (longitude pos1)
                                         (latitude pos2) (longitude pos2) ;;
  let vertical_dist := Rabs (height pos1 - height pos2) in
  total_distance <- math_sqrt (horizontal_dist ^ 2 + vertical_dist ^ 2) ;;
  let min_distance := min_ext min_distance total_distance in
  let conflict_duration :=
    if in_conflict horizontal_dist vertical_dist
    then conflict_duration + time_step
    else conflict_duration in
  Ok (conflict_duration, min_distance).

(** The number of samples still to take from [t]: the variant of the loop. *)
Definition samples_left (overlap_end t : R) : nat :=
  Z.to_nat (up (overlap_end - t)).

(** The [while t <= overlap_end] loop. *)
Equations? sample_loop (seg1 seg2 : FlightSegment) (overlap_end t : R)
    (conflict_duration : R) (min_distance : ext) : result (R * ext)
    by wf (samples_left overlap_end t) lt :=
  sample_loop seg1 seg2 overlap_end t conflict_duration min_distance
    with Rle_dec t overlap_end := {
    | left _ with sample seg1 seg2 t conflict_duration min_distance := {
      | Ok (cd, md) =>
          sample_loop seg1 seg2 overlap_end (t + time_step) cd md
      | Raise e => Raise e }
    | right _ => Ok (conflict_duration, min_distance) }.
Proof.
  unfold samples_left, time_step.
  pose proof (archimed (overlap_end - t)) as [Hgt Hle].
  assert (Hup : up (overlap_end - (t + 1)) = (up (overlap_end - t) - 1)%Z).
  { symmetry. apply tech_up; rewrite minus_IZR; simpl; lra. }
  rewrite Hup.
  assert (0 < up (overlap_end - t))%Z by (apply lt_IZR; simpl; lra).
  lia.
Qed.

(** [_calculate_conflict_duration] *)
Definition _calculate_conflict_duration (seg1 seg2 : FlightSegment)
    (overlap_start overlap_end : R) : result (R * ext) :=
  sample_loop seg1 seg2 overlap_end overlap_start 0 Inf.

Inductive SafetyLevel : Set :=
| EXCELLENT | GOOD | ACCEPTABLE | WARNING | CRITICAL.

(** [_get_safety_level] *)
Definition _get_safety_level (ntsc : R) : SafetyLevel :=
  if Rlt_dec ntsc 0.01 then EXCELLENT
  else if Rlt_dec ntsc 0.05 then GOOD
  else if Rlt_dec ntsc 0.1 then ACCEPTABLE
  else if Rlt_dec ntsc 0.2 then WARNING
  else CRITICAL.

(** An entry of [conflict_details]. *)
Record ConflictDetail : Type := mkConflictDetail {
  aircraft_pair : string * string;
  duration : R;
  min_distance : ext;
  time_range : R * R
}.

(** The dictionary returned by [calculate_ntsc]. *)
Record NTSCResult : Type := mkNTSCResult {
  ntsc_value : R;
  conflict_percentage : R;
  total_flight_time : R;
  total_conflict_time : R;
  conflict_details : list ConflictDetail;
  safety_level : SafetyLevel
}.

(** The first loop of [calculate_ntsc]:
    [total_flight_time += segment.end_time - segment.start_time]. *)
Definition sum_flight_time (flight_segments : list FlightSegment) : R :=
  fold_left (fun total segment => total + (end_time segment - start_time segment))
            flight_segments 0.

(** The body of the inner loop of [calculate_ntsc] for the pair
    [(seg1, seg2)], on the running [conflict_time] and [conflict_details]. *)
Definition check_pair (seg1 seg2 : FlightSegment)
    (conflict_time : R) (details : list ConflictDetail)
  : result (R * list ConflictDetail) :=
  if String.eqb (aircraft_id seg1) (aircraft_id seg2) then
    Ok (conflict_time, details)
  else
    let overlap_start := max (start_time seg1) (start_time seg2) in
    let overlap_end := min (end_time seg1) (end_time seg2) in
    if Rlt_dec overlap_start overlap_end then
      '(conflict_duration, min_dist) <-
        _calculate_conflict_duration seg1 seg2 overlap_start overlap_end ;;
      if Rlt_dec 0 conflict_duration then
        Ok (conflict_time + conflict_duration,
            details ++ [ {| aircraft_pair := (aircraft_id seg1, aircraft_id seg2);
                            duration := conflict_duration;
                            min_distance := min_dist;
                            time_range := (overlap_start, overlap_end) |} ])
      else Ok (conflict_time, details)
    else Ok (conflict_time, details).

(** [for j in range(i + 1, len(flight_segments))]: [seg1] is
    [flight_segments[i]] and [rest] the segments after it. *)
Fixpoint inner_loop (seg1 : FlightSegment) (rest : list FlightSegment)
    (conflict_time : R) (details : list ConflictDetail)
  : result (R * list ConflictDetail) :=
  match rest with
  | [] => Ok (conflict_time, details)
  | seg2 :: rest' =>
      '(conflict_time, details) <- check_pair seg1 seg2 conflict_time details ;;
      inner_loop seg1 rest' conflict_time details
  end.

(** [for i in range(len(flight_segments))]. *)
Fixpoint outer_loop (flight_segments : list FlightSegment)
    (conflict_time : R) (details : list ConflictDetail)
  : result (R * list ConflictDetail) :=
  match flight_segments with
  | [] => Ok (conflict_time, details)
  | seg1 :: rest =>
      '(conflict_time, details) <- inner_loop seg1 rest conflict_time details ;;
      outer_loop rest conflict_time details
  end.

(** [calculate_ntsc] *)
Definition calculate_ntsc (flight_segments : list FlightSegment)
  : result NTSCResult :=
  let total_flight_time := sum_flight_time flight_segments in
  '(conflict_time, details) <- outer_loop flight_segments 0 [] ;;
  ntsc <- (if Rlt_dec 0 total_flight_time
           then div conflict_time total_flight_time
           else Ok 0) ;;
  Ok {| ntsc_value := ntsc;
        conflict_percentage := ntsc * 100;
        total_flight_time := total_flight_time;
        total_conflict_time := conflict_time;
        conflict_details := details;
        safety_level := _get_safety_level ntsc |}.

End NTSC.

(** ** ntsc_calculator.py, the interpolator over binary64 *)

(** A decimal constant of the source denotes the binary64 number nearest to
    it, in Python as here. *)
Set Warnings "-inexact-float".

(** [_interpolate_position] uses four operations and comparisons only, all
    of which binary64 arithmetic defines: it is embedded a second time, over
    the floating-point numbers of the running program. *)
Module Float64.

Local Open Scope float_scope.

(** A position dictionary. *)
Record Position : Set := mkPosition {
  longitude : float;
  latitude : float;
  height : float
}.

Record FlightSegment : Set := mkFlightSegment {
  start_time : float;
  end_time : float;
  start_pos : Position;
  end_pos : Position;
  aircraft_id : string
}.

(** [x / y] on floats: a divisor equal to zero, of either sign, raises. *)
Definition div (x y : float) : result float :=
  if PrimFloat.eqb y 0 then Raise ZeroDivisionError else Ok (x / y).

(** [min(a, b)] and [max(a, b)]: the first argument is returned unless the
    second is strictly better. *)
Definition min (a b : float) : float := if PrimFloat.ltb b a then b else a.
Definition max (a b : float) : float := if PrimFloat.ltb a b then b else a.

(** [_interpolate_position]; the integers 0 and 1 of the clamp are converted
    to floats when they meet one. *)
Definition _interpolate_position (segment : FlightSegment) (time : float)
  : result Position :=
  t_ratio <- div (time - start_time segment)
                 (end_time segment - start_time segment) ;;
  let t_ratio := max 0 (min 1 t_ratio) in
  Ok {| longitude := longitude (start_pos segment) +
          t_ratio * (longitude (end_pos segment) - longitude (start_pos segment));
        latitude := latitude (start_pos segment) +
          t_ratio * (latitude (end_pos segment) - latitude (start_pos segment));
        height := height (start_pos segment) +
          t_ratio * (height (end_pos segment) - height (start_pos segment)) |}.

End Float64.

(** ** enhanced_route_analyzer.py *)

Module Analyzer.

(** A route point [{'longitude', 'latitude', 'height', 'time'}]. *)
Record Waypoint : Type := mkWaypoint {
  wp_longitude : R;
  wp_latitude : R;
  wp_height : R;
  wp_time : R
}.

(** A route [{'name', 'path'}]. *)
Record Route : Type := mkRoute {
  name : string;
  path : list Waypoint
}.

Definition SAFETY_SEPARATION : R := 50.

Inductive Severity : Set :=
| LOW | MEDIUM | HIGH | CRITICAL.

Definition Severity_eqb (a b : Severity) : bool :=
  match a, b with
  | LOW, LOW | MEDIUM, MEDIUM | HIGH, HIGH | CRITICAL, CRITICAL => true
  | _, _ => false
  end.

(** [_calculate_conflict_severity] *)
Definition _calculate_conflict_severity (distance time_diff : R) : Severity :=
  if ltb distance 20 && ltb time_diff 10 then CRITICAL
  else if ltb distance 30 && ltb time_diff 30 then HIGH
  else if ltb distance 40 && ltb time_diff 45 then MEDIUM
  else LOW.

Module Risk.
Inductive Level : Set :=
| SAFE | LOW | MEDIUM | HIGH | UNACCEPTABLE.
End Risk.

(** An entry of [conflicts]. *)
Record Conflict : Type := mkConflict {
  route1 : string;
  route2 : string;
  point1_index : nat;
  point2_index : nat;
  time : R;
  distance : R;
  location : Position;
  severity : Severity
}.

(** The dictionary returned by [_assess_overall_risk]; the two counts are
    absent from the one returned for an empty list. *)
Record RiskAssessment : Type := mkRiskAssessment {
  level : Risk.Level;
  score : nat;
  critical_conflicts : option nat;
  high_conflicts : option nat
}.

(** [sum(1 for c in conflicts if c["severity"] == s)] *)
Definition count_severity (s : Severity) (conflicts : list Conflict) : nat :=
  List.length (filter (fun c => Severity_eqb (severity c) s) conflicts).

(** [_assess_overall_risk] *)
Definition _assess_overall_risk (conflicts : list Conflict) : RiskAssessment :=
  match conflicts with
  | [] => {| level := Risk.SAFE; score := 0;
             critical_conflicts := None; high_conflicts := None |}
  | _ =>
      let critical_count := count_severity CRITICAL conflicts in
      let high_count := count_severity HIGH conflicts in
      let risk_score :=
        (critical_count * 10 + high_count * 5 + List.length conflicts)%nat in
      let level :=
        if (50 <? risk_score)%nat then Risk.UNACCEPTABLE
        else if (30 <? risk_score)%nat then Risk.HIGH
        else if (10 <? risk_score)%nat then Risk.MEDIUM
        else Risk.LOW in
      {| level := level; score := risk_score;
         critical_conflicts := Some critical_count;
         high_conflicts := Some high_count |}
  end.

(** The dictionary returned by [analyze_route_conflicts]. *)
Record ConflictReport : Type := mkConflictReport {
  total_conflicts : nat;
  conflicts : list Conflict;
  risk_assessment : RiskAssessment
}.

(** The body of the innermost loop of [analyze_route_conflicts] for the
    points [route_i["path"][k1]] and [route_j["path"][k2]], on the running
    list [conflicts]. *)
Definition check_points (route_i route_j : Route) (k1 : nat) (point1 : Waypoint)
    (k2 : nat) (point2 : Waypoint) (conflicts : list Conflict)
  : result (list Conflict) :=
  let time_diff := Rabs (wp_time point1 - wp_time point2) in
  if ltb time_diff 60 then
    horizontal_distance <-
      _haversine_distance (wp_latitude point1) (wp_longitude point1)
                          (wp_latitude point2) (wp_longitude point2) ;;
    let vertical_distance := Rabs (wp_height point1 - wp_height point2) in
    total_distance <-
      math_sqrt (horizontal_distance ^ 2 + vertical_distance ^ 2) ;;
    if ltb total_distance SAFETY_SEPARATION then
      Ok (conflicts ++
          [ {| route1 := name route_i;
               route2 := name route_j;
               point1_index := k1;
               point2_index := k2;
               time := wp_time point1;
               distance := total_distance;
               location :=
                 {| longitude := (wp_longitude point1 + wp_longitude point2) / 2;
                    latitude := (wp_latitude point1 + wp_latitude point2) / 2;
                    height := (wp_height point1 + wp_height point2) / 2 |};
               severity :=
                 _calculate_conflict_severity total_distance time_diff |} ])
    else Ok conflicts
  else Ok conflicts.

(** [for k2, point2 in enumerate(route2)], from index [k2] on. *)
Fixpoint loop_k2 (route_i route_j : Route) (k1 : nat) (point1 : Waypoint)
    (k2 : nat) (route2 : list Waypoint) (conflicts : list Conflict)
  : result (list Conflict) :=
  match route2 with
  | [] => Ok conflicts
  | point2 :: rest =>
      conflicts <- check_points route_i route_j k1 point1 k2 point2 conflicts ;;
      loop_k2 route_i route_j k1 point1 (S k2) rest conflicts
  end.

(** [for k1, point1 in enumerate(route1)], from index [k1] on. *)
Fixpoint loop_k1 (route_i route_j : Route) (k1 : nat) (route1 : list Waypoint)
    (conflicts : list Conflict) : result (list Conflict) :=
  match route1 with
  | [] => Ok conflicts
  | point1 :: rest =>
      conflicts <-
        loop_k2 route_i route_j k1 point1 0 (path route_j) conflicts ;;
      loop_k1 route_i route_j (S k1) rest conflicts
  end.

(** [for j in range(i + 1, len(routes))]: [route_i] is [routes[i]] and
    [rest] the routes after it. *)
Fixpoint loop_j (route_i : Route) (rest : list Route)
    (conflicts : list Conflict) : result (list Conflict) :=
  match rest with
  | [] => Ok conflicts
  | route_j :: rest' =>
      conflicts <- loop_k1 route_i route_j 0 (path route_i) conflicts ;;
      loop_j route_i rest' conflicts
  end.

(** [for i in range(len(routes))]. *)
Fixpoint loop_i (routes : list Route) (conflicts : list Conflict)
  : result (list Conflict) :=
  match routes with
  | [] => Ok conflicts
  | route_i :: rest =>
      conflicts <- loop_j route_i rest conflicts ;;
      loop_i rest conflicts
  end.

(** [analyze_route_conflicts] *)
Definition analyze_route_conflicts (routes : list Route)
  : result ConflictReport :=
  conflicts <- loop_i routes [] ;;
  Ok {| total_conflicts := List.length conflicts;
        conflicts := conflicts;
        risk_assessment := _assess_overall_risk conflicts |}.

(** An obstacle dictionary: its coordinates are read with
    [point.get("latitude", 0)] and [point.get("longitude", 0)], so either
    key may be absent. *)
Record Obstacle : Type := mkObstacle {
  ob_latitude : option R;
  ob_longitude : option R
}.

(** [d.get(key, default)] on an entry that may be absent. *)
Definition get_default (entry : option R) (default : R) : R :=
  match entry with
  | Some x => x
  | None => default
  end.

(** [_point_to_line_distance] *)
Definition _point_to_line_distance (point : Obstacle)
    (line_start line_end : Position) : result R :=
  dist_to_start <-
    _haversine_distance (get_default (ob_latitude point) 0)
                        (get_default (ob_longitude point) 0)
                        (latitude line_start) (longitude line_start) ;;
  dist_to_end <-
    _haversine_distance (get_default (ob_latitude point) 0)
                        (get_default (ob_longitude point) 0)
                        (latitude line_end) (longitude line_end) ;;
  Ok (min dist_to_start dist_to_end).

Module SegmentRisk.
Inductive Level : Set :=
| LOW | MEDIUM | HIGH.
End SegmentRisk.

(** [_get_risk_level] *)
Definition _get_risk_level (risk_value : R) : SegmentRisk.Level :=
  if Rlt_dec 0.7 risk_value then SegmentRisk.HIGH
  else if Rlt_dec 0.4 risk_value then SegmentRisk.MEDIUM
  else SegmentRisk.LOW.

(** The dictionary returned by [calculate_collision_risk]. *)
Record CollisionRisk : Type := mkCollisionRisk {
  total_risk : R;
  height_risk : R;
  length_risk : R;
  obstacle_risk : R;
  risk_level : SegmentRisk.Level
}.

(** [for obstacle in obstacles] of [calculate_collision_risk], on the
    running [obstacle_risk]. *)
Fixpoint obstacle_loop (obstacles : list Obstacle) (point1 point2 : Position)
    (obstacle_risk : R) : result R :=
  match obstacles with
  | [] => Ok obstacle_risk
  | obstacle :: rest =>
      distance <- _point_to_line_distance obstacle point1 point2 ;;
      let obstacle_risk :=
        if Rlt_dec distance SAFETY_SEPARATION
        then obstacle_risk + (1 - distance / SAFETY_SEPARATION) * 0.2
        else obstacle_risk in
      obstacle_loop rest point1 point2 obstacle_risk
  end.

(** [calculate_collision_risk] *)
Definition calculate_collision_risk (point1 point2 : Position)
    (obstacles : list Obstacle) : result CollisionRisk :=
  let avg_height := (height point1 + height point2) / 2 in
  let height_risk :=
    if Rlt_dec avg_height 50 then 0.3
    else if Rlt_dec avg_height 100 then 0.2
    else if Rlt_dec avg_height 150 then 0.1
    else 0.05 in
  segment_length <-
    _haversine_distance (latitude point1) (longitude point1)
                        (latitude point2) (longitude point2) ;;
  let length_risk := min (segment_length / 5000) 0.3 in
  obstacle_risk <- obstacle_loop obstacles point1 point2 0 ;;
  let total_risk :=
    height_risk * 0.4 + length_risk * 0.3 + obstacle_risk * 0.3 in
  Ok {| total_risk := min total_risk 1;
        height_risk := height_risk;
        length_risk := length_risk;
        obstacle_risk := min obstacle_risk 1;
        risk_level := _get_risk_level total_risk |}.

Definition GROUND_EFFECT_THRESHOLD : R := 100.

(** The dictionary returned by [calculate_ground_impact_risk]. *)
Record GroundImpactRisk : Type := mkGroundImpactRisk {
  impact_probability : R;
  exposure_area : R;
  height_factor : R;
  ground_effect : R;
  total_ground_risk : R
}.

(** [calculate_ground_impact_risk]; the caller passes
    [population_density], 0.5 when it leaves it out. *)
Definition calculate_ground_impact_risk (drone_position : Position)
    (population_density : R) : result GroundImpactRisk :=
  let r_p := 0.5 in
  let r_uav := 2 in
  let h_p := 1.7 in
  let theta := math_atan2 (height drone_position) 100 in
  A_exp <-
    (if Rlt_dec 0 theta then
       q <- div (2 * (r_p + r_uav) * h_p) (tan theta) ;;
       Ok (q + PI * (r_uav + r_p) ^ 2)
     else Ok (PI * (r_uav + r_p) ^ 2)) ;;
  let P_impact := population_density * A_exp / 1000 in
  let height_attenuation := exp (- height drone_position / 100) in
  let ground_effect :=
    if Rlt_dec (height drone_position) GROUND_EFFECT_THRESHOLD
    then 3 * (1 - height drone_position / GROUND_EFFECT_THRESHOLD)
    else 0 in
  let final_risk :=
    P_impact * height_attenuation * (1 + ground_effect / 10) in
  Ok {| impact_probability := P_impact;
        exposure_area := A_exp;
        height_factor := height_attenuation;
        ground_effect := ground_effect;
        total_ground_risk := min final_risk 1 |}.

End Analyzer.

(** ** airspace_capacity.py *)

Module Capacity.

Definition safety_separation : R := 50.
Definition max_density : R := 10.

(** [_calculate_route_length]: the loop over [i in range(len(route) - 1)]
    adds the distance from [route[i]] to [route[i+1]] to [total_length]. *)
Fixpoint route_length_loop (route : list Position) (total_length : R)
  : result R :=
  match route with
  | p1 :: (p2 :: _) as rest =>
      distance <- _haversine_distance (latitude p1) (longitude p1)
                                      (latitude p2) (longitude p2) ;;
      route_length_loop rest (total_length + distance)
  | _ => Ok total_length
  end.

Definition _calculate_route_length (route : list Position) : result R :=
  route_length_loop route 0.

(** The dictionary [capacity_metrics]. *)
Record CapacityMetrics : Type := mkCapacityMetrics {
  max_aircraft_count : Z;
  throughput_per_hour : Z;
  density_limit : Z;
  safety_factor : R;
  route_length_km : R
}.

Definition aircraft_length : R := 10.
Definition avg_speed : R := 50.

(** [travel_time = (total_length / 1000) / avg_speed] *)
Definition travel_time (total_length : R) : R :=
  (total_length / 1000) / avg_speed.

(** [calculate_route_capacity] *)
Definition calculate_route_capacity (route : list Position) (route_width : R)
  : result CapacityMetrics :=
  total_length <- _calculate_route_length route ;;
  let max_aircraft_count :=
    if Rlt_dec 0 total_length
    then int (total_length / (safety_separation + aircraft_length))
    else 0%Z in
  throughput_per_hour <-
    (if Rlt_dec 0 total_length then
       if Rlt_dec 0 (travel_time total_length) then
         q <- div (IZR max_aircraft_count) (travel_time total_length) ;;
         Ok (int q)
       else Ok 0%Z
     else Ok 0%Z) ;;
  let route_area := (total_length / 1000) * (route_width / 1000) in
  let density_limit :=
    if Rlt_dec 0 route_area then int (max_density * route_area) else 0%Z in
  Ok {| max_aircraft_count := max_aircraft_count;
        throughput_per_hour := throughput_per_hour;
        density_limit := density_limit;
        safety_factor := 0.8;
        route_length_km := total_length / 1000 |}.

(** The [location] of an intersection, [{'longitude', 'latitude'}]. *)
Record Location : Type := mkLocation {
  loc_longitude : R;
  loc_latitude : R
}.

(** An entry of [intersections]. *)
Record Intersection : Type := mkIntersection {
  route1 : nat;
  route2 : nat;
  location : Location
}.

(** The body of the innermost loop of [_find_route_intersections] for the
    points [point1] of [routes[i]] and [point2] of [routes[j]]. *)
Definition check_intersection (i j : nat) (point1 point2 : Position)
    (intersections : list Intersection) : result (list Intersection) :=
  distance <- _haversine_distance (latitude point1) (longitude point1)
                                  (latitude point2) (longitude point2) ;;
  if Rlt_dec distance 100 then
    Ok (intersections ++
        [ {| route1 := i;
             route2 := j;
             location :=
               {| loc_longitude := (longitude point1 + longitude point2) / 2;
                  loc_latitude := (latitude point1 + latitude point2) / 2 |} |} ])
  else Ok intersections.

(** [for point2 in routes[j]] *)
Fixpoint loop_point2 (i j : nat) (point1 : Position) (route_j : list Position)
    (intersections : list Intersection) : result (list Intersection) :=
  match route_j with
  | [] => Ok intersections
  | point2 :: rest =>
      intersections <- check_intersection i j point1 point2 intersections ;;
      loop_point2 i j point1 rest intersections
  end.

(** [for point1 in routes[i]] *)
Fixpoint loop_point1 (i j : nat) (route_i route_j : list Position)
    (intersections : list Intersection) : result (list Intersection) :=
  match route_i with
  | [] => Ok intersections
  | point1 :: rest =>
      intersections <- loop_point2 i j point1 route_j intersections ;;
      loop_point1 i j rest route_j intersections
  end.

(** [for j in range(i + 1, len(routes))]: [rest] holds the routes from
    index [j] on. *)
Fixpoint loop_route_j (i : nat) (route_i : list Position) (j : nat)
    (rest : list (list Position)) (intersections : list Intersection)
  : result (list Intersection) :=
  match rest with
  | [] => Ok intersections
  | route_j :: rest' =>
      intersections <- loop_point1 i j route_i route_j intersections ;;
      loop_route_j i route_i (S j) rest' intersections
  end.

(** [for i in range(len(routes))]: [routes] holds the routes from index [i]
    on. *)
Fixpoint loop_route_i (i : nat) (routes : list (list Position))
    (intersections : list Intersection) : result (list Intersection) :=
  match routes with
  | [] => Ok intersections
  | route_i :: rest =>
      intersections <- loop_route_j i route_i (S i) rest intersections ;;
      loop_route_i (S i) rest intersections
  end.

(** [_find_route_intersections] *)
Definition _find_route_intersections (routes : list (list Position))
  : result (list Intersection) :=
  loop_route_i 0 routes [].

(** [analyze_conflict_probability] *)
Definition analyze_conflict_probability (routes : list (list Position))
    (traffic_density : R) : result R :=
  intersections <- _find_route_intersections routes ;;
  let base_conflict_rate := INR (List.length intersections) * 0.01 in
  let density_factor := min (traffic_density / max_density) 1 in
  let conflict_probability := min (base_conflict_rate * density_factor) 1 in
  Ok conflict_probability.

End Capacity.

(** ** route_optimizer.py *)

Module RouteOptimizer.

(** [_point_to_line_distance]: the obstacle is read with
    [point.get("longitude", 0)] and [point.get("latitude", 0)]. *)
Definition _point_to_line_distance (point : Analyzer.Obstacle)
    (line_start line_end : Position) : R :=
  let dist1 :=
    Rabs (Analyzer.get_default (Analyzer.ob_longitude point) 0 -
          longitude line_start) +
    Rabs (Analyzer.get_default (Analyzer.ob_latitude point) 0 -
          latitude line_start) in
  let dist2 :=
    Rabs (Analyzer.get_default (Analyzer.ob_longitude point) 0 -
          longitude line_end) +
    Rabs (Analyzer.get_default (Analyzer.ob_latitude point) 0 -
          latitude line_end) in
  min dist1 dist2 * 111000.

(** [for obstacle in obstacles] of [_calculate_segment_risk], on the running
    [risk]. *)
Fixpoint obstacle_loop (obstacles : list Analyzer.Obstacle)
    (point1 point2 : Position) (risk : R) : R :=
  match obstacles with
  | [] => risk
  | obstacle :: rest =>
      let min_distance := _point_to_line_distance obstacle point1 point2 in
      let risk :=
        if Rlt_dec min_distance 50
        then risk + (50 - min_distance) / 50 * 0.5
        else risk in
      obstacle_loop rest point1 point2 risk
  end.

(** [_calculate_segment_risk] *)
Definition _calculate_segment_risk (point1 point2 : Position)
    (obstacles : list Analyzer.Obstacle) : R :=
  let risk := 0 in
  let avg_height := (height point1 + height point2) / 2 in
  let risk :=
    if Rlt_dec avg_height 50 then risk + 0.2
    else if Rlt_dec avg_height 100 then risk + 0.1
    else risk in
  let risk := obstacle_loop obstacles point1 point2 risk in
  min risk 1.

(** [113.32 <= lon <= 113.33 and 23.11 <= lat <= 23.14] *)
Definition in_city_centre (point : Position) : bool :=
  (if Rle_dec 113.32 (longitude point) then true else false) &&
  (if Rle_dec (longitude point) 113.33 then true else false) &&
  (if Rle_dec 23.11 (latitude point) then true else false) &&
  (if Rle_dec (latitude point) 23.14 then true else false).

(** [for point in route] of [_calculate_ground_risk], on the running
    [total_risk]. *)
Fixpoint ground_risk_loop (route : list Position) (total_risk : R) : R :=
  match route with
  | [] => total_risk
  | point :: rest =>
      let height_factor := exp (- height point / 100) in
      let population_density := if in_city_centre point then 0.8 else 0.4 in
      let point_risk := population_density * height_factor in
      ground_risk_loop rest (total_risk + point_risk)
  end.

(** [_calculate_ground_risk] *)
Definition _calculate_ground_risk (route : list Position) : result R :=
  let total_risk := ground_risk_loop route 0 in
  match route with
  | [] => Ok 0
  | _ => div total_risk (INR (List.length route))
  end.

(** The dictionary [safety_assessment]. *)
Record SafetyAssessment : Type := mkSafetyAssessment {
  collision_risk : R;
  ground_risk : R;
  total_risk : R;
  safe_segments : list nat;
  risk_segments : list nat;
  is_safe : bool
}.

(** [for i in range(len(route) - 1)] of [validate_route_safety], from index
    [i] on: the running [collision_risk], [safe_segments] and
    [risk_segments]. *)
Fixpoint segment_loop (i : nat) (route : list Position)
    (obstacles : list Analyzer.Obstacle)
    (collision_risk : R) (safe_segments risk_segments : list nat)
  : R * list nat * list nat :=
  match route with
  | p1 :: (p2 :: _) as rest =>
      let segment_risk := _calculate_segment_risk p1 p2 obstacles in
      let safe_segments :=
        if Rlt_dec segment_risk 0.3 then safe_segments ++ [i]
        else safe_segments in
      let risk_segments :=
        if Rlt_dec segment_risk 0.3 then risk_segments
        else risk_segments ++ [i] in
      segment_loop (S i) rest obstacles (collision_risk + segment_risk)
                   safe_segments risk_segments
  | _ => (collision_risk, safe_segments, risk_segments)
  end.

(** [validate_route_safety]; [obstacles] is [None] when the caller leaves
    it out. *)
Definition validate_route_safety (route : list Position)
    (obstacles : option (list Analyzer.Obstacle)) : result SafetyAssessment :=
  let obstacles :=
    match obstacles with
    | None => []
    | Some l => l
    end in
  let '(collision_risk, safe_segments, risk_segments) :=
    segment_loop 0 route obstacles 0 [] [] in
  collision_risk <-
    (if (1 <? List.length route)%nat
     then div collision_risk (INR (List.length route) - 1)
     else Ok collision_risk) ;;
  ground_risk <- _calculate_ground_risk route ;;
  let total_risk := collision_risk * 0.6 + ground_risk * 0.4 in
  Ok {| collision_risk := collision_risk;
        ground_risk := ground_risk;
        total_risk := total_risk;
        safe_segments := safe_segments;
        risk_segments := risk_segments;
        is_safe := ltb total_risk 0.5 |}.

End RouteOptimizer.

(** ** ground_risk_evaluator.py *)

Module GroundRisk.

(** An entry of [UAV_PARAMS]. *)
Record UavParams : Type := mkUavParams {
  radius : R;
  weight : R;
  impact_energy : R
}.

Definition small : UavParams :=
  {| radius := 1; weight := 5; impact_energy := 100 |}.
Definition medium : UavParams :=
  {| radius := 2; weight := 25; impact_energy := 500 |}.
Definition large : UavParams :=
  {| radius := 3; weight := 50; impact_energy := 1000 |}.

(** [self.UAV_PARAMS.get(uav_type, self.UAV_PARAMS["medium"])] *)
Definition uav_params (uav_type : string) : UavParams :=
  if String.eqb uav_type "small" then small
  else if String.eqb uav_type "medium" then medium
  else if String.eqb uav_type "large" then large
  else medium.

(** [_calculate_impact_area] *)
Definition _calculate_impact_area (height : R) (uav : UavParams) : result R :=
  let impact_angle := math_radians 45 in
  horizontal_distance <- div height (tan impact_angle) ;;
  let wind_drift := height * 0.1 in
  let impact_radius := horizontal_distance + wind_drift + radius uav in
  let impact_area := PI * impact_radius ^ 2 in
  Ok impact_area.

(** [_get_population_density] *)
Definition _get_population_density (lon lat : R) : R :=
  if (if Rle_dec 113.25 lon then true else false) &&
     (if Rle_dec lon 113.35 then true else false) &&
     (if Rle_dec 23.10 lat then true else false) &&
     (if Rle_dec lat 23.15 then true else false)
  then 0.01
  else 0.001.

(** [_calculate_impact_probability] *)
Definition _calculate_impact_probability (impact_area population_density : R)
  : R :=
  let exposed_people := impact_area * population_density in
  min (exposed_people * 0.1) 1.

(** [_calculate_severity] *)
Definition _calculate_severity (height : R) (uav : UavParams) : result R :=
  impact_velocity <- math_sqrt (2 * 9.8 * height) ;;
  let kinetic_energy := 0.5 * weight uav * impact_velocity ^ 2 in
  let max_energy := 10000 in
  Ok (min (kinetic_energy / max_energy) 1).

(** [_calculate_mitigation_effect] *)
Definition _calculate_mitigation_effect (position : Position) : R :=
  let mitigation := 0 in
  let mitigation :=
    if Rlt_dec 50 (height position) then mitigation + 0.3 else mitigation in
  let mitigation := mitigation + 0.2 in
  let mitigation := mitigation + 0.1 in
  min mitigation 0.8.

Inductive Level : Set :=
| LOW | MEDIUM | HIGH | CRITICAL.

(** [_get_risk_level] *)
Definition _get_risk_level (risk_score : R) : Level :=
  if Rlt_dec risk_score 0.1 then LOW
  else if Rlt_dec risk_score 0.3 then MEDIUM
  else if Rlt_dec risk_score 0.6 then HIGH
  else CRITICAL.

Inductive Recommendation : Set :=
| RaiseFlightHeight      (* the text appended when [risk_score > 0.3] *)
| InstallParachute       (* the text appended when [height < 100] *)
| AvoidDenseAreas        (* the first text appended when [risk_score > 0.5] *)
| RealTimeMonitoring.    (* the second text appended when [risk_score > 0.5] *)

(** [_get_risk_recommendations]; each of the four fixed texts is a
    constructor of [Recommendation]. *)
Definition _get_risk_recommendations (risk_score : R) (position : Position)
  : list Recommendation :=
  let recommendations := [] in
  let recommendations :=
    if Rlt_dec 0.3 risk_score then recommendations ++ [RaiseFlightHeight]
    else recommendations in
  let recommendations :=
    if Rlt_dec (height position) 100 then recommendations ++ [InstallParachute]
    else recommendations in
  let recommendations :=
    if Rlt_dec 0.5 risk_score
    then (recommendations ++ [AvoidDenseAreas]) ++ [RealTimeMonitoring]
    else recommendations in
  recommendations.

(** The dictionary returned by [evaluate_ground_risk]. *)
Record GroundRiskReport : Type := mkGroundRiskReport {
  impact_probability : R;
  impact_area_m2 : R;
  severity_score : R;
  total_risk : R;
  risk_level : Level;
  population_density : R;
  mitigation_factor : R;
  mitigated_risk : R;
  recommendations : list Recommendation
}.

(** [evaluate_ground_risk]; [uav_type] is ["medium"] when the caller leaves
    it out. *)
Definition evaluate_ground_risk (position : Position) (uav_type : string)
  : result GroundRiskReport :=
  let uav := uav_params uav_type in
  impact_area <- _calculate_impact_area (height position) uav ;;
  let population_density :=
    _get_population_density (longitude position) (latitude position) in
  let impact_probability :=
    _calculate_impact_probability impact_area population_density in
  severity <- _calculate_severity (height position) uav ;;
  let total_risk := impact_probability * severity in
  let mitigation := _calculate_mitigation_effect position in
  Ok {| impact_probability := impact_probability;
        impact_area_m2 := impact_area;
        severity_score := severity;
        total_risk := total_risk;
        risk_level := _get_risk_level total_risk;
        population_density := population_density;
        mitigation_factor := mitigation;
        mitigated_risk := total_risk * (1 - mitigation);
        recommendations := _get_risk_recommendations total_risk position |}.

End GroundRisk.

(** ** Vocabulary of the statements *)

(** The sum of the [duration] entries of a list of conflict details. *)
Definition sum_durations (details : list NTSC.ConflictDetail) : R :=
  fold_right (fun d acc => NTSC.duration d + acc) 0 details.

(** [d] records a pair of segments of [segs] flown by two different
    aircraft. *)
Definition from_distinct_aircraft (segs : list NTSC.FlightSegment)
    (d : NTSC.ConflictDetail) : Prop :=
  exists s1 s2,
    In s1 segs /\ In s2 segs /\
    NTSC.aircraft_pair d = (NTSC.aircraft_id s1, NTSC.aircraft_id s2) /\
    NTSC.aircraft_id s1 <> NTSC.aircraft_id s2.

(** What the pair loops of [calculate_ntsc] keep true of [conflict_time] and
    [conflict_details]. *)
Definition pairs_invariant (segs : list NTSC.FlightSegment)
    (conflict_time : R) (details : list NTSC.ConflictDetail) : Prop :=
  0 <= conflict_time /\
  conflict_time = sum_durations details /\
  Forall (from_distinct_aircraft segs) details.

(** The order of the severity tiers, LOW < MEDIUM < HIGH < CRITICAL. *)
Definition severity_rank (s : Analyzer.Severity) : nat :=
  match s with
  | Analyzer.LOW => 0
  | Analyzer.MEDIUM => 1
  | Analyzer.HIGH => 2
  | Analyzer.CRITICAL => 3
  end.

(** ** Example inputs *)

(** A segment of an aircraft that hovers at [p] from [t0] to [t1]. *)
Definition hover (id : string) (t0 t1 : R) (p : Position) : NTSC.FlightSegment :=
  {| NTSC.start_time := t0; NTSC.end_time := t1;
     NTSC.start_pos := p; NTSC.end_pos := p; NTSC.aircraft_id := id |}.

Definition vertiport : Position :=
  {| longitude := 113.32; latitude := 23.12; height := 120 |}.

(** A point outside the ranges of a longitude, a latitude and a height. *)
Definition off_the_map : Position :=
  {| longitude := 200; latitude := 100; height := -5 |}.

(** Three aircraft hovering at the same point during the same second. *)
Definition three_hovering (p : Position) : list NTSC.FlightSegment :=
  [ hover "A" 0 1 p; hover "B" 0 1 p; hover "C" 0 1 p ].

(** A minute of flight to the east, climbing 30 m. *)
Definition eastbound : NTSC.FlightSegment :=
  {| NTSC.start_time := 0; NTSC.end_time := 60;
     NTSC.start_pos := vertiport;
     NTSC.end_pos := {| longitude := 113.33; latitude := 23.12; height := 150 |};
     NTSC.aircraft_id := "EW" |}.

(** A segment of no duration. *)
Definition instant : NTSC.FlightSegment := hover "A" 5 5 vertiport.

(** Two route points 0.0004 degrees of latitude and 29 m of height apart,
    at the same time. *)
Definition lower_point : Analyzer.Waypoint :=
  Analyzer.mkWaypoint 113.32 23.12 100 0.

Definition upper_point : Analyzer.Waypoint :=
  Analyzer.mkWaypoint 113.32 (23.12 + 0.0004) 129 0.

(** Ten seconds of climb from 20.4 m to 100.2 m, and from 16.4 m to 80.7 m,
    over binary64 numbers. *)
Definition climb : Float64.FlightSegment :=
  {| Float64.start_time := 0%float;
     Float64.end_time := 10%float;
     Float64.start_pos := Float64.mkPosition 113.32%float 23.12%float 20.4%float;
     Float64.end_pos := Float64.mkPosition 113.33%float 23.12%float 100.2%float;
     Float64.aircraft_id := "UP" |}.

Definition ascent : Float64.FlightSegment :=
  {| Float64.start_time := 0%float;
     Float64.end_time := 10%float;
     Float64.start_pos := Float64.mkPosition 113.32%float 23.12%float 16.4%float;
     Float64.end_pos := Float64.mkPosition 113.32%float 23.12%float 80.7%float;
     Float64.aircraft_id := "UP" |}.

(** ** Vocabulary of the further properties *)

(** The value that [_haversine_distance] computes, in metres. *)
Definition haversine_m (lat1 lon1 lat2 lon2 : R) : R :=
  6371000 * (2 * math_atan2 (sqrt (haversine_a lat1 lon1 lat2 lon2))
                            (sqrt (1 - haversine_a lat1 lon1 lat2 lon2))).

(** A running minimum that is infinite or not negative. *)
Definition ext_nonneg (m : ext) : Prop :=
  match m with
  | Inf => True
  | Fin x => 0 <= x
  end.

(** The position that [_interpolate_position] builds from the ratio [r],
    the ratio it uses at the time [t], clamped, and the position it returns
    on a segment of non-zero duration. *)
Definition position_at_ratio (segment : NTSC.FlightSegment) (r : R) : Position :=
  {| longitude := longitude (NTSC.start_pos segment) +
       r * (longitude (NTSC.end_pos segment) - longitude (NTSC.start_pos segment));
     latitude := latitude (NTSC.start_pos segment) +
       r * (latitude (NTSC.end_pos segment) - latitude (NTSC.start_pos segment));
     height := height (NTSC.start_pos segment) +
       r * (height (NTSC.end_pos segment) - height (NTSC.start_pos segment)) |}.

Definition ratio_at (segment : NTSC.FlightSegment) (t : R) : R :=
  Py.max 0 (Py.min 1 ((t - NTSC.start_time segment) /
                      (NTSC.end_time segment - NTSC.start_time segment))).

Definition position_at (segment : NTSC.FlightSegment) (t : R) : Position :=
  position_at_ratio segment (ratio_at segment t).

(** The horizontal, vertical and 3-D distance of two segments at the time
    [t], and the separation test of the sampling loop at that time. *)
Definition horizontal_at (seg1 seg2 : NTSC.FlightSegment) (t : R) : R :=
  haversine_m (latitude (position_at seg1 t)) (longitude (position_at seg1 t))
              (latitude (position_at seg2 t)) (longitude (position_at seg2 t)).

Definition vertical_at (seg1 seg2 : NTSC.FlightSegment) (t : R) : R :=
  Rabs (height (position_at seg1 t) - height (position_at seg2 t)).

Definition distance_at (seg1 seg2 : NTSC.FlightSegment) (t : R) : R :=
  sqrt (horizontal_at seg1 seg2 t ^ 2 + vertical_at seg1 seg2 t ^ 2).

Definition counted (seg1 seg2 : NTSC.FlightSegment) (t : R) : bool :=
  NTSC.in_conflict (horizontal_at seg1 seg2 t) (vertical_at seg1 seg2 t).

(** The times at which the loop of [_calculate_conflict_duration] takes a
    sample, as the loop produces them: [t], then [t + time_step], and so on
    as long as the time is not after [overlap_end]. *)
Equations? sample_times (overlap_end t : R) : list R
    by wf (NTSC.samples_left overlap_end t) lt :=
  sample_times overlap_end t with Rle_dec t overlap_end := {
    | left _ => t :: sample_times overlap_end (t + NTSC.time_step)
    | right _ => [] }.
Proof.
  unfold NTSC.samples_left, NTSC.time_step.
  pose proof (archimed (overlap_end - t)) as [Hgt Hle].
  assert (Hup : up (overlap_end - (t + 1)) = (up (overlap_end - t) - 1)%Z).
  { symmetry. apply tech_up; rewrite minus_IZR; simpl; lra. }
  rewrite Hup.
  assert (0 < up (overlap_end - t))%Z by (apply lt_IZR; simpl; lra).
  lia.
Qed.

(** The number of sample times at which the separation test holds, and the
    running minimum of the 3-D distance over the sample times. *)
Definition count_conflicts (seg1 seg2 : NTSC.FlightSegment) (times : list R)
  : nat :=
  List.length (filter (counted seg1 seg2) times).

Definition least_distance (seg1 seg2 : NTSC.FlightSegment) (times : list R)
    (min_distance : ext) : ext :=
  fold_left (fun m t => min_ext m (distance_at seg1 seg2 t)) times min_distance.

(** The [n] whole seconds from [z] on: [z], [z + 1], ..., [z + n - 1]. *)
Fixpoint whole_seconds (z : Z) (n : nat) : list R :=
  match n with
  | O => []
  | S n' => IZR z :: whole_seconds (z + 1) n'
  end.

(** What the pair [(s1, s2)] adds to the conflict time and to the conflict
    details of [calculate_ntsc]. *)
Definition pair_outcome (s1 s2 : NTSC.FlightSegment)
  : R * list NTSC.ConflictDetail :=
  match NTSC.check_pair s1 s2 0 [] with
  | Ok outcome => outcome
  | Raise _ => (0, [])
  end.

Definition pair_time (s1 s2 : NTSC.FlightSegment) : R :=
  fst (pair_outcome s1 s2).

Definition pair_details (s1 s2 : NTSC.FlightSegment) : list NTSC.ConflictDetail :=
  snd (pair_outcome s1 s2).

(** The same, summed over the pairs of [s1] with the segments of [rest],
    and over all pairs of a list in the order of the two loops. *)
Fixpoint row_time (s1 : NTSC.FlightSegment) (rest : list NTSC.FlightSegment) : R :=
  match rest with
  | [] => 0
  | s2 :: rest' => pair_time s1 s2 + row_time s1 rest'
  end.

Fixpoint pairs_time (segs : list NTSC.FlightSegment) : R :=
  match segs with
  | [] => 0
  | s1 :: rest => row_time s1 rest + pairs_time rest
  end.

Definition row_details (s1 : NTSC.FlightSegment) (rest : list NTSC.FlightSegment)
  : list NTSC.ConflictDetail :=
  flat_map (pair_details s1) rest.

Fixpoint pairs_details (segs : list NTSC.FlightSegment)
  : list NTSC.ConflictDetail :=
  match segs with
  | [] => []
  | s1 :: rest => row_details s1 rest ++ pairs_details rest
  end.

(** The sum of the durations of the segments. *)
Definition durations_sum (segs : list NTSC.FlightSegment) : R :=
  fold_right (fun s acc => (NTSC.end_time s - NTSC.start_time s) + acc) 0 segs.

(** A segment flown at one height. *)
Definition level_flight (s : NTSC.FlightSegment) : Prop :=
  height (NTSC.end_pos s) = height (NTSC.start_pos s).

(** Three reasons for which two segments cannot be in conflict: one
    aircraft, time windows that do not overlap, two level flights whose
    heights are [VERTICAL_SEPARATION] or more apart. *)
Definition cannot_conflict (s1 s2 : NTSC.FlightSegment) : Prop :=
  NTSC.aircraft_id s1 = NTSC.aircraft_id s2 \/
  Py.min (NTSC.end_time s1) (NTSC.end_time s2) <=
    Py.max (NTSC.start_time s1) (NTSC.start_time s2) \/
  (level_flight s1 /\ level_flight s2 /\
   NTSC.VERTICAL_SEPARATION <=
     Rabs (height (NTSC.start_pos s1) - height (NTSC.start_pos s2))).

(** The order of the safety levels. *)
Definition safety_rank (l : NTSC.SafetyLevel) : nat :=
  match l with
  | NTSC.EXCELLENT => 0
  | NTSC.GOOD => 1
  | NTSC.ACCEPTABLE => 2
  | NTSC.WARNING => 3
  | NTSC.CRITICAL => 4
  end.

(** What every entry of [conflict_details] records: two segments of the
    list flown by different aircraft, their common time window, which is not
    empty, a duration that is a positive whole number of seconds, and a
    minimum distance that is finite and not negative. *)
Definition well_formed_detail (segs : list NTSC.FlightSegment)
    (d : NTSC.ConflictDetail) : Prop :=
  exists s1 s2 (k : nat) (m : R),
    In s1 segs /\ In s2 segs /\
    NTSC.aircraft_pair d = (NTSC.aircraft_id s1, NTSC.aircraft_id s2) /\
    NTSC.aircraft_id s1 <> NTSC.aircraft_id s2 /\
    NTSC.time_range d =
      (Py.max (NTSC.start_time s1) (NTSC.start_time s2),
       Py.min (NTSC.end_time s1) (NTSC.end_time s2)) /\
    fst (NTSC.time_range d) < snd (NTSC.time_range d) /\
    NTSC.duration d = INR k /\ (0 < k)%nat /\
    NTSC.min_distance d = Fin m /\ 0 <= m.

(** The distance in space and the distance in time of two route points. *)
Definition dist3d (p1 p2 : Analyzer.Waypoint) : R :=
  sqrt (haversine_m (Analyzer.wp_latitude p1) (Analyzer.wp_longitude p1)
                    (Analyzer.wp_latitude p2) (Analyzer.wp_longitude p2) ^ 2 +
        Rabs (Analyzer.wp_height p1 - Analyzer.wp_height p2) ^ 2).

Definition time_gap (p1 p2 : Analyzer.Waypoint) : R :=
  Rabs (Analyzer.wp_time p1 - Analyzer.wp_time p2).

(** The conflict that [analyze_route_conflicts] records for point [k1] of
    route [ri] and point [k2] of route [rj]. *)
Definition conflict_of (ri rj : Analyzer.Route) (k1 : nat) (p1 : Analyzer.Waypoint)
    (k2 : nat) (p2 : Analyzer.Waypoint) : Analyzer.Conflict :=
  {| Analyzer.route1 := Analyzer.name ri;
     Analyzer.route2 := Analyzer.name rj;
     Analyzer.point1_index := k1;
     Analyzer.point2_index := k2;
     Analyzer.time := Analyzer.wp_time p1;
     Analyzer.distance := dist3d p1 p2;
     Analyzer.location :=
       {| longitude := (Analyzer.wp_longitude p1 + Analyzer.wp_longitude p2) / 2;
          latitude := (Analyzer.wp_latitude p1 + Analyzer.wp_latitude p2) / 2;
          height := (Analyzer.wp_height p1 + Analyzer.wp_height p2) / 2 |};
     Analyzer.severity :=
       Analyzer._calculate_conflict_severity (dist3d p1 p2) (time_gap p1 p2) |}.

(** The two points are less than 60 s and less than [SAFETY_SEPARATION]
    apart. *)
Definition close (p1 p2 : Analyzer.Waypoint) : Prop :=
  time_gap p1 p2 < 60 /\ dist3d p1 p2 < Analyzer.SAFETY_SEPARATION.

Definition closeb (p1 p2 : Analyzer.Waypoint) : bool :=
  ltb (time_gap p1 p2) 60 && ltb (dist3d p1 p2) Analyzer.SAFETY_SEPARATION.

(** The horizontal and the vertical distance of two route points, the two
    components of [dist3d]. *)
Definition ground_distance (p1 p2 : Analyzer.Waypoint) : R :=
  haversine_m (Analyzer.wp_latitude p1) (Analyzer.wp_longitude p1)
              (Analyzer.wp_latitude p2) (Analyzer.wp_longitude p2).

Definition height_gap (p1 p2 : Analyzer.Waypoint) : R :=
  Rabs (Analyzer.wp_height p1 - Analyzer.wp_height p2).

(** Two routes of one point each. *)
Definition one_point_routes (p1 p2 : Analyzer.Waypoint) : list Analyzer.Route :=
  [ {| Analyzer.name := "first"; Analyzer.path := [p1] |};
    {| Analyzer.name := "second"; Analyzer.path := [p2] |} ].

(** The conflicts of the loops of [analyze_route_conflicts], as lists. *)
Definition points_conflicts (ri rj : Analyzer.Route) (k1 : nat)
    (p1 : Analyzer.Waypoint) (k2 : nat) (p2 : Analyzer.Waypoint)
  : list Analyzer.Conflict :=
  if closeb p1 p2 then [conflict_of ri rj k1 p1 k2 p2] else [].

Fixpoint k2_conflicts (ri rj : Analyzer.Route) (k1 : nat) (p1 : Analyzer.Waypoint)
    (k2 : nat) (route2 : list Analyzer.Waypoint) : list Analyzer.Conflict :=
  match route2 with
  | [] => []
  | p2 :: rest =>
      points_conflicts ri rj k1 p1 k2 p2 ++ k2_conflicts ri rj k1 p1 (S k2) rest
  end.

Fixpoint k1_conflicts (ri rj : Analyzer.Route) (k1 : nat)
    (route1 : list Analyzer.Waypoint) : list Analyzer.Conflict :=
  match route1 with
  | [] => []
  | p1 :: rest =>
      k2_conflicts ri rj k1 p1 0 (Analyzer.path rj) ++
      k1_conflicts ri rj (S k1) rest
  end.

Fixpoint j_conflicts (ri : Analyzer.Route) (rest : list Analyzer.Route)
  : list Analyzer.Conflict :=
  match rest with
  | [] => []
  | rj :: rest' =>
      k1_conflicts ri rj 0 (Analyzer.path ri) ++ j_conflicts ri rest'
  end.

Fixpoint all_conflicts (routes : list Analyzer.Route) : list Analyzer.Conflict :=
  match routes with
  | [] => []
  | ri :: rest => j_conflicts ri rest ++ all_conflicts rest
  end.

(** Two route points that cannot be recorded as a conflict: 60 s or more
    apart in time, or [SAFETY_SEPARATION] or more apart in height. *)
Definition separated (p1 p2 : Analyzer.Waypoint) : Prop :=
  60 <= time_gap p1 p2 \/
  Analyzer.SAFETY_SEPARATION <= Rabs (Analyzer.wp_height p1 - Analyzer.wp_height p2).

Definition routes_separated (r1 r2 : Analyzer.Route) : Prop :=
  forall p1 p2, In p1 (Analyzer.path r1) -> In p2 (Analyzer.path r2) ->
                separated p1 p2.

(** The order of the risk levels, and what one conflict adds to the risk
    score. *)
Definition risk_rank (l : Analyzer.Risk.Level) : nat :=
  match l with
  | Analyzer.Risk.SAFE => 0
  | Analyzer.Risk.LOW => 1
  | Analyzer.Risk.MEDIUM => 2
  | Analyzer.Risk.HIGH => 3
  | Analyzer.Risk.UNACCEPTABLE => 4
  end.

Definition severity_weight (s : Analyzer.Severity) : nat :=
  match s with
  | Analyzer.CRITICAL => 11
  | Analyzer.HIGH => 6
  | _ => 1
  end.

(** The two routes of [get_vertical_conflict_routes]: one ground track, 80 m
    and 150 m high. *)
Definition low_alt_route : Analyzer.Route :=
  {| Analyzer.name := "Low-Alt-Route";
     Analyzer.path :=
       [ Analyzer.mkWaypoint 113.32 23.11 80 0;
         Analyzer.mkWaypoint 113.32 23.12 80 60;
         Analyzer.mkWaypoint 113.32 23.13 80 120 ] |}.

Definition high_alt_route : Analyzer.Route :=
  {| Analyzer.name := "High-Alt-Route";
     Analyzer.path :=
       [ Analyzer.mkWaypoint 113.32 23.11 150 30;
         Analyzer.mkWaypoint 113.32 23.12 150 90;
         Analyzer.mkWaypoint 113.32 23.13 150 150 ] |}.

(** The length of a route: the sum of the distances between consecutive
    points. *)
Fixpoint path_length (route : list Position) : R :=
  match route with
  | p1 :: (p2 :: _) as rest =>
      haversine_m (latitude p1) (longitude p1) (latitude p2) (longitude p2) +
      path_length rest
  | _ => 0
  end.

(** Two route points less than 100 m apart on the ground, and the
    intersection that [_find_route_intersections] records for them. *)
Definition near (p1 p2 : Position) : Prop :=
  haversine_m (latitude p1) (longitude p1) (latitude p2) (longitude p2) < 100.

Definition nearb (p1 p2 : Position) : bool :=
  ltb (haversine_m (latitude p1) (longitude p1) (latitude p2) (longitude p2)) 100.

Definition intersection_of (i j : nat) (p1 p2 : Position) : Capacity.Intersection :=
  {| Capacity.route1 := i;
     Capacity.route2 := j;
     Capacity.location :=
       {| Capacity.loc_longitude := (longitude p1 + longitude p2) / 2;
          Capacity.loc_latitude := (latitude p1 + latitude p2) / 2 |} |}.

(** The intersections of the loops of [_find_route_intersections], as
    lists. *)
Definition point_intersections (i j : nat) (p1 p2 : Position)
  : list Capacity.Intersection :=
  if nearb p1 p2 then [intersection_of i j p1 p2] else [].

Definition route_pair_intersections (i j : nat) (route_i route_j : list Position)
  : list Capacity.Intersection :=
  flat_map (fun p1 => flat_map (point_intersections i j p1) route_j) route_i.

Fixpoint j_intersections (i : nat) (route_i : list Position) (j : nat)
    (rest : list (list Position)) : list Capacity.Intersection :=
  match rest with
  | [] => []
  | route_j :: rest' =>
      route_pair_intersections i j route_i route_j ++
      j_intersections i route_i (S j) rest'
  end.

Fixpoint all_intersections (i : nat) (routes : list (list Position))
  : list Capacity.Intersection :=
  match routes with
  | [] => []
  | route_i :: rest =>
      j_intersections i route_i (S i) rest ++ all_intersections (S i) rest
  end.

(** * Properties *)

(** ** The runtime *)

Lemma ltb_lt (x y : R) : ltb x y = true <-> x < y.
Proof.
  unfold ltb. destruct (Rlt_dec x y); split; intros; try assumption;
    try reflexivity; try discriminate; contradiction.
Qed.

Lemma ltb_ge (x y : R) : ltb x y = false <-> y <= x.
Proof.
  unfold ltb. destruct (Rlt_dec x y); split; intros; try discriminate;
    try reflexivity; lra.
Qed.

Lemma min_Rmin (a b : R) : Py.min a b = Rmin b a.
Proof.
  unfold Py.min, Rmin. destruct (Rlt_dec b a), (Rle_dec b a); lra.
Qed.

Lemma max_Rmax (a b : R) : Py.max a b = Rmax a b.
Proof.
  unfold Py.max, Rmax. destruct (Rlt_dec a b), (Rle_dec a b); lra.
Qed.

(** The clamp [max(0, min(1, r))] lands in [[0, 1]]. *)
Lemma clamp_bounds (r : R) : 0 <= Py.max 0 (Py.min 1 r) <= 1.
Proof.
  unfold Py.max, Py.min.
  destruct (Rlt_dec r 1); destruct (Rlt_dec 0 _); lra.
Qed.

Lemma clamp_below (r : R) : r <= 0 -> Py.max 0 (Py.min 1 r) = 0.
Proof.
  intros Hr. unfold Py.max, Py.min.
  destruct (Rlt_dec r 1); destruct (Rlt_dec 0 _); lra.
Qed.

Lemma clamp_above (r : R) : 1 <= r -> Py.max 0 (Py.min 1 r) = 1.
Proof.
  intros Hr. unfold Py.max, Py.min.
  destruct (Rlt_dec r 1); destruct (Rlt_dec 0 _); lra.
Qed.

Lemma math_sqrt_nonneg (x : R) : 0 <= x -> math_sqrt x = Ok (sqrt x).
Proof.
  intros Hx. unfold math_sqrt. destruct (Rlt_dec x 0); [lra | reflexivity].
Qed.

Lemma div_nonzero (x y : R) : y <> 0 -> div x y = Ok (x / y).
Proof.
  intros Hy. unfold div. destruct (Req_dec_T y 0); [contradiction | reflexivity].
Qed.

Lemma div_zero (x : R) : div x 0 = Raise ZeroDivisionError.
Proof.
  unfold div. destruct (Req_dec_T 0 0); [reflexivity | contradiction].
Qed.

(** [atan2] of a point of the upper half plane is an angle of [[0, PI]]. *)
Lemma math_atan2_nonneg (y x : R) : 0 <= y -> 0 <= math_atan2 y x.
Proof.
  intros Hy. unfold math_atan2.
  pose proof PI_RGT_0 as HPI.
  destruct (Rlt_dec 0 x) as [Hx | Hx].
  - rewrite <- atan_0. destruct Hy as [Hy | <-].
    + left. apply atan_increasing. apply Rdiv_lt_0_compat; assumption.
    + right. f_equal. unfold Rdiv. ring.
  - destruct (Rlt_dec x 0) as [Hx' | Hx'].
    + destruct (Rle_dec 0 y); [| contradiction].
      pose proof (atan_bound (y / x)). lra.
    + destruct (Rlt_dec 0 y); [lra |].
      destruct (Rlt_dec y 0); lra.
Qed.

(** ** Geodesy *)

(** [a] is a number of [[0, 1]] for every input, also outside the ranges of
    a latitude and a longitude: neither square root can fail. *)
Lemma haversine_a_bounds (lat1 lon1 lat2 lon2 : R) :
  0 <= haversine_a lat1 lon1 lat2 lon2 <= 1.
Proof.
  unfold haversine_a.
  set (p1 := math_radians lat1). set (p2 := math_radians lat2).
  assert (Hd : math_radians (lat2 - lat1) = p2 - p1)
    by (unfold p1, p2, math_radians; ring).
  rewrite Hd.
  set (s := (sin (math_radians (lon2 - lon1) / 2)) ^ 2).
  assert (Hs : 0 <= s <= 1).
  { unfold s. pose proof (SIN_bound (math_radians (lon2 - lon1) / 2)). nra. }
  assert (Hhalf : (sin ((p2 - p1) / 2)) ^ 2 = (1 - cos (p2 - p1)) / 2).
  { pose proof (cos_2a_sin ((p2 - p1) / 2)) as H.
    replace (2 * ((p2 - p1) / 2)) with (p2 - p1) in H by field.
    rewrite H. simpl. field. }
  rewrite Hhalf, cos_minus.
  pose proof (COS_bound (p2 - p1)) as Hm. rewrite cos_minus in Hm.
  pose proof (COS_bound (p2 + p1)) as Hp. rewrite cos_plus in Hp.
  set (C := cos p1 * cos p2) in *. set (S := sin p1 * sin p2) in *.
  replace (cos p2 * cos p1) with C in * by (unfold C; ring).
  replace (sin p2 * sin p1) with S in * by (unfold S; ring).
  split; nra.
Qed.

Lemma haversine_unfold (lat1 lon1 lat2 lon2 : R) :
  _haversine_distance lat1 lon1 lat2 lon2 =
  Ok (6371000 * (2 * math_atan2 (sqrt (haversine_a lat1 lon1 lat2 lon2))
                                (sqrt (1 - haversine_a lat1 lon1 lat2 lon2)))).
Proof.
  pose proof (haversine_a_bounds lat1 lon1 lat2 lon2) as [H0 H1].
  unfold _haversine_distance. fold (haversine_a lat1 lon1 lat2 lon2).
  cbv zeta. rewrite math_sqrt_nonneg by assumption. cbn [bind].
  rewrite math_sqrt_nonneg by lra. reflexivity.
Qed.

(** The distance is computed, and is not negative, whatever the input. *)
Lemma haversine_total (lat1 lon1 lat2 lon2 : R) :
  exists d, _haversine_distance lat1 lon1 lat2 lon2 = Ok d /\ 0 <= d.
Proof.
  rewrite haversine_unfold. eexists. split; [reflexivity |].
  pose proof (math_atan2_nonneg
                (sqrt (haversine_a lat1 lon1 lat2 lon2))
                (sqrt (1 - haversine_a lat1 lon1 lat2 lon2))
                (sqrt_pos _)).
  lra.
Qed.

(** A point is at distance 0 from itself. *)
Lemma haversine_same (lat lon : R) : _haversine_distance lat lon lat lon = Ok 0.
Proof.
  rewrite haversine_unfold.
  assert (Ha : haversine_a lat lon lat lon = 0).
  { unfold haversine_a, math_radians.
    replace ((lat - lat) * (PI / 180) / 2) with 0 by field.
    replace ((lon - lon) * (PI / 180) / 2) with 0 by field.
    rewrite sin_0. ring. }
  rewrite Ha, Rminus_0_r, sqrt_0, sqrt_1.
  unfold math_atan2. destruct (Rlt_dec 0 1); [| lra].
  replace (0 / 1) with 0 by field. rewrite atan_0. f_equal. ring.
Qed.

Lemma haversine_m_same (lat lon : R) : haversine_m lat lon lat lon = 0.
Proof.
  pose proof (haversine_same lat lon) as Hs.
  rewrite haversine_unfold in Hs. injection Hs as Hs. exact Hs.
Qed.

(** When the haversine term is [sin x ^ 2] for an angle [x] of the first
    quadrant, the distance is the radius times [2 x]. *)
Lemma haversine_of_half_angle (lat1 lon1 lat2 lon2 x : R) :
  0 <= x <= PI / 2 ->
  haversine_a lat1 lon1 lat2 lon2 = sin x ^ 2 ->
  haversine_m lat1 lon1 lat2 lon2 = 6371000 * (2 * x).
Proof.
  intros [Hx0 Hx1] Ha. unfold haversine_m. rewrite Ha.
  pose proof PI_RGT_0 as HPI.
  assert (Hsin : 0 <= sin x) by (apply sin_ge_0; lra).
  assert (Hcos : 0 <= cos x) by (apply cos_ge_0; lra).
  assert (H1 : 1 - sin x ^ 2 = cos x ^ 2).
  { pose proof (sin2_cos2 x) as H. unfold Rsqr in H. simpl. lra. }
  rewrite H1, !sqrt_pow2 by assumption.
  do 2 f_equal. unfold math_atan2.
  destruct (Rlt_dec 0 (cos x)) as [Hc | Hc].
  - assert (Hlt : x < PI / 2).
    { destruct (Req_dec x (PI / 2)) as [-> | Hne]; [| lra].
      rewrite cos_PI2 in Hc. lra. }
    change (sin x / cos x) with (tan x). apply atan_tan. lra.
  - assert (Hc0 : cos x = 0) by lra.
    destruct (Rlt_dec (cos x) 0); [lra |].
    assert (Hs1 : sin x ^ 2 = 1) by (rewrite Hc0 in H1; lra).
    assert (Hspos : 0 < sin x) by nra.
    destruct (Rlt_dec 0 (sin x)); [| lra].
    destruct (Rle_lt_dec (PI / 2) x) as [Hge | Hlt]; [lra |].
    exfalso. assert (0 < cos x); [| lra]. apply cos_gt_0; lra.
Qed.

(** Along a meridian the distance is the radius times the difference of the
    latitudes, in radians. *)
Lemma haversine_m_meridian (lat lon delta : R) :
  0 <= delta <= 180 ->
  haversine_m lat lon (lat + delta) lon = 6371000 * math_radians delta.
Proof.
  intros [Hd0 Hd1]. pose proof PI_RGT_0 as HPI.
  assert (Hx : 0 <= math_radians delta / 2 <= PI / 2).
  { unfold math_radians. split; nra. }
  rewrite (haversine_of_half_angle _ _ _ _ (math_radians delta / 2) Hx).
  - f_equal. field.
  - unfold haversine_a.
    replace (lat + delta - lat) with delta by ring.
    replace (math_radians (lon - lon) / 2) with 0
      by (unfold math_radians; field).
    rewrite sin_0. ring.
Qed.

(** Two terms of Machin's series for [PI / 4]. *)
Lemma PI_bounds : 3.13 < PI < 3.24.
Proof.
  pose proof (PI_2_3_7_ineq 0) as [Hlo Hhi].
  unfold sum_f_R0, tg_alt, PI_2_3_7_tg, Ratan_seq in Hlo, Hhi.
  simpl in Hlo, Hhi. lra.
Qed.

(** ** The trajectory interpolator *)

Section Interpolation.

Import NTSC.

(** The point of a segment at ratio [r]. *)
Lemma interpolate_unfold (segment : FlightSegment) (t : R) :
  end_time segment <> start_time segment ->
  _interpolate_position segment t =
  let r := Py.max 0 (Py.min 1 ((t - start_time segment) /
                               (end_time segment - start_time segment))) in
  Ok {| longitude := longitude (start_pos segment) +
          r * (longitude (end_pos segment) - longitude (start_pos segment));
        latitude := latitude (start_pos segment) +
          r * (latitude (end_pos segment) - latitude (start_pos segment));
        height := height (start_pos segment) +
          r * (height (end_pos segment) - height (start_pos segment)) |}.
Proof.
  intros Hne. unfold _interpolate_position.
  rewrite div_nonzero by lra. reflexivity.
Qed.

(** On a segment of duration zero the quotient is a division by zero. *)
Lemma interpolate_degenerate (segment : FlightSegment) (t : R) :
  end_time segment = start_time segment ->
  _interpolate_position segment t = Raise ZeroDivisionError.
Proof.
  intros Heq. unfold _interpolate_position.
  rewrite Heq, Rminus_diag, div_zero. reflexivity.
Qed.

Lemma interpolate_ratio_0 (segment : FlightSegment) (t : R) :
  end_time segment <> start_time segment ->
  (t - start_time segment) / (end_time segment - start_time segment) <= 0 ->
  _interpolate_position segment t = Ok (start_pos segment).
Proof.
  intros Hne Hr. rewrite interpolate_unfold by assumption. cbv zeta.
  rewrite clamp_below by assumption.
  destruct (start_pos segment) as [lo la h]. simpl. do 2 f_equal; ring.
Qed.

Lemma interpolate_ratio_1 (segment : FlightSegment) (t : R) :
  end_time segment <> start_time segment ->
  1 <= (t - start_time segment) / (end_time segment - start_time segment) ->
  _interpolate_position segment t = Ok (position_at_ratio segment 1).
Proof.
  intros Hne Hr. rewrite interpolate_unfold by assumption. cbv zeta.
  rewrite clamp_above by assumption. reflexivity.
Qed.

(** On a segment of non-zero duration the interpolator returns the position
    at the clamped ratio. *)
Lemma interpolate_value (segment : FlightSegment) (t : R) :
  end_time segment <> start_time segment ->
  _interpolate_position segment t = Ok (position_at segment t).
Proof.
  intros Hne. rewrite interpolate_unfold by assumption. reflexivity.
Qed.

Lemma ratio_at_bounds (segment : FlightSegment) (t : R) :
  0 <= ratio_at segment t <= 1.
Proof. apply clamp_bounds. Qed.

End Interpolation.

(** ** The sampling loop *)

Section Sampling.

Import NTSC.

Variables seg1 seg2 : FlightSegment.
Hypothesis seg1_proper : end_time seg1 <> start_time seg1.
Hypothesis seg2_proper : end_time seg2 <> start_time seg2.

(** On two segments of non-zero duration a sample raises nothing, and adds
    nothing or one [time_step] to the conflict duration. *)
Lemma sample_total (t cd : R) (md : ext) :
  exists cd' md',
    sample seg1 seg2 t cd md = Ok (cd', md') /\
    (cd' = cd \/ cd' = cd + time_step).
Proof.
  unfold sample.
  rewrite (interpolate_unfold seg1) by assumption.
  rewrite (interpolate_unfold seg2) by assumption.
  cbv zeta. cbn [bind]. rewrite haversine_unfold. cbn [bind].
  rewrite math_sqrt_nonneg.
  2:{ apply Rplus_le_le_0_compat; apply pow2_ge_0. }
  cbn [bind].
  destruct (in_conflict _ _); do 2 eexists; (split; [reflexivity |]); auto.
Qed.

Lemma sample_loop_total (overlap_end t cd : R) (md : ext) :
  exists cd' md',
    sample_loop seg1 seg2 overlap_end t cd md = Ok (cd', md') /\ cd <= cd'.
Proof.
  funelim (sample_loop seg1 seg2 overlap_end t cd md).
  - do 2 eexists. split; [reflexivity | lra].
  - destruct (sample_total t conflict_duration min_distance0)
      as (cd1 & md1 & Hs & Hcd).
    match goal with
    | Hq : sample _ _ _ _ _ = Ok _ |- _ =>
        rewrite Hq in Hs; injection Hs as <- <-
    end.
    match goal with
    | IH : exists _ _, _ /\ _ |- _ => destruct IH as (cd' & md' & Hl & Hle)
    end.
    exists cd', md'. split; [assumption |].
    unfold time_step in Hcd. lra.
  - destruct (sample_total t conflict_duration min_distance0)
      as (cd1 & md1 & Hs & _).
    congruence.
Qed.

End Sampling.

(** ** The pair loops of [calculate_ntsc] *)

Section PairLoops.

Import NTSC.

Variable segs : list FlightSegment.

Lemma sum_durations_app (ds : list ConflictDetail) (d : ConflictDetail) :
  sum_durations (ds ++ [d]) = sum_durations ds + duration d.
Proof.
  induction ds as [| x ds IH]; simpl.
  - ring.
  - rewrite IH. ring.
Qed.

(** A pair is sampled only when both segments have a positive duration. *)
Lemma overlap_proper (s1 s2 : FlightSegment) :
  Py.max (start_time s1) (start_time s2) < Py.min (end_time s1) (end_time s2) ->
  start_time s1 < end_time s1 /\ start_time s2 < end_time s2.
Proof.
  unfold Py.max, Py.min.
  destruct (Rlt_dec (start_time s1) (start_time s2));
    destruct (Rlt_dec (end_time s2) (end_time s1)); lra.
Qed.

Lemma check_pair_spec (s1 s2 : FlightSegment) (ct : R) (ds : list ConflictDetail) :
  In s1 segs -> In s2 segs -> pairs_invariant segs ct ds ->
  exists ct' ds',
    check_pair s1 s2 ct ds = Ok (ct', ds') /\ pairs_invariant segs ct' ds'.
Proof.
  intros In1 In2 Inv. unfold check_pair.
  destruct (String.eqb (aircraft_id s1) (aircraft_id s2)) eqn:Hid.
  { exists ct, ds. split; [reflexivity | assumption]. }
  apply String.eqb_neq in Hid. cbv zeta.
  destruct (Rlt_dec _ _) as [Hov | Hov].
  2:{ exists ct, ds. split; [reflexivity | assumption]. }
  apply overlap_proper in Hov as Hpr. destruct Hpr as [Hp1 Hp2].
  unfold _calculate_conflict_duration.
  destruct (sample_loop_total s1 s2 ltac:(lra) ltac:(lra)
              (Py.min (end_time s1) (end_time s2))
              (Py.max (start_time s1) (start_time s2)) 0 Inf)
    as (cd & md & Hloop & Hcd).
  rewrite Hloop. cbn [bind].
  destruct (Rlt_dec 0 cd) as [Hpos | Hpos].
  2:{ exists ct, ds. split; [reflexivity | assumption]. }
  do 2 eexists. split; [reflexivity |].
  destruct Inv as (Hct & Hsum & Hall).
  repeat split.
  - lra.
  - rewrite sum_durations_app. simpl. lra.
  - apply Forall_app. split; [assumption |].
    constructor; [| constructor].
    exists s1, s2. simpl. auto.
Qed.

Lemma inner_loop_spec (s1 : FlightSegment) (rest : list FlightSegment) :
  In s1 segs -> incl rest segs ->
  forall ct ds, pairs_invariant segs ct ds ->
  exists ct' ds',
    inner_loop s1 rest ct ds = Ok (ct', ds') /\ pairs_invariant segs ct' ds'.
Proof.
  intros In1. induction rest as [| s2 rest IH]; intros Hincl ct ds Inv; simpl.
  - exists ct, ds. split; [reflexivity | assumption].
  - destruct (check_pair_spec s1 s2 ct ds In1 (Hincl s2 (in_eq _ _)) Inv)
      as (ct1 & ds1 & Hc & Inv1).
    rewrite Hc. cbn [bind].
    apply IH; [| assumption].
    intros x Hx. apply Hincl. right. assumption.
Qed.

Lemma outer_loop_spec (flight_segments : list FlightSegment) :
  incl flight_segments segs ->
  forall ct ds, pairs_invariant segs ct ds ->
  exists ct' ds',
    outer_loop flight_segments ct ds = Ok (ct', ds') /\
    pairs_invariant segs ct' ds'.
Proof.
  induction flight_segments as [| s1 rest IH]; intros Hincl ct ds Inv; simpl.
  - exists ct, ds. split; [reflexivity | assumption].
  - assert (Hrest : incl rest segs)
      by (intros x Hx; apply Hincl; right; assumption).
    destruct (inner_loop_spec s1 rest (Hincl s1 (in_eq _ _)) Hrest ct ds Inv)
      as (ct1 & ds1 & Hc & Inv1).
    rewrite Hc. cbn [bind].
    apply IH; assumption.
Qed.

End PairLoops.

(** [calculate_ntsc] returns a result for every list of segments; its
    conflict time and conflict details satisfy the invariant of the loops. *)
Lemma calculate_ntsc_spec (segs : list NTSC.FlightSegment) :
  exists ct ds,
    pairs_invariant segs ct ds /\
    NTSC.calculate_ntsc segs =
    Ok (let total := NTSC.sum_flight_time segs in
        let ntsc := if Rlt_dec 0 total then ct / total else 0 in
        {| NTSC.ntsc_value := ntsc;
           NTSC.conflict_percentage := ntsc * 100;
           NTSC.total_flight_time := total;
           NTSC.total_conflict_time := ct;
           NTSC.conflict_details := ds;
           NTSC.safety_level := NTSC._get_safety_level ntsc |}).
Proof.
  destruct (outer_loop_spec segs segs (incl_refl _) 0 [])
    as (ct & ds & Hloop & Inv).
  { repeat split; [lra | constructor]. }
  exists ct, ds. split; [assumption |].
  unfold NTSC.calculate_ntsc. rewrite Hloop. cbn [bind]. cbv zeta.
  destruct (Rlt_dec 0 (NTSC.sum_flight_time segs)) as [Hpos | Hpos].
  - rewrite div_nonzero by lra. reflexivity.
  - reflexivity.
Qed.

(** ** Running the sampling loop *)

Section RunningTheLoop.

Import NTSC.

Lemma sample_loop_exit (s1 s2 : FlightSegment) (overlap_end t cd : R) (md : ext) :
  overlap_end < t ->
  sample_loop s1 s2 overlap_end t cd md = Ok (cd, md).
Proof.
  intros Hlt. simp sample_loop.
  destruct (Rle_dec t overlap_end); [lra | reflexivity].
Qed.

Lemma sample_loop_step (s1 s2 : FlightSegment) (overlap_end t cd : R) (md : ext)
    (cd' : R) (md' : ext) :
  t <= overlap_end ->
  sample s1 s2 t cd md = Ok (cd', md') ->
  sample_loop s1 s2 overlap_end t cd md =
  sample_loop s1 s2 overlap_end (t + time_step) cd' md'.
Proof.
  intros Hle Hs. rewrite sample_loop_equation_1.
  destruct (Rle_dec t overlap_end); [| contradiction].
  simpl. rewrite Hs. reflexivity.
Qed.

End RunningTheLoop.

(** ** Hovering aircraft *)

Section Hovering.

Import NTSC.

Lemma interpolate_hover (id : string) (t0 t1 : R) (p : Position) (t : R) :
  t1 <> t0 ->
  _interpolate_position (hover id t0 t1 p) t = Ok p.
Proof.
  intros Hne. rewrite interpolate_unfold by exact Hne. cbv zeta.
  destruct p as [lo la h]. simpl. do 2 f_equal; ring.
Qed.

Lemma position_at_hover (id : string) (t0 t1 : R) (p : Position) (t : R) :
  position_at (hover id t0 t1 p) t = p.
Proof.
  unfold position_at, position_at_ratio. destruct p as [lo la h]. simpl.
  f_equal; ring.
Qed.

(** Two aircraft hovering at one point are in conflict at every sample. *)
Lemma sample_hover (a b : string) (t0 t1 u0 u1 : R) (p : Position)
    (t cd : R) (md : ext) :
  t1 <> t0 -> u1 <> u0 ->
  sample (hover a t0 t1 p) (hover b u0 u1 p) t cd md =
  Ok (cd + time_step, min_ext md 0).
Proof.
  intros H1 H2. unfold sample.
  rewrite !interpolate_hover by assumption. cbn [bind].
  rewrite haversine_same. cbn [bind].
  rewrite Rminus_diag, Rabs_R0.
  replace (0 ^ 2 + 0 ^ 2) with 0 by ring.
  rewrite math_sqrt_nonneg by lra. cbn [bind]. rewrite sqrt_0.
  assert (Hc : in_conflict 0 0 = true).
  { unfold in_conflict, HORIZONTAL_SEPARATION, VERTICAL_SEPARATION.
    apply andb_true_intro. split; apply ltb_lt; lra. }
  rewrite Hc. reflexivity.
Qed.

(** Over the window [[0, 1]] the loop samples [t = 0] and [t = 1]. *)
Lemma conflict_duration_hover (a b : string) (p : Position) :
  _calculate_conflict_duration (hover a 0 1 p) (hover b 0 1 p) 0 1 =
  Ok (2, Fin 0).
Proof.
  unfold _calculate_conflict_duration.
  rewrite (sample_loop_step _ _ 1 0 0 Inf (0 + time_step) (min_ext Inf 0));
    [| lra | apply sample_hover; lra].
  rewrite (sample_loop_step _ _ 1 (0 + time_step) _ _
             (0 + time_step + time_step) (min_ext (min_ext Inf 0) 0));
    [| unfold time_step; lra | apply sample_hover; lra].
  rewrite sample_loop_exit by (unfold time_step; lra).
  unfold time_step. simpl. unfold Py.min.
  destruct (Rlt_dec 0 0); [lra |]. do 2 f_equal. ring.
Qed.

Lemma check_pair_hover (a b : string) (p : Position) (ct : R)
    (ds : list ConflictDetail) :
  a <> b ->
  check_pair (hover a 0 1 p) (hover b 0 1 p) ct ds =
  Ok (ct + 2, ds ++ [ {| aircraft_pair := (a, b); duration := 2;
                         min_distance := Fin 0; time_range := (0, 1) |} ]).
Proof.
  intros Hab. unfold check_pair. simpl.
  apply String.eqb_neq in Hab. rewrite Hab.
  assert (Hmax : Py.max 0 0 = 0) by (unfold Py.max; destruct (Rlt_dec 0 0); lra).
  assert (Hmin : Py.min 1 1 = 1) by (unfold Py.min; destruct (Rlt_dec 1 1); lra).
  rewrite Hmax, Hmin.
  destruct (Rlt_dec 0 1); [| lra].
  rewrite conflict_duration_hover. cbn [bind].
  destruct (Rlt_dec 0 2); [| lra]. reflexivity.
Qed.

End Hovering.

(** ** NTSC *)

(** C1, as the code has it: for every list of flight segments
    [calculate_ntsc] returns a result whose [ntsc_value] is not negative.
    (The bound [ntsc_value <= 1] does not hold.) *)
Theorem C1_ntsc_value_nonneg (segs : list NTSC.FlightSegment) :
  exists r,
    NTSC.calculate_ntsc segs = Ok r /\ 0 <= NTSC.ntsc_value r.
Proof.
  destruct (calculate_ntsc_spec segs) as (ct & ds & (Hct & _ & _) & Hr).
  eexists. split; [exact Hr |]. cbv zeta. simpl.
  destruct (Rlt_dec 0 (NTSC.sum_flight_time segs)) as [Hpos | Hpos].
  - unfold Rdiv. apply Rmult_le_pos; [assumption |].
    left. apply Rinv_0_lt_compat. assumption.
  - lra.
Qed.

(** Three aircraft hovering at one point for the same second give three
    pairs with two conflicting samples each: 6 seconds of conflict time
    against 3 seconds of flight time. *)
Lemma calculate_ntsc_three_hovering (p : Position) :
  exists r,
    NTSC.calculate_ntsc (three_hovering p) = Ok r /\
    NTSC.total_flight_time r = 3 /\
    NTSC.total_conflict_time r = 6 /\
    NTSC.ntsc_value r = 2.
Proof.
  unfold NTSC.calculate_ntsc, three_hovering.
  cbn [NTSC.outer_loop NTSC.inner_loop].
  rewrite check_pair_hover by discriminate. cbn [bind].
  rewrite check_pair_hover by discriminate. cbn [bind].
  rewrite check_pair_hover by discriminate. cbn [bind].
  assert (Htot : NTSC.sum_flight_time
                   [hover "A" 0 1 p; hover "B" 0 1 p; hover "C" 0 1 p] = 3)
    by (unfold NTSC.sum_flight_time; simpl; ring).
  rewrite Htot.
  destruct (Rlt_dec 0 3) as [_ | H]; [| lra].
  rewrite div_nonzero by lra. cbn [bind].
  eexists. split; [reflexivity |]. simpl.
  repeat split; [ring | field].
Qed.

(** C1 refuted: for three aircraft hovering at one point for the same
    second, [ntsc_value] is 2, outside [[0, 1]]. *)
Lemma C1_ntsc_value_exceeds_one :
  exists r,
    NTSC.calculate_ntsc (three_hovering vertiport) = Ok r /\
    NTSC.ntsc_value r = 2 /\
    ~ (0 <= NTSC.ntsc_value r <= 1).
Proof.
  destruct (calculate_ntsc_three_hovering vertiport) as (r & Hr & _ & _ & Hv).
  exists r. split; [exact Hr |]. split; [exact Hv |]. rewrite Hv. lra.
Qed.

(** C6: a pair of segments with the same [aircraft_id] leaves the conflict
    time and the conflict details as they are, in whichever order the two
    segments come and however close they fly; and in the result of
    [calculate_ntsc], for every list of segments, each conflict detail
    records two segments of the list with different aircraft ids, and the
    total conflict time is the sum of the durations of these details. *)
Theorem C6_no_self_conflict (segs : list NTSC.FlightSegment) :
  (forall s1 s2 ct ds,
      NTSC.aircraft_id s1 = NTSC.aircraft_id s2 ->
      NTSC.check_pair s1 s2 ct ds = Ok (ct, ds)) /\
  exists r,
    NTSC.calculate_ntsc segs = Ok r /\
    Forall (from_distinct_aircraft segs) (NTSC.conflict_details r) /\
    NTSC.total_conflict_time r = sum_durations (NTSC.conflict_details r).
Proof.
  split.
  - intros s1 s2 ct ds Hid. unfold NTSC.check_pair.
    rewrite Hid, String.eqb_refl. reflexivity.
  - destruct (calculate_ntsc_spec segs) as (ct & ds & (_ & Hsum & Hall) & Hr).
    eexists. split; [exact Hr |]. cbv zeta. simpl. split; assumption.
Qed.

Lemma C6_no_self_conflict_witness :
  NTSC.check_pair (hover "A" 0 1 vertiport) (hover "A" 0 1 vertiport) 0 [] =
  Ok (0, []).
Proof.
  apply (proj1 (C6_no_self_conflict [])). reflexivity.
Defined.

(** ** The interpolator, claim by claim *)

(** C5, as the code has it: on a segment with [end_time > start_time] the
    position at [start_time], and at any time before it, is [start_pos]; at
    [end_time], and at any time after it, the ratio is 1 and the position is
    [start + 1 * (end - start)], coordinate by coordinate, the same position
    for all these times.  (That position is [end_pos] up to the rounding of
    the sum; the equation with [end_pos] itself does not hold.) *)
Theorem C5_interpolation_boundary_values (segment : NTSC.FlightSegment) :
  NTSC.start_time segment < NTSC.end_time segment ->
  (forall t, t <= NTSC.start_time segment ->
     NTSC._interpolate_position segment t = Ok (NTSC.start_pos segment)) /\
  (forall t, NTSC.end_time segment <= t ->
     NTSC._interpolate_position segment t =
     Ok {| longitude := longitude (NTSC.start_pos segment) +
             1 * (longitude (NTSC.end_pos segment) -
                  longitude (NTSC.start_pos segment));
           latitude := latitude (NTSC.start_pos segment) +
             1 * (latitude (NTSC.end_pos segment) -
                  latitude (NTSC.start_pos segment));
           height := height (NTSC.start_pos segment) +
             1 * (height (NTSC.end_pos segment) -
                  height (NTSC.start_pos segment)) |}).
Proof.
  intros Hlt.
  assert (Hne : NTSC.end_time segment <> NTSC.start_time segment) by lra.
  assert (Hpos : 0 < NTSC.end_time segment - NTSC.start_time segment) by lra.
  split.
  - intros t Ht. apply interpolate_ratio_0; [assumption |].
    apply Rmult_le_reg_r with (NTSC.end_time segment - NTSC.start_time segment);
      [assumption |].
    unfold Rdiv. rewrite Rmult_assoc, Rinv_l by lra. lra.
  - intros t Ht. apply interpolate_ratio_1; [assumption |].
    apply Rmult_le_reg_r with (NTSC.end_time segment - NTSC.start_time segment);
      [assumption |].
    unfold Rdiv. rewrite Rmult_assoc, Rinv_l by lra. lra.
Qed.

Lemma C5_interpolation_boundary_values_witness :
  (forall t, t <= 0 ->
     NTSC._interpolate_position eastbound t = Ok (NTSC.start_pos eastbound)) /\
  (forall t, 60 <= t ->
     NTSC._interpolate_position eastbound t =
     Ok {| longitude := 113.32 + 1 * (113.33 - 113.32);
           latitude := 23.12 + 1 * (23.12 - 23.12);
           height := 120 + 1 * (150 - 120) |}).
Proof.
  apply (C5_interpolation_boundary_values eastbound). simpl. lra.
Defined.

(** C5 refuted, over binary64: on a ten-second climb from 20.4 m to 100.2 m
    the position at [end_time] has the height [20.4 + 1.0 * (100.2 - 20.4)],
    which is 100.20000000000002: it is not [end_pos]. *)
Lemma C5_end_position_is_rounded :
  PrimFloat.ltb (Float64.start_time climb) (Float64.end_time climb) = true /\
  Float64._interpolate_position climb (Float64.end_time climb) =
    Ok (Float64.mkPosition 113.33%float 23.12%float 100.20000000000002%float) /\
  Float64._interpolate_position climb (Float64.end_time climb) <>
    Ok (Float64.end_pos climb).
Proof.
  split; [reflexivity |]. split; [vm_compute; reflexivity |].
  intros H.
  apply (f_equal (fun r => match r with
                           | Ok p => PrimFloat.eqb (Float64.height p)
                                                   100.2%float
                           | Raise _ => false
                           end)) in H.
  vm_compute in H. discriminate.
Qed.

(** A point between two others, coordinate by coordinate, when the second
    is written as the interpolator computes it at ratio 1. *)
Lemma between_end_values (a b r : R) :
  0 <= r <= 1 ->
  Rmin a (a + 1 * (b - a)) <= a + r * (b - a) <= Rmax a (a + 1 * (b - a)).
Proof.
  intros Hr. unfold Rmin, Rmax. destruct (Rle_dec a (a + 1 * (b - a))); split; nra.
Qed.

(** C10, as the code has it: on a segment whose [end_time] differs from its
    [start_time], at every time, the interpolator returns the position at a
    ratio [r] of [[0, 1]], and each of its coordinates lies between the
    start coordinate and the coordinate that the interpolator returns at
    ratio 1, [start + 1 * (end - start)].  (That coordinate is the end
    coordinate up to rounding, and may lie beyond it.) *)
Theorem C10_interpolation_within_end_values (segment : NTSC.FlightSegment) (t : R) :
  NTSC.end_time segment <> NTSC.start_time segment ->
  exists r p,
    0 <= r <= 1 /\
    NTSC._interpolate_position segment t = Ok p /\
    p = position_at_ratio segment r /\
    Rmin (longitude (NTSC.start_pos segment))
         (longitude (position_at_ratio segment 1))
      <= longitude p <=
    Rmax (longitude (NTSC.start_pos segment))
         (longitude (position_at_ratio segment 1)) /\
    Rmin (latitude (NTSC.start_pos segment))
         (latitude (position_at_ratio segment 1))
      <= latitude p <=
    Rmax (latitude (NTSC.start_pos segment))
         (latitude (position_at_ratio segment 1)) /\
    Rmin (height (NTSC.start_pos segment))
         (height (position_at_ratio segment 1))
      <= height p <=
    Rmax (height (NTSC.start_pos segment))
         (height (position_at_ratio segment 1)).
Proof.
  intros Hne. exists (ratio_at segment t), (position_at segment t).
  pose proof (ratio_at_bounds segment t) as Hr.
  split; [exact Hr |]. split; [apply interpolate_value; assumption |].
  split; [reflexivity |].
  unfold position_at, position_at_ratio. cbn [longitude latitude height].
  repeat split; apply between_end_values; assumption.
Qed.

Lemma C10_interpolation_within_end_values_witness :
  exists r p,
    0 <= r <= 1 /\
    NTSC._interpolate_position eastbound 45 = Ok p /\
    p = position_at_ratio eastbound r /\
    120 <= height p <= 120 + 1 * (150 - 120).
Proof.
  destruct (C10_interpolation_within_end_values eastbound 45)
    as (r & p & Hr & Hp & Hpr & _ & _ & Hh).
  - simpl. lra.
  - exists r, p. split; [exact Hr |]. split; [exact Hp |]. split; [exact Hpr |].
    cbn [position_at_ratio eastbound NTSC.start_pos NTSC.end_pos vertiport
         height] in Hh.
    unfold Rmin, Rmax in Hh.
    destruct (Rle_dec 120 (120 + 1 * (150 - 120))); lra.
Defined.

(** C10 refuted, over binary64: on a ten-second climb from 16.4 m to 80.7 m
    the height returned two seconds after [end_time] is
    [16.4 + 1.0 * (80.7 - 16.4)], which is 80.70000000000002: above the
    heights of both endpoints. *)
Lemma C10_height_above_both_endpoints :
  Float64._interpolate_position ascent 12%float =
    Ok (Float64.mkPosition 113.32%float 23.12%float 80.70000000000002%float) /\
  PrimFloat.ltb (Float64.height (Float64.start_pos ascent))
                80.70000000000002%float = true /\
  PrimFloat.ltb (Float64.height (Float64.end_pos ascent))
                80.70000000000002%float = true.
Proof.
  split; [vm_compute; reflexivity |]. split; reflexivity.
Qed.

(** C2, as the code has it: on a segment whose [end_time] equals its
    [start_time] the interpolator raises [ZeroDivisionError] at every query
    time, and [calculate_ntsc] never asks it to: a pair with such a segment,
    on either side, is passed over without a sample. *)
Theorem C2_degenerate_segment (segment other : NTSC.FlightSegment) (t ct : R)
    (ds : list NTSC.ConflictDetail) :
  NTSC.end_time segment = NTSC.start_time segment ->
  NTSC._interpolate_position segment t = Raise ZeroDivisionError /\
  NTSC.check_pair segment other ct ds = Ok (ct, ds) /\
  NTSC.check_pair other segment ct ds = Ok (ct, ds).
Proof.
  intros Hdeg. split; [apply interpolate_degenerate; assumption |].
  split; unfold NTSC.check_pair;
    destruct (String.eqb _ _); try reflexivity; cbv zeta;
    destruct (Rlt_dec _ _) as [Hov | Hov]; try reflexivity;
    apply overlap_proper in Hov; lra.
Qed.

Lemma C2_degenerate_segment_witness :
  NTSC._interpolate_position instant 7 = Raise ZeroDivisionError /\
  NTSC.check_pair instant eastbound 0 [] = Ok (0, []) /\
  NTSC.check_pair eastbound instant 0 [] = Ok (0, []).
Proof.
  apply (C2_degenerate_segment instant eastbound 7 0 []). reflexivity.
Defined.

(** C2 refuted: the segment [instant] has [end_time = start_time], and the
    interpolator does not return its start position: it raises. *)
Lemma C2_degenerate_segment_raises :
  NTSC.end_time instant = NTSC.start_time instant /\
  NTSC._interpolate_position instant 5 <> Ok (NTSC.start_pos instant) /\
  NTSC._interpolate_position instant 5 = Raise ZeroDivisionError.
Proof.
  split; [reflexivity |].
  assert (H : NTSC._interpolate_position instant 5 = Raise ZeroDivisionError)
    by (apply interpolate_degenerate; reflexivity).
  rewrite H. split; [discriminate | reflexivity].
Qed.

(** ** Severity *)

Ltac ltb_cases :=
  repeat match goal with
         | |- context [ltb ?x ?y] =>
             let H := fresh "Hcmp" in
             destruct (ltb x y) eqn:H;
             [apply ltb_lt in H | apply ltb_ge in H]
         end.

(** C7: the severity classifier is monotonic.  When neither the distance
    nor the time difference grows, the severity tier does not drop, in the
    order LOW < MEDIUM < HIGH < CRITICAL. *)
Theorem C7_severity_monotonic (distance time_diff distance' time_diff' : R) :
  distance' <= distance -> time_diff' <= time_diff ->
  (severity_rank (Analyzer._calculate_conflict_severity distance time_diff) <=
   severity_rank (Analyzer._calculate_conflict_severity distance' time_diff'))%nat.
Proof.
  intros Hd Ht. unfold Analyzer._calculate_conflict_severity.
  ltb_cases; simpl; try lia; exfalso; lra.
Qed.

Lemma C7_severity_monotonic_witness :
  (severity_rank (Analyzer._calculate_conflict_severity 35 40) <=
   severity_rank (Analyzer._calculate_conflict_severity 25 20))%nat.
Proof.
  apply C7_severity_monotonic; lra.
Defined.

(** ** The route analyzer *)

Section AnalyzerLoops.

Import Analyzer.

Variables route_i route_j : Route.

Lemma check_points_total (k1 : nat) (point1 : Waypoint) (k2 : nat)
    (point2 : Waypoint) (cs : list Conflict) :
  exists cs', check_points route_i route_j k1 point1 k2 point2 cs = Ok cs'.
Proof.
  unfold check_points. cbv zeta.
  destruct (ltb _ 60); [| eexists; reflexivity].
  rewrite haversine_unfold. cbn [bind].
  rewrite math_sqrt_nonneg.
  2:{ apply Rplus_le_le_0_compat; apply pow2_ge_0. }
  cbn [bind]. destruct (ltb _ _); eexists; reflexivity.
Qed.

Lemma loop_k2_total (k1 : nat) (point1 : Waypoint) (route2 : list Waypoint) :
  forall k2 cs,
  exists cs', loop_k2 route_i route_j k1 point1 k2 route2 cs = Ok cs'.
Proof.
  induction route2 as [| point2 rest IH]; intros k2 cs; simpl.
  - eexists. reflexivity.
  - destruct (check_points_total k1 point1 k2 point2 cs) as (cs1 & H1).
    rewrite H1. cbn [bind]. apply IH.
Qed.

Lemma loop_k1_total (route1 : list Waypoint) :
  forall k1 cs,
  exists cs', loop_k1 route_i route_j k1 route1 cs = Ok cs'.
Proof.
  induction route1 as [| point1 rest IH]; intros k1 cs; simpl.
  - eexists. reflexivity.
  - destruct (loop_k2_total k1 point1 (path route_j) 0%nat cs) as (cs1 & H1).
    rewrite H1. cbn [bind]. apply IH.
Qed.

End AnalyzerLoops.

Lemma loop_j_total (route_i : Analyzer.Route) (rest : list Analyzer.Route) :
  forall cs, exists cs', Analyzer.loop_j route_i rest cs = Ok cs'.
Proof.
  induction rest as [| route_j rest IH]; intros cs; simpl.
  - eexists. reflexivity.
  - destruct (loop_k1_total route_i route_j (Analyzer.path route_i) 0%nat cs)
      as (cs1 & H1).
    rewrite H1. cbn [bind]. apply IH.
Qed.

Lemma loop_i_total (routes : list Analyzer.Route) :
  forall cs, exists cs', Analyzer.loop_i routes cs = Ok cs'.
Proof.
  induction routes as [| route_i rest IH]; intros cs; simpl.
  - eexists. reflexivity.
  - destruct (loop_j_total route_i rest cs) as (cs1 & H1).
    rewrite H1. cbn [bind]. apply IH.
Qed.

(** [analyze_route_conflicts] returns a report for every list of routes. *)
Lemma analyze_route_conflicts_spec (routes : list Analyzer.Route) :
  exists cs,
    Analyzer.loop_i routes [] = Ok cs /\
    Analyzer.analyze_route_conflicts routes =
    Ok {| Analyzer.total_conflicts := List.length cs;
          Analyzer.conflicts := cs;
          Analyzer.risk_assessment := Analyzer._assess_overall_risk cs |}.
Proof.
  destruct (loop_i_total routes []) as (cs & Hcs).
  exists cs. split; [assumption |].
  unfold Analyzer.analyze_route_conflicts. rewrite Hcs. reflexivity.
Qed.

(** Inside the 60 s window a conflict is recorded exactly when the 3-D
    distance is strictly below [SAFETY_SEPARATION]. *)
Lemma check_points_strict (route_i route_j : Analyzer.Route) (k1 k2 : nat)
    (point1 point2 : Analyzer.Waypoint) (cs : list Analyzer.Conflict) (hd : R) :
  Rabs (Analyzer.wp_time point1 - Analyzer.wp_time point2) < 60 ->
  _haversine_distance (Analyzer.wp_latitude point1) (Analyzer.wp_longitude point1)
                      (Analyzer.wp_latitude point2) (Analyzer.wp_longitude point2)
    = Ok hd ->
  let total_distance :=
    sqrt (hd ^ 2 +
          Rabs (Analyzer.wp_height point1 - Analyzer.wp_height point2) ^ 2) in
  exists cs',
    Analyzer.check_points route_i route_j k1 point1 k2 point2 cs = Ok cs' /\
    (total_distance < Analyzer.SAFETY_SEPARATION ->
       List.length cs' = S (List.length cs)) /\
    (Analyzer.SAFETY_SEPARATION <= total_distance -> cs' = cs).
Proof.
  intros Ht Hd total_distance. unfold Analyzer.check_points. cbv zeta.
  apply ltb_lt in Ht. rewrite Ht, Hd. cbn [bind].
  rewrite math_sqrt_nonneg.
  2:{ apply Rplus_le_le_0_compat; apply pow2_ge_0. }
  cbn [bind]. fold total_distance.
  destruct (ltb total_distance Analyzer.SAFETY_SEPARATION) eqn:Hc.
  - apply ltb_lt in Hc. eexists. split; [reflexivity |]. split.
    + intros _. rewrite length_app. simpl. lia.
    + intros Hge. lra.
  - apply ltb_ge in Hc. eexists. split; [reflexivity |]. split.
    + intros Hlt. lra.
    + reflexivity.
Qed.

(** ** The separation tests *)

Lemma in_conflict_iff (hd vd : R) :
  NTSC.in_conflict hd vd = true <->
  hd < NTSC.HORIZONTAL_SEPARATION /\ vd < NTSC.VERTICAL_SEPARATION.
Proof.
  unfold NTSC.in_conflict. rewrite andb_true_iff, !ltb_lt. reflexivity.
Qed.

Section SampleBySample.

Import NTSC.

Variables seg1 seg2 : FlightSegment.
Hypothesis seg1_proper : end_time seg1 <> start_time seg1.
Hypothesis seg2_proper : end_time seg2 <> start_time seg2.

(** One pass through the loop: the sample counts when the test holds of the
    two distances at that time. *)
Lemma sample_value (t cd : R) (md : ext) :
  sample seg1 seg2 t cd md =
  Ok (if counted seg1 seg2 t then cd + time_step else cd,
      min_ext md (distance_at seg1 seg2 t)).
Proof.
  unfold sample. rewrite !interpolate_value by assumption. cbn [bind].
  rewrite haversine_unfold. cbn [bind].
  rewrite math_sqrt_nonneg.
  2:{ apply Rplus_le_le_0_compat; apply pow2_ge_0. }
  reflexivity.
Qed.

Lemma sample_times_step (overlap_end t : R) :
  t <= overlap_end ->
  sample_times overlap_end t = t :: sample_times overlap_end (t + time_step).
Proof.
  intros Hle. rewrite sample_times_equation_1.
  destruct (Rle_dec t overlap_end); [reflexivity | contradiction].
Qed.

Lemma sample_times_exit (overlap_end t : R) :
  overlap_end < t -> sample_times overlap_end t = [].
Proof.
  intros Hlt. rewrite sample_times_equation_1.
  destruct (Rle_dec t overlap_end); [lra | reflexivity].
Qed.

(** From a whole second on, the sample times are the whole seconds up to
    the end of the window. *)
Lemma sample_times_whole (overlap_end : R) (n : nat) :
  forall z : Z,
    IZR z + INR n <= overlap_end < IZR z + INR n + 1 ->
    sample_times overlap_end (IZR z) = whole_seconds z (S n).
Proof.
  induction n as [| n IH]; intros z [Hlo Hhi].
  - simpl in Hlo, Hhi. rewrite sample_times_step by lra.
    rewrite sample_times_exit by (unfold time_step; lra). reflexivity.
  - rewrite S_INR in Hlo, Hhi. pose proof (pos_INR n).
    rewrite sample_times_step by lra.
    unfold time_step. rewrite <- (plus_IZR z 1).
    rewrite IH by (rewrite plus_IZR; lra). reflexivity.
Qed.

(** The loop, sample by sample: it adds one [time_step] for each sample
    time at which the test holds, and keeps the least 3-D distance. *)
Lemma sample_loop_value (overlap_end t cd : R) (md : ext) :
  sample_loop seg1 seg2 overlap_end t cd md =
  Ok (cd + INR (count_conflicts seg1 seg2 (sample_times overlap_end t)),
      least_distance seg1 seg2 (sample_times overlap_end t) md).
Proof.
  funelim (sample_loop seg1 seg2 overlap_end t cd md).
  - rewrite sample_times_exit by lra. simpl. rewrite Rplus_0_r. reflexivity.
  - rewrite sample_value in Heq.
    rewrite sample_times_step by assumption.
    unfold count_conflicts, least_distance in *. cbn [filter fold_left].
    rewrite H. injection Heq as <- <-.
    destruct (counted seg1 seg2 t); cbn [List.length];
      [rewrite S_INR; unfold time_step |]; do 2 f_equal; ring.
  - rewrite sample_value in Heq. discriminate.
Qed.

End SampleBySample.

(** [_calculate_conflict_duration], sample by sample. *)
Lemma conflict_duration_value (seg1 seg2 : NTSC.FlightSegment)
    (overlap_start overlap_end : R) :
  NTSC.end_time seg1 <> NTSC.start_time seg1 ->
  NTSC.end_time seg2 <> NTSC.start_time seg2 ->
  NTSC._calculate_conflict_duration seg1 seg2 overlap_start overlap_end =
  Ok (INR (count_conflicts seg1 seg2 (sample_times overlap_end overlap_start)),
      least_distance seg1 seg2 (sample_times overlap_end overlap_start) Inf).
Proof.
  intros H1 H2. unfold NTSC._calculate_conflict_duration.
  rewrite (sample_loop_value seg1 seg2 H1 H2), Rplus_0_l. reflexivity.
Qed.

Lemma sqrt_ge_50 (x : R) : 2500 <= x -> 50 <= sqrt x.
Proof.
  intros Hx. rewrite <- (sqrt_pow2 50) at 1 by lra.
  apply sqrt_le_1_alt. lra.
Qed.

(** The report on two routes of one point each, less than 60 s apart: one
    conflict when the 3-D distance is below [SAFETY_SEPARATION], none
    otherwise. *)
Lemma one_point_routes_report (p1 p2 : Analyzer.Waypoint) :
  time_gap p1 p2 < 60 ->
  exists report,
    Analyzer.analyze_route_conflicts (one_point_routes p1 p2) = Ok report /\
    (dist3d p1 p2 < Analyzer.SAFETY_SEPARATION ->
       Analyzer.total_conflicts report = 1%nat) /\
    (Analyzer.SAFETY_SEPARATION <= dist3d p1 p2 ->
       Analyzer.total_conflicts report = 0%nat /\
       Analyzer.conflicts report = []).
Proof.
  intros Ht.
  destruct (check_points_strict
              {| Analyzer.name := "first"; Analyzer.path := [p1] |}
              {| Analyzer.name := "second"; Analyzer.path := [p2] |}
              0 0 p1 p2 []
              (haversine_m (Analyzer.wp_latitude p1) (Analyzer.wp_longitude p1)
                           (Analyzer.wp_latitude p2) (Analyzer.wp_longitude p2))
              Ht (haversine_unfold _ _ _ _))
    as (cs & Hcs & Hlt & Hge).
  unfold Analyzer.analyze_route_conflicts, one_point_routes.
  cbn [Analyzer.loop_i Analyzer.loop_j Analyzer.loop_k1 Analyzer.loop_k2
       Analyzer.path].
  rewrite Hcs. cbn [bind].
  eexists. split; [reflexivity |].
  cbn [Analyzer.total_conflicts Analyzer.conflicts]. split.
  - intros Hd. rewrite (Hlt Hd). reflexivity.
  - intros Hd. rewrite (Hge Hd). split; reflexivity.
Qed.

(** A window of one instant holds one sample. *)
Lemma conflict_duration_instant (seg1 seg2 : NTSC.FlightSegment) (t : R) :
  NTSC.end_time seg1 <> NTSC.start_time seg1 ->
  NTSC.end_time seg2 <> NTSC.start_time seg2 ->
  NTSC._calculate_conflict_duration seg1 seg2 t t =
  Ok (if counted seg1 seg2 t then 0 + NTSC.time_step else 0,
      Fin (distance_at seg1 seg2 t)).
Proof.
  intros H1 H2. rewrite conflict_duration_value by assumption.
  rewrite sample_times_step by lra.
  rewrite sample_times_exit by (unfold NTSC.time_step; lra).
  unfold count_conflicts, least_distance. cbn [filter fold_left min_ext].
  destruct (counted seg1 seg2 t); cbn [List.length]; unfold NTSC.time_step;
    do 2 f_equal; simpl; ring.
Qed.

(** C4, as the code has it.  In [_calculate_conflict_duration] the test of a
    sample is strict in both components.  A window of the one instant [t]
    gives one [time_step] when, at [t], the horizontal distance is below
    [HORIZONTAL_SEPARATION] and the vertical distance below
    [VERTICAL_SEPARATION], and 0 otherwise; a window from a whole second [z]
    to a time in [[z + n, z + n + 1)] gives the number of the seconds [z],
    ..., [z + n] at which that test holds; a sample at exactly both
    thresholds is not counted, and a sample [eps] below both is, for any
    [eps > 0].  [analyze_route_conflicts] has no threshold for either
    component: for two points less than 60 s apart it tests the 3-D distance
    against [SAFETY_SEPARATION], strictly.  It does not record a pair at
    exactly the two thresholds of the sampling loop, and does not record a
    pair [eps] below both either, as long as [eps] is at most 6. *)
Theorem C4_strict_separation_tests (eps : R) :
  0 < eps ->
  (forall seg1 seg2 t,
      NTSC.end_time seg1 <> NTSC.start_time seg1 ->
      NTSC.end_time seg2 <> NTSC.start_time seg2 ->
      NTSC._calculate_conflict_duration seg1 seg2 t t =
      Ok (if counted seg1 seg2 t then 0 + NTSC.time_step else 0,
          Fin (distance_at seg1 seg2 t))) /\
  (forall seg1 seg2 (z : Z) (n : nat) overlap_end,
      NTSC.end_time seg1 <> NTSC.start_time seg1 ->
      NTSC.end_time seg2 <> NTSC.start_time seg2 ->
      (Z.abs z + Z.of_nat n < 2 ^ 53)%Z ->
      IZR z + INR n <= overlap_end < IZR z + INR n + 1 ->
      exists md,
        NTSC._calculate_conflict_duration seg1 seg2 (IZR z) overlap_end =
        Ok (INR (count_conflicts seg1 seg2 (whole_seconds z (S n))), md)) /\
  (forall seg1 seg2 t,
      (counted seg1 seg2 t = true <->
       horizontal_at seg1 seg2 t < NTSC.HORIZONTAL_SEPARATION /\
       vertical_at seg1 seg2 t < NTSC.VERTICAL_SEPARATION) /\
      (horizontal_at seg1 seg2 t = NTSC.HORIZONTAL_SEPARATION ->
       vertical_at seg1 seg2 t = NTSC.VERTICAL_SEPARATION ->
       counted seg1 seg2 t = false) /\
      (horizontal_at seg1 seg2 t = NTSC.HORIZONTAL_SEPARATION - eps ->
       vertical_at seg1 seg2 t = NTSC.VERTICAL_SEPARATION - eps ->
       counted seg1 seg2 t = true)) /\
  (forall p1 p2,
      time_gap p1 p2 < 60 ->
      exists report,
        Analyzer.analyze_route_conflicts (one_point_routes p1 p2) = Ok report /\
        (sqrt (ground_distance p1 p2 ^ 2 + height_gap p1 p2 ^ 2) <
           Analyzer.SAFETY_SEPARATION ->
         Analyzer.total_conflicts report = 1%nat) /\
        (Analyzer.SAFETY_SEPARATION <=
           sqrt (ground_distance p1 p2 ^ 2 + height_gap p1 p2 ^ 2) ->
         Analyzer.total_conflicts report = 0%nat) /\
        (ground_distance p1 p2 = NTSC.HORIZONTAL_SEPARATION ->
         height_gap p1 p2 = NTSC.VERTICAL_SEPARATION ->
         Analyzer.total_conflicts report = 0%nat) /\
        (eps <= 6 ->
         ground_distance p1 p2 = NTSC.HORIZONTAL_SEPARATION - eps ->
         height_gap p1 p2 = NTSC.VERTICAL_SEPARATION - eps ->
         Analyzer.total_conflicts report = 0%nat)).
Proof.
  intros Heps. split; [| split; [| split]].
  - intros seg1 seg2 t H1 H2. apply conflict_duration_instant; assumption.
  - intros seg1 seg2 z n oe H1 H2 _ Hw. eexists.
    rewrite conflict_duration_value by assumption.
    rewrite (sample_times_whole oe n z Hw). reflexivity.
  - intros seg1 seg2 t. unfold counted. split; [apply in_conflict_iff |].
    split.
    + intros -> ->. unfold NTSC.in_conflict. apply andb_false_iff. left.
      apply ltb_ge. lra.
    + intros -> ->. apply in_conflict_iff. lra.
  - intros p1 p2 Ht.
    destruct (one_point_routes_report p1 p2 Ht) as (report & Hr & Hlt & Hge).
    exists report. split; [exact Hr |].
    change (sqrt (ground_distance p1 p2 ^ 2 + height_gap p1 p2 ^ 2))
      with (dist3d p1 p2).
    split; [exact Hlt |]. split; [intros Hd; apply Hge; exact Hd |].
    unfold NTSC.HORIZONTAL_SEPARATION, NTSC.VERTICAL_SEPARATION,
      Analyzer.SAFETY_SEPARATION in *.
    split.
    + intros Hg Hh. apply Hge.
      change (dist3d p1 p2)
        with (sqrt (ground_distance p1 p2 ^ 2 + height_gap p1 p2 ^ 2)).
      rewrite Hg, Hh. apply sqrt_ge_50. lra.
    + intros Hle Hg Hh. apply Hge.
      change (dist3d p1 p2)
        with (sqrt (ground_distance p1 p2 ^ 2 + height_gap p1 p2 ^ 2)).
      rewrite Hg, Hh. apply sqrt_ge_50. nra.
Qed.

Lemma C4_strict_separation_tests_witness :
  counted (hover "A" 0 1 vertiport) (hover "B" 0 1 vertiport) 0 = true /\
  exists report,
    Analyzer.analyze_route_conflicts (one_point_routes lower_point lower_point)
      = Ok report /\
    Analyzer.total_conflicts report = 1%nat.
Proof.
  destruct (C4_strict_separation_tests 1 Rlt_0_1) as (_ & _ & Htest & Hroutes).
  split.
  - apply (proj1 (Htest _ _ 0)).
    unfold horizontal_at, vertical_at. rewrite !position_at_hover.
    rewrite haversine_m_same, Rminus_diag, Rabs_R0.
    unfold NTSC.HORIZONTAL_SEPARATION, NTSC.VERTICAL_SEPARATION. lra.
  - destruct (Hroutes lower_point lower_point) as (report & Hr & Hlt & _).
    + unfold time_gap. rewrite Rminus_diag, Rabs_R0. lra.
    + exists report. split; [exact Hr |]. apply Hlt.
      unfold ground_distance, height_gap.
      rewrite haversine_m_same, Rminus_diag, Rabs_R0.
      replace (0 ^ 2 + 0 ^ 2) with 0 by ring. rewrite sqrt_0.
      unfold Analyzer.SAFETY_SEPARATION. lra.
Defined.

(** C4 refuted for [analyze_route_conflicts]: two route points at the same
    time, 0.0004 degrees of latitude apart, which is between 44 m and 46 m
    on the ground, and 29 m apart in height, are strictly below both
    thresholds, and the sampling loop of [calculate_ntsc] would count them;
    their 3-D distance is above 50 m, and the report records no conflict. *)
Lemma C4_below_both_thresholds_not_recorded :
  44 < ground_distance lower_point upper_point < 46 /\
  ground_distance lower_point upper_point < NTSC.HORIZONTAL_SEPARATION /\
  height_gap lower_point upper_point = 29 /\
  height_gap lower_point upper_point < NTSC.VERTICAL_SEPARATION /\
  NTSC.in_conflict (ground_distance lower_point upper_point)
                   (height_gap lower_point upper_point) = true /\
  exists report,
    Analyzer.analyze_route_conflicts (one_point_routes lower_point upper_point)
      = Ok report /\
    Analyzer.total_conflicts report = 0%nat /\
    Analyzer.conflicts report = [].
Proof.
  assert (Hg : 44 < ground_distance lower_point upper_point < 46).
  { unfold ground_distance, lower_point, upper_point.
    cbn [Analyzer.wp_latitude Analyzer.wp_longitude].
    rewrite haversine_m_meridian by lra.
    unfold math_radians. pose proof PI_bounds. lra. }
  assert (Hh : height_gap lower_point upper_point = 29).
  { unfold height_gap, lower_point, upper_point. cbn [Analyzer.wp_height].
    rewrite Rabs_minus_sym. replace (129 - 100) with 29 by ring.
    apply Rabs_pos_eq. lra. }
  unfold NTSC.HORIZONTAL_SEPARATION, NTSC.VERTICAL_SEPARATION.
  split; [exact Hg |]. split; [lra |]. split; [exact Hh |]. split; [lra |].
  split.
  - apply in_conflict_iff.
    unfold NTSC.HORIZONTAL_SEPARATION, NTSC.VERTICAL_SEPARATION. lra.
  - destruct (one_point_routes_report lower_point upper_point)
      as (report & Hr & _ & Hge).
    + unfold time_gap, lower_point, upper_point. cbn [Analyzer.wp_time].
      rewrite Rminus_diag, Rabs_R0. lra.
    + exists report. split; [exact Hr |]. apply Hge.
      change (dist3d lower_point upper_point)
        with (sqrt (ground_distance lower_point upper_point ^ 2 +
                    height_gap lower_point upper_point ^ 2)).
      unfold Analyzer.SAFETY_SEPARATION. apply sqrt_ge_50. rewrite Hh. nra.
Qed.

(** C9: for every list of routes [analyze_route_conflicts] returns a report,
    and its [total_conflicts] is the number of entries of its [conflicts]. *)
Theorem C9_total_conflicts_is_length (routes : list Analyzer.Route) :
  exists report,
    Analyzer.analyze_route_conflicts routes = Ok report /\
    Analyzer.total_conflicts report = List.length (Analyzer.conflicts report).
Proof.
  destruct (analyze_route_conflicts_spec routes) as (cs & _ & Hr).
  eexists. split; [exact Hr | reflexivity].
Qed.

(** ** Route capacity *)

Lemma route_length_loop_total (route : list Position) :
  forall acc, exists len,
    Capacity.route_length_loop route acc = Ok len /\ acc <= len.
Proof.
  induction route as [| p1 rest IH]; intros acc.
  - exists acc. split; [reflexivity | lra].
  - destruct rest as [| p2 rest'].
    + exists acc. split; [reflexivity | lra].
    + destruct (haversine_total (latitude p1) (longitude p1)
                                (latitude p2) (longitude p2)) as (d & Hd & Hpos).
      destruct (IH (acc + d)) as (len & Hlen & Hle).
      exists len. split; [| lra].
      change (Capacity.route_length_loop (p1 :: p2 :: rest') acc)
        with (bind (_haversine_distance (latitude p1) (longitude p1)
                                        (latitude p2) (longitude p2))
                   (fun distance =>
                      Capacity.route_length_loop (p2 :: rest') (acc + distance))).
      rewrite Hd. exact Hlen.
Qed.

(** [calculate_route_capacity] returns its metrics for every route; the
    throughput is 0 unless the travel time is positive. *)
Lemma calculate_route_capacity_spec (route : list Position) (route_width : R) :
  exists len m,
    Capacity._calculate_route_length route = Ok len /\
    0 <= len /\
    Capacity.calculate_route_capacity route route_width = Ok m /\
    (Capacity.travel_time len <= 0 -> Capacity.throughput_per_hour m = 0%Z).
Proof.
  destruct (route_length_loop_total route 0) as (len & Hlen & Hpos).
  unfold Capacity.calculate_route_capacity, Capacity._calculate_route_length.
  rewrite Hlen. cbn [bind]. cbv zeta.
  exists len.
  destruct (Rlt_dec 0 len) as [Hl | Hl].
  - destruct (Rlt_dec 0 (Capacity.travel_time len)) as [Ht | Ht].
    + rewrite div_nonzero by lra. cbn [bind].
      eexists. repeat split; [assumption |]. intros Hle. lra.
    + cbn [bind]. eexists. repeat split; assumption.
  - cbn [bind]. eexists. repeat split; assumption.
Qed.

(** C8: the two quotients that could divide by zero resolve to 0.
    [calculate_ntsc] returns [ntsc_value = 0] when the total flight time is
    0, and [calculate_route_capacity] returns [throughput_per_hour = 0] when
    the travel time is 0; both return a result on every input. *)
Theorem C8_division_by_zero_resolves_to_zero
    (segs : list NTSC.FlightSegment) (route : list Position) (route_width : R) :
  (exists r,
      NTSC.calculate_ntsc segs = Ok r /\
      (NTSC.total_flight_time r = 0 -> NTSC.ntsc_value r = 0)) /\
  (exists len m,
      Capacity._calculate_route_length route = Ok len /\
      Capacity.calculate_route_capacity route route_width = Ok m /\
      (Capacity.travel_time len = 0 -> Capacity.throughput_per_hour m = 0%Z)).
Proof.
  split.
  - destruct (calculate_ntsc_spec segs) as (ct & ds & _ & Hr).
    eexists. split; [exact Hr |]. cbv zeta. simpl. intros Hz.
    destruct (Rlt_dec 0 (NTSC.sum_flight_time segs)); [lra | reflexivity].
  - destruct (calculate_route_capacity_spec route route_width)
      as (len & m & Hlen & _ & Hm & Hz).
    exists len, m. repeat split; try assumption.
    intros H0. apply Hz. lra.
Qed.

Lemma C8_division_by_zero_resolves_to_zero_witness :
  (exists r, NTSC.calculate_ntsc [instant] = Ok r /\ NTSC.ntsc_value r = 0) /\
  (exists m,
      Capacity.calculate_route_capacity [vertiport; vertiport] 100 = Ok m /\
      Capacity.throughput_per_hour m = 0%Z).
Proof.
  destruct (C8_division_by_zero_resolves_to_zero
              [instant] [vertiport; vertiport] 100)
    as ((r & Hr & Hntsc) & (len & m & Hlen & Hm & Hthr)).
  split.
  - exists r. split; [exact Hr |]. apply Hntsc.
    assert (Htot : NTSC.sum_flight_time [instant] = 0)
      by (unfold NTSC.sum_flight_time; simpl; ring).
    unfold NTSC.calculate_ntsc in Hr.
    cbn [NTSC.outer_loop NTSC.inner_loop bind] in Hr.
    rewrite Htot in Hr.
    destruct (Rlt_dec 0 0) as [H | _]; [lra |].
    cbn [bind] in Hr. injection Hr as <-. reflexivity.
  - exists m. split; [exact Hm |]. apply Hthr.
    unfold Capacity._calculate_route_length in Hlen.
    cbn [Capacity.route_length_loop] in Hlen.
    rewrite haversine_same in Hlen. cbn [bind Capacity.route_length_loop] in Hlen.
    injection Hlen as <-.
    unfold Capacity.travel_time, Capacity.avg_speed. field.
Defined.

(** ** Validation *)

(** C3 refuted: a latitude of 100 and a longitude of 200 degrees are out of
    range, and the distance is computed all the same; so is the NTSC of
    three aircraft hovering at such a point. *)
Lemma C3_out_of_range_is_computed :
  90 < latitude off_the_map /\ 180 < longitude off_the_map /\
  _haversine_distance (latitude off_the_map) (longitude off_the_map)
                      (latitude off_the_map) (longitude off_the_map) = Ok 0 /\
  (exists d, _haversine_distance (latitude off_the_map) (longitude off_the_map)
                                 (latitude vertiport) (longitude vertiport)
             = Ok d) /\
  (exists r, NTSC.calculate_ntsc (three_hovering off_the_map) = Ok r).
Proof.
  split; [simpl; lra |]. split; [simpl; lra |].
  split; [apply haversine_same |]. split.
  - destruct (haversine_total (latitude off_the_map) (longitude off_the_map)
                              (latitude vertiport) (longitude vertiport))
      as (d & Hd & _).
    exists d. exact Hd.
  - destruct (calculate_ntsc_three_hovering off_the_map) as (r & Hr & _).
    exists r. exact Hr.
Qed.

(** C3, as the code has it: nothing is validated.  [_haversine_distance]
    applies its formula to every latitude and longitude, in range or not:
    whenever the haversine term [a] that it computes lies in [[0, 1]] it
    returns [R * 2 * atan2(sqrt(a), sqrt(1 - a))], and a point is at
    distance 0 from itself wherever it lies; [calculate_ntsc] returns a
    result for aircraft that hover at any position, in range or not; and it
    checks nothing before its loops: it returns a result whenever its pair
    loops complete, with their conflict time and conflict details. *)
Theorem C3_no_range_validation :
  (forall lat1 lon1 lat2 lon2,
      0 <= haversine_a lat1 lon1 lat2 lon2 <= 1 ->
      _haversine_distance lat1 lon1 lat2 lon2 =
      Ok (6371000 *
          (2 * math_atan2 (sqrt (haversine_a lat1 lon1 lat2 lon2))
                          (sqrt (1 - haversine_a lat1 lon1 lat2 lon2))))) /\
  (forall lat lon, _haversine_distance lat lon lat lon = Ok 0) /\
  (forall p, exists r,
      NTSC.calculate_ntsc (three_hovering p) = Ok r /\
      NTSC.total_conflict_time r = 6) /\
  (forall segs conflict_time details,
      NTSC.outer_loop segs 0 [] = Ok (conflict_time, details) ->
      exists r,
        NTSC.calculate_ntsc segs = Ok r /\
        NTSC.total_conflict_time r = conflict_time /\
        NTSC.conflict_details r = details).
Proof.
  split; [| split; [| split]].
  - intros lat1 lon1 lat2 lon2 [H0 H1].
    unfold _haversine_distance. fold (haversine_a lat1 lon1 lat2 lon2).
    cbv zeta. rewrite math_sqrt_nonneg by assumption. cbn [bind].
    rewrite math_sqrt_nonneg by lra. reflexivity.
  - exact haversine_same.
  - intros p.
    destruct (calculate_ntsc_three_hovering p) as (r & Hr & _ & Hc & _).
    exists r. split; assumption.
  - intros segs ct ds Hloop. unfold NTSC.calculate_ntsc.
    rewrite Hloop. cbn [bind].
    destruct (Rlt_dec 0 (NTSC.sum_flight_time segs)) as [Hpos | Hpos].
    + rewrite div_nonzero by lra. cbn [bind].
      eexists. split; [reflexivity |]. split; reflexivity.
    + cbn [bind]. eexists. split; [reflexivity |]. split; reflexivity.
Qed.

(** * Further properties *)

(** ** Geodesy *)

Lemma haversine_value (lat1 lon1 lat2 lon2 : R) :
  _haversine_distance lat1 lon1 lat2 lon2 = Ok (haversine_m lat1 lon1 lat2 lon2).
Proof. apply haversine_unfold. Qed.

Lemma haversine_a_sym (lat1 lon1 lat2 lon2 : R) :
  haversine_a lat1 lon1 lat2 lon2 = haversine_a lat2 lon2 lat1 lon1.
Proof.
  unfold haversine_a, math_radians.
  replace ((lat1 - lat2) * (PI / 180) / 2)
    with (- ((lat2 - lat1) * (PI / 180) / 2)) by field.
  replace ((lon1 - lon2) * (PI / 180) / 2)
    with (- ((lon2 - lon1) * (PI / 180) / 2)) by field.
  rewrite !sin_neg. ring.
Qed.

Lemma haversine_m_sym (lat1 lon1 lat2 lon2 : R) :
  haversine_m lat1 lon1 lat2 lon2 = haversine_m lat2 lon2 lat1 lon1.
Proof.
  unfold haversine_m. rewrite (haversine_a_sym lat1 lon1 lat2 lon2). reflexivity.
Qed.

(** X1: the distance is symmetric: from A to B it is what it is from B to
    A, for every pair of points. *)
Theorem X1_haversine_symmetric (lat1 lon1 lat2 lon2 : R) :
  _haversine_distance lat1 lon1 lat2 lon2 =
  _haversine_distance lat2 lon2 lat1 lon1.
Proof.
  rewrite !haversine_value, haversine_m_sym. reflexivity.
Qed.

(** [atan2] of a point of the first quadrant is at most a right angle. *)
Lemma math_atan2_quadrant (y x : R) :
  0 <= y -> 0 <= x -> math_atan2 y x <= PI / 2.
Proof.
  intros Hy Hx. unfold math_atan2. pose proof PI_RGT_0.
  destruct (Rlt_dec 0 x).
  - pose proof (atan_bound (y / x)). lra.
  - destruct (Rlt_dec x 0); [lra |].
    destruct (Rlt_dec 0 y); [lra |].
    destruct (Rlt_dec y 0); lra.
Qed.

Lemma haversine_m_bounds (lat1 lon1 lat2 lon2 : R) :
  0 <= haversine_m lat1 lon1 lat2 lon2 <= 6371000 * PI.
Proof.
  unfold haversine_m.
  pose proof (math_atan2_nonneg _ (sqrt (1 - haversine_a lat1 lon1 lat2 lon2))
                (sqrt_pos (haversine_a lat1 lon1 lat2 lon2))).
  pose proof (math_atan2_quadrant _ _
                (sqrt_pos (haversine_a lat1 lon1 lat2 lon2))
                (sqrt_pos (1 - haversine_a lat1 lon1 lat2 lon2))).
  lra.
Qed.

(** X2: every distance that [_haversine_distance] returns lies between 0
    and half the circumference of the sphere, [PI] times 6,371,000 m,
    whatever the latitudes and longitudes. *)
Theorem X2_haversine_bounds (lat1 lon1 lat2 lon2 d : R) :
  _haversine_distance lat1 lon1 lat2 lon2 = Ok d ->
  0 <= d <= 6371000 * PI.
Proof.
  rewrite haversine_value. intros Hd.
  assert (Heq : d = haversine_m lat1 lon1 lat2 lon2) by congruence.
  rewrite Heq. apply haversine_m_bounds.
Qed.

Lemma X2_haversine_bounds_witness :
  _haversine_distance 23.12 113.32 23.12 113.32 = Ok 0 /\
  0 <= 0 <= 6371000 * PI.
Proof.
  split; [apply haversine_same |].
  apply (X2_haversine_bounds 23.12 113.32 23.12 113.32 0). apply haversine_same.
Defined.

(** X4: along a meridian and along the equator the distance is the radius
    times the angle between the two points, in radians, for every angle
    from 0 to 180 degrees. *)
Theorem X4_haversine_arc_length (lat lon delta : R) :
  0 <= delta <= 180 ->
  _haversine_distance lat lon (lat + delta) lon =
    Ok (6371000 * math_radians delta) /\
  _haversine_distance 0 lon 0 (lon + delta) =
    Ok (6371000 * math_radians delta).
Proof.
  intros [Hd0 Hd1]. pose proof PI_RGT_0 as HPI.
  assert (Hx : 0 <= math_radians delta / 2 <= PI / 2).
  { unfold math_radians. split; nra. }
  split; rewrite haversine_value; f_equal;
    rewrite (haversine_of_half_angle _ _ _ _ (math_radians delta / 2) Hx);
    try (f_equal; field).
  - unfold haversine_a.
    replace (lat + delta - lat) with delta by ring.
    replace (math_radians (lon - lon) / 2) with 0
      by (unfold math_radians; field).
    rewrite sin_0. ring.
  - unfold haversine_a.
    replace (lon + delta - lon) with delta by ring.
    replace (math_radians (0 - 0) / 2) with 0 by (unfold math_radians; field).
    replace (math_radians 0) with 0 by (unfold math_radians; field).
    rewrite sin_0, cos_0. ring.
Qed.

Lemma X4_haversine_arc_length_witness :
  _haversine_distance 23 113 (23 + 90) 113 = Ok (6371000 * math_radians 90) /\
  _haversine_distance 0 113 0 (113 + 90) = Ok (6371000 * math_radians 90).
Proof.
  apply (X4_haversine_arc_length 23 113 90). lra.
Defined.

(** ** The conflict duration of a pair *)

Section ConflictDuration.

Import NTSC.

Lemma min_ext_nonneg (md : ext) (x : R) :
  ext_nonneg md -> 0 <= x ->
  exists m, min_ext md x = Fin m /\ 0 <= m.
Proof.
  intros Hmd Hx. destruct md as [y |]; simpl in *.
  - eexists. split; [reflexivity |]. unfold Py.min. destruct (Rlt_dec x y); lra.
  - exists x. split; [reflexivity | assumption].
Qed.

Lemma distance_at_nonneg (seg1 seg2 : FlightSegment) (t : R) :
  0 <= distance_at seg1 seg2 t.
Proof. unfold distance_at. apply sqrt_pos. Qed.

(** Once it is finite, the running minimum stays finite and is never
    negative. *)
Lemma least_distance_finite (seg1 seg2 : FlightSegment) (times : list R) :
  forall m, 0 <= m ->
  exists m', least_distance seg1 seg2 times (Fin m) = Fin m' /\ 0 <= m'.
Proof.
  induction times as [| t rest IH]; intros m Hm.
  - exists m. split; [reflexivity | assumption].
  - destruct (min_ext_nonneg (Fin m) (distance_at seg1 seg2 t) Hm
                (distance_at_nonneg seg1 seg2 t)) as (m1 & Hm1 & Hpos).
    unfold least_distance in *. cbn [fold_left]. rewrite Hm1. apply IH.
    exact Hpos.
Qed.

Lemma count_conflicts_le (seg1 seg2 : FlightSegment) (times : list R) :
  (count_conflicts seg1 seg2 times <= List.length times)%nat.
Proof.
  unfold count_conflicts. induction times as [| t rest IH]; simpl; [lia |].
  destruct (counted seg1 seg2 t); simpl; lia.
Qed.

End ConflictDuration.

(** On a window that is not empty the duration is a whole number and the
    minimum distance is finite and not negative. *)
Lemma conflict_duration_shape (seg1 seg2 : NTSC.FlightSegment)
    (overlap_start overlap_end : R) :
  NTSC.end_time seg1 <> NTSC.start_time seg1 ->
  NTSC.end_time seg2 <> NTSC.start_time seg2 ->
  overlap_start <= overlap_end ->
  exists (k : nat) (m : R),
    NTSC._calculate_conflict_duration seg1 seg2 overlap_start overlap_end =
      Ok (INR k, Fin m) /\
    0 <= m.
Proof.
  intros H1 H2 Hle. rewrite conflict_duration_value by assumption.
  rewrite (sample_times_step _ _ Hle).
  unfold least_distance. cbn [fold_left min_ext].
  destruct (least_distance_finite seg1 seg2
              (sample_times overlap_end (overlap_start + NTSC.time_step))
              (distance_at seg1 seg2 overlap_start)
              (distance_at_nonneg _ _ _)) as (m & Hm & Hpos).
  unfold least_distance in Hm. rewrite Hm.
  eexists. exists m. split; [reflexivity | exact Hpos].
Qed.

(** X5: what [_calculate_conflict_duration] returns for two segments of
    non-zero duration over a window that starts at a whole second [z] and
    ends at a time in [[z + n, z + n + 1)], with the times below [2 ^ 53].
    The samples are taken at the seconds [z], ..., [z + n]; the duration is
    the number of these at which the horizontal distance is below
    [HORIZONTAL_SEPARATION] and the vertical distance below
    [VERTICAL_SEPARATION], at most [n + 1]; the minimum distance is the
    least of the 3-D distances at these seconds, finite and not negative.
    Over an empty window, whatever its ends, the duration is 0 and the
    minimum distance infinite. *)
Theorem X5_conflict_duration_counts_samples (seg1 seg2 : NTSC.FlightSegment)
    (z : Z) (n : nat) (overlap_end : R) :
  NTSC.end_time seg1 <> NTSC.start_time seg1 ->
  NTSC.end_time seg2 <> NTSC.start_time seg2 ->
  (Z.abs z + Z.of_nat n < 2 ^ 53)%Z ->
  IZR z + INR n <= overlap_end < IZR z + INR n + 1 ->
  NTSC._calculate_conflict_duration seg1 seg2 (IZR z) overlap_end =
    Ok (INR (count_conflicts seg1 seg2 (whole_seconds z (S n))),
        least_distance seg1 seg2 (whole_seconds z (S n)) Inf) /\
  (count_conflicts seg1 seg2 (whole_seconds z (S n)) <= S n)%nat /\
  (exists m,
      least_distance seg1 seg2 (whole_seconds z (S n)) Inf = Fin m /\ 0 <= m) /\
  (forall t t', t' < t ->
     NTSC._calculate_conflict_duration seg1 seg2 t t' = Ok (0, Inf)).
Proof.
  intros H1 H2 _ Hw.
  assert (Hv : NTSC._calculate_conflict_duration seg1 seg2 (IZR z) overlap_end =
               Ok (INR (count_conflicts seg1 seg2 (whole_seconds z (S n))),
                   least_distance seg1 seg2 (whole_seconds z (S n)) Inf)).
  { rewrite conflict_duration_value by assumption.
    rewrite (sample_times_whole overlap_end n z Hw). reflexivity. }
  split; [exact Hv |]. split; [| split].
  - eapply Nat.le_trans; [apply count_conflicts_le |].
    clear. revert z. induction n as [| n IH]; intros z; [simpl; lia |].
    specialize (IH (z + 1)%Z). cbn [whole_seconds List.length] in *. lia.
  - destruct (conflict_duration_shape seg1 seg2 (IZR z) overlap_end H1 H2)
      as (k & m & Hs & Hm).
    + pose proof (pos_INR n). lra.
    + rewrite Hv in Hs. exists m. split; [congruence | exact Hm].
  - intros t t' Hlt. rewrite conflict_duration_value by assumption.
    rewrite sample_times_exit by assumption. reflexivity.
Qed.

Lemma X5_conflict_duration_counts_samples_witness :
  NTSC._calculate_conflict_duration eastbound (hover "B" 0 90 vertiport)
    (IZR 0) 3.5 =
    Ok (INR (count_conflicts eastbound (hover "B" 0 90 vertiport)
               (whole_seconds 0 4)),
        least_distance eastbound (hover "B" 0 90 vertiport)
          (whole_seconds 0 4) Inf) /\
  (count_conflicts eastbound (hover "B" 0 90 vertiport) (whole_seconds 0 4)
   <= 4)%nat.
Proof.
  destruct (X5_conflict_duration_counts_samples
              eastbound (hover "B" 0 90 vertiport) 0 3 3.5)
    as (Hv & Hk & _).
  - simpl. lra.
  - simpl. lra.
  - reflexivity.
  - simpl. lra.
  - split; [exact Hv | exact Hk].
Defined.

Section HoveringPair.

Import NTSC.

Variables (a b : string) (t0 t1 u0 u1 : R) (p : Position).
Hypothesis a_flies : t1 <> t0.
Hypothesis b_flies : u1 <> u0.

(** Two aircraft hovering at one point: every sample from [t] to
    [overlap_end] is in conflict. *)
Lemma sample_loop_hover (overlap_end : R) (n : nat) :
  forall t cd md,
    md = Inf \/ md = Fin 0 ->
    t + INR n <= overlap_end < t + INR n + 1 ->
    sample_loop (hover a t0 t1 p) (hover b u0 u1 p) overlap_end t cd md =
    Ok (cd + INR (S n), Fin 0).
Proof.
  assert (Hmin : forall md, md = Inf \/ md = Fin 0 -> min_ext md 0 = Fin 0).
  { intros md [-> | ->]; simpl; [reflexivity |].
    unfold Py.min. destruct (Rlt_dec 0 0); reflexivity. }
  induction n as [| n IH]; intros t cd md Hmd [Hlo Hhi].
  - simpl in Hlo, Hhi.
    rewrite (sample_loop_step _ _ overlap_end t cd md (cd + time_step) (Fin 0));
      [| lra | rewrite sample_hover by assumption; rewrite Hmin by assumption;
               reflexivity].
    rewrite sample_loop_exit by (unfold time_step; lra).
    unfold time_step. simpl. reflexivity.
  - rewrite S_INR in Hlo, Hhi. pose proof (pos_INR n).
    rewrite (sample_loop_step _ _ overlap_end t cd md (cd + time_step) (Fin 0));
      [| lra | rewrite sample_hover by assumption; rewrite Hmin by assumption;
               reflexivity].
    rewrite IH; [| right; reflexivity | unfold time_step; lra].
    unfold time_step. rewrite !S_INR. do 2 f_equal. ring.
Qed.

End HoveringPair.

(** X6: both ends of the window are sampled.  For two aircraft that hover at
    the same point, and a window that starts at a whole second [z] and ends
    at or after [z + n] and before [z + n + 1], with [n] whole and the times
    below [2 ^ 53], where every whole number is a binary64 number, the
    conflict duration is [n + 1] seconds and the minimum distance 0. *)
Theorem X6_hovering_pair_counts_both_ends (a b : string) (t0 t1 u0 u1 : R)
    (p : Position) (z : Z) (n : nat) (overlap_end : R) :
  t1 <> t0 -> u1 <> u0 ->
  (Z.abs z + Z.of_nat n < 2 ^ 53)%Z ->
  IZR z + INR n <= overlap_end < IZR z + INR n + 1 ->
  NTSC._calculate_conflict_duration (hover a t0 t1 p) (hover b u0 u1 p)
    (IZR z) overlap_end =
  Ok (INR n + 1, Fin 0).
Proof.
  intros Ha Hb _ Hw. unfold NTSC._calculate_conflict_duration.
  rewrite (sample_loop_hover a b t0 t1 u0 u1 p Ha Hb _ n);
    [| left; reflexivity | exact Hw].
  rewrite S_INR. do 2 f_equal. ring.
Qed.

Lemma X6_hovering_pair_counts_both_ends_witness :
  NTSC._calculate_conflict_duration
    (hover "A" 0 10 vertiport) (hover "B" 0 10 vertiport) (IZR 2) 5.5 =
  Ok (INR 3 + 1, Fin 0).
Proof.
  apply (X6_hovering_pair_counts_both_ends "A" "B" 0 10 0 10 vertiport 2 3 5.5);
    [lra | lra | reflexivity | simpl; lra].
Defined.

(** ** The order of a pair *)

Section PairOrder.

Import NTSC.

Lemma interpolate_raises (segment : FlightSegment) (t : R) (e : exn) :
  _interpolate_position segment t = Raise e -> e = ZeroDivisionError.
Proof.
  unfold _interpolate_position, div.
  destruct (Req_dec_T _ 0); cbn [bind]; congruence.
Qed.

Lemma sample_sym (s1 s2 : FlightSegment) (t cd : R) (md : ext) :
  sample s1 s2 t cd md = sample s2 s1 t cd md.
Proof.
  unfold sample.
  destruct (_interpolate_position s1 t) as [p1 | e1] eqn:E1;
    destruct (_interpolate_position s2 t) as [p2 | e2] eqn:E2; cbn [bind];
    try reflexivity.
  - rewrite !haversine_value. cbn [bind].
    rewrite (haversine_m_sym (latitude p2)), (Rabs_minus_sym (height p2)).
    reflexivity.
  - apply interpolate_raises in E1, E2. congruence.
Qed.

Lemma sample_loop_raise (s1 s2 : FlightSegment) (overlap_end t cd : R)
    (md : ext) (e : exn) :
  t <= overlap_end ->
  sample s1 s2 t cd md = Raise e ->
  sample_loop s1 s2 overlap_end t cd md = Raise e.
Proof.
  intros Hle Hs. rewrite sample_loop_equation_1.
  destruct (Rle_dec t overlap_end); [| contradiction].
  simpl. rewrite Hs. reflexivity.
Qed.

Lemma sample_loop_sym (seg1 seg2 : FlightSegment) (overlap_end t cd : R)
    (md : ext) :
  sample_loop seg1 seg2 overlap_end t cd md =
  sample_loop seg2 seg1 overlap_end t cd md.
Proof.
  funelim (sample_loop seg1 seg2 overlap_end t cd md).
  - rewrite sample_loop_exit by lra. reflexivity.
  - rewrite sample_sym in Heq.
    rewrite (sample_loop_step seg2 seg1 _ _ _ _ _ _ r Heq). assumption.
  - rewrite sample_sym in Heq.
    rewrite (sample_loop_raise seg2 seg1 _ _ _ _ _ r Heq). reflexivity.
Qed.

Lemma max_sym (x y : R) : Py.max x y = Py.max y x.
Proof. unfold Py.max. destruct (Rlt_dec x y), (Rlt_dec y x); lra. Qed.

Lemma min_sym (x y : R) : Py.min x y = Py.min y x.
Proof. unfold Py.min. destruct (Rlt_dec x y), (Rlt_dec y x); lra. Qed.

End PairOrder.

(** X7: the order of the two segments of a pair does not matter: the time
    window is the same, and so are the conflict duration and the minimum
    distance over any window. *)
Theorem X7_pair_order_irrelevant (seg1 seg2 : NTSC.FlightSegment) :
  Py.max (NTSC.start_time seg1) (NTSC.start_time seg2) =
    Py.max (NTSC.start_time seg2) (NTSC.start_time seg1) /\
  Py.min (NTSC.end_time seg1) (NTSC.end_time seg2) =
    Py.min (NTSC.end_time seg2) (NTSC.end_time seg1) /\
  forall overlap_start overlap_end,
    NTSC._calculate_conflict_duration seg1 seg2 overlap_start overlap_end =
    NTSC._calculate_conflict_duration seg2 seg1 overlap_start overlap_end.
Proof.
  split; [apply max_sym |]. split; [apply min_sym |].
  intros os oe. apply sample_loop_sym.
Qed.

(** ** [calculate_ntsc] as a sum over pairs *)

Section PairSums.

Import NTSC.

Lemma check_pair_outcome (s1 s2 : FlightSegment) (ct : R)
    (ds : list ConflictDetail) :
  check_pair s1 s2 ct ds = Ok (ct + pair_time s1 s2, ds ++ pair_details s1 s2).
Proof.
  unfold pair_time, pair_details, pair_outcome, check_pair.
  destruct (String.eqb (aircraft_id s1) (aircraft_id s2)).
  { simpl. rewrite Rplus_0_r, app_nil_r. reflexivity. }
  cbv zeta. destruct (Rlt_dec _ _) as [Hov | Hov].
  2:{ simpl. rewrite Rplus_0_r, app_nil_r. reflexivity. }
  apply overlap_proper in Hov as [Hp1 Hp2].
  unfold _calculate_conflict_duration.
  destruct (sample_loop_total s1 s2 ltac:(lra) ltac:(lra)
              (Py.min (end_time s1) (end_time s2))
              (Py.max (start_time s1) (start_time s2)) 0 Inf)
    as (cd & md & Hloop & _).
  rewrite Hloop. cbn [bind].
  destruct (Rlt_dec 0 cd); simpl.
  - rewrite Rplus_0_l. reflexivity.
  - rewrite Rplus_0_r, app_nil_r. reflexivity.
Qed.

Lemma inner_loop_outcome (s1 : FlightSegment) (rest : list FlightSegment) :
  forall ct ds,
    inner_loop s1 rest ct ds =
    Ok (ct + row_time s1 rest, ds ++ row_details s1 rest).
Proof.
  induction rest as [| s2 rest IH]; intros ct ds; simpl.
  - rewrite Rplus_0_r, app_nil_r. reflexivity.
  - rewrite check_pair_outcome. cbn [bind]. rewrite IH.
    unfold row_details. rewrite <- app_assoc. do 2 f_equal. ring.
Qed.

Lemma outer_loop_outcome (segs : list FlightSegment) :
  forall ct ds,
    outer_loop segs ct ds = Ok (ct + pairs_time segs, ds ++ pairs_details segs).
Proof.
  induction segs as [| s1 rest IH]; intros ct ds; simpl.
  - rewrite Rplus_0_r, app_nil_r. reflexivity.
  - rewrite inner_loop_outcome. cbn [bind]. rewrite IH.
    rewrite <- app_assoc. do 2 f_equal. ring.
Qed.

Lemma sum_flight_time_durations (segs : list FlightSegment) :
  sum_flight_time segs = durations_sum segs.
Proof.
  unfold sum_flight_time.
  assert (H : forall acc,
             fold_left (fun total segment =>
                          total + (end_time segment - start_time segment))
                       segs acc = acc + durations_sum segs).
  { induction segs as [| s rest IH]; intros acc; simpl.
    - ring.
    - rewrite IH. ring. }
  rewrite H. ring.
Qed.

(** The result of [calculate_ntsc], field by field. *)
Lemma calculate_ntsc_outcome (segs : list FlightSegment) :
  exists r,
    calculate_ntsc segs = Ok r /\
    total_flight_time r = durations_sum segs /\
    total_conflict_time r = pairs_time segs /\
    conflict_details r = pairs_details segs /\
    ntsc_value r = (if Rlt_dec 0 (durations_sum segs)
                    then pairs_time segs / durations_sum segs else 0) /\
    conflict_percentage r = ntsc_value r * 100 /\
    safety_level r = _get_safety_level (ntsc_value r).
Proof.
  unfold calculate_ntsc. rewrite outer_loop_outcome. cbn [bind].
  rewrite sum_flight_time_durations, Rplus_0_l. simpl.
  destruct (Rlt_dec 0 (durations_sum segs)) as [Hpos | Hpos].
  - rewrite div_nonzero by lra. cbn [bind].
    eexists. split; [reflexivity |]. simpl. repeat split.
  - cbn [bind]. eexists. split; [reflexivity |]. simpl. repeat split.
Qed.

Lemma pair_time_sym (s1 s2 : FlightSegment) : pair_time s1 s2 = pair_time s2 s1.
Proof.
  unfold pair_time, pair_outcome, check_pair.
  rewrite (String.eqb_sym (aircraft_id s2)).
  destruct (String.eqb (aircraft_id s1) (aircraft_id s2)); [reflexivity |].
  cbv zeta. rewrite (max_sym (start_time s2)), (min_sym (end_time s2)).
  destruct (Rlt_dec _ _); [| reflexivity].
  unfold _calculate_conflict_duration. rewrite (sample_loop_sym s2 s1).
  destruct (sample_loop s1 s2 _ _ 0 Inf) as [[cd md] | e]; cbn [bind];
    [| reflexivity].
  destruct (Rlt_dec 0 cd); reflexivity.
Qed.

Lemma row_time_perm (s : FlightSegment) (l l' : list FlightSegment) :
  Permutation l l' -> row_time s l = row_time s l'.
Proof.
  induction 1; simpl; try lra.
Qed.

Lemma pairs_time_perm (l l' : list FlightSegment) :
  Permutation l l' -> pairs_time l = pairs_time l'.
Proof.
  induction 1 as [| x l l' Hp IH | x y l | l l' l'' _ IH1 _ IH2]; simpl.
  - reflexivity.
  - rewrite IH, (row_time_perm x l l' Hp). reflexivity.
  - rewrite (pair_time_sym y x). ring.
  - lra.
Qed.

Lemma pair_details_length_sym (s1 s2 : FlightSegment) :
  List.length (pair_details s1 s2) = List.length (pair_details s2 s1).
Proof.
  unfold pair_details, pair_outcome, check_pair.
  rewrite (String.eqb_sym (aircraft_id s2)).
  destruct (String.eqb (aircraft_id s1) (aircraft_id s2)); [reflexivity |].
  cbv zeta. rewrite (max_sym (start_time s2)), (min_sym (end_time s2)).
  destruct (Rlt_dec _ _); [| reflexivity].
  unfold _calculate_conflict_duration. rewrite (sample_loop_sym s2 s1).
  destruct (sample_loop s1 s2 _ _ 0 Inf) as [[cd md] | e]; cbn [bind];
    [| reflexivity].
  destruct (Rlt_dec 0 cd); reflexivity.
Qed.

Lemma row_details_length_perm (s : FlightSegment) (l l' : list FlightSegment) :
  Permutation l l' ->
  List.length (row_details s l) = List.length (row_details s l').
Proof.
  unfold row_details.
  induction 1; simpl; rewrite ?length_app; try lia.
Qed.

Lemma pairs_details_length_perm (l l' : list FlightSegment) :
  Permutation l l' ->
  List.length (pairs_details l) = List.length (pairs_details l').
Proof.
  induction 1 as [| x l l' Hp IH | x y l | l l' l'' _ IH1 _ IH2].
  - reflexivity.
  - simpl. rewrite !length_app, IH, (row_details_length_perm x l l' Hp).
    reflexivity.
  - simpl. unfold row_details. simpl. rewrite !length_app.
    rewrite (pair_details_length_sym y x). lia.
  - lia.
Qed.

End PairSums.

(** X8: the order of the list of segments does not matter to what is found.
    On a list and on any rearrangement of it [calculate_ntsc] returns the
    same total conflict time, a whole number of seconds, and the same number
    of conflict details. *)
Theorem X8_conflict_time_order_independent (segs segs' : list NTSC.FlightSegment) :
  Permutation segs segs' ->
  exists r r',
    NTSC.calculate_ntsc segs = Ok r /\
    NTSC.calculate_ntsc segs' = Ok r' /\
    NTSC.total_conflict_time r = NTSC.total_conflict_time r' /\
    List.length (NTSC.conflict_details r) =
      List.length (NTSC.conflict_details r').
Proof.
  intros Hp.
  destruct (calculate_ntsc_outcome segs) as (r & Hr & _ & Hc & Hd & _).
  destruct (calculate_ntsc_outcome segs') as (r' & Hr' & _ & Hc' & Hd' & _).
  exists r, r'. split; [exact Hr |]. split; [exact Hr' |]. split.
  - rewrite Hc, Hc'. apply pairs_time_perm. assumption.
  - rewrite Hd, Hd'. apply pairs_details_length_perm. assumption.
Qed.

Lemma X8_conflict_time_order_independent_witness :
  exists r r',
    NTSC.calculate_ntsc [eastbound; instant; hover "B" 0 90 vertiport] = Ok r /\
    NTSC.calculate_ntsc [hover "B" 0 90 vertiport; eastbound; instant] = Ok r' /\
    NTSC.total_conflict_time r = NTSC.total_conflict_time r'.
Proof.
  destruct (X8_conflict_time_order_independent
              [eastbound; instant; hover "B" 0 90 vertiport]
              [hover "B" 0 90 vertiport; eastbound; instant])
    as (r & r' & Hr & Hr' & Hc & _).
  - apply Permutation_sym.
    apply (Permutation_cons_app [eastbound; instant] []). simpl.
    apply Permutation_refl.
  - exists r, r'. repeat split; assumption.
Defined.

(** ** Pairs that cannot be in conflict *)

Section Quiet.

Import NTSC.

(** A loop whose samples add nothing returns the duration it started from. *)
Lemma sample_loop_quiet (seg1 seg2 : FlightSegment) (overlap_end t cd : R)
    (md : ext) :
  (forall t cd md cd' md',
      sample seg1 seg2 t cd md = Ok (cd', md') -> cd' = cd) ->
  forall cd' md',
    sample_loop seg1 seg2 overlap_end t cd md = Ok (cd', md') -> cd' = cd.
Proof.
  intros Hq.
  funelim (sample_loop seg1 seg2 overlap_end t cd md); intros cd' md' Hl.
  - congruence.
  - apply Hq in Heq. rewrite <- Heq. apply (H Hq cd' md'). exact Hl.
  - discriminate.
Qed.

(** On a level flight every interpolated height is the height of the
    flight. *)
Lemma height_level (s : FlightSegment) (t : R) (p : Position) :
  level_flight s ->
  _interpolate_position s t = Ok p ->
  height p = height (start_pos s).
Proof.
  unfold level_flight. intros Hlevel Hp.
  destruct (Req_dec (end_time s) (start_time s)) as [Heq | Hne].
  - rewrite interpolate_degenerate in Hp by assumption. discriminate.
  - rewrite interpolate_value in Hp by assumption.
    assert (Hpos : p = position_at s t) by congruence.
    rewrite Hpos. unfold position_at, position_at_ratio. cbn [height].
    rewrite Hlevel. ring.
Qed.

Lemma sample_quiet_level (s1 s2 : FlightSegment) :
  level_flight s1 -> level_flight s2 ->
  VERTICAL_SEPARATION <= Rabs (height (start_pos s1) - height (start_pos s2)) ->
  forall t cd md cd' md',
    sample s1 s2 t cd md = Ok (cd', md') -> cd' = cd.
Proof.
  intros Hl1 Hl2 Hsep t cd md cd' md'. unfold sample.
  destruct (_interpolate_position s1 t) as [p1 | e1] eqn:E1; cbn [bind];
    [| discriminate].
  destruct (_interpolate_position s2 t) as [p2 | e2] eqn:E2; cbn [bind];
    [| discriminate].
  rewrite haversine_value. cbn [bind].
  rewrite math_sqrt_nonneg.
  2:{ apply Rplus_le_le_0_compat; apply pow2_ge_0. }
  cbn [bind].
  rewrite (height_level s1 t p1 Hl1 E1), (height_level s2 t p2 Hl2 E2).
  assert (Hc : in_conflict
                 (haversine_m (latitude p1) (longitude p1)
                              (latitude p2) (longitude p2))
                 (Rabs (height (start_pos s1) - height (start_pos s2))) = false).
  { unfold in_conflict. apply andb_false_iff. right. apply ltb_ge. exact Hsep. }
  rewrite Hc. congruence.
Qed.

Lemma pair_outcome_quiet (s1 s2 : FlightSegment) :
  cannot_conflict s1 s2 -> pair_outcome s1 s2 = (0, []).
Proof.
  intros Hc. unfold pair_outcome, check_pair.
  destruct (String.eqb (aircraft_id s1) (aircraft_id s2)) eqn:Hid;
    [reflexivity |].
  apply String.eqb_neq in Hid. cbv zeta.
  destruct (Rlt_dec _ _) as [Hov | Hov]; [| reflexivity].
  destruct Hc as [Hsame | [Hdisj | (Hl1 & Hl2 & Hvert)]]; [contradiction | lra |].
  unfold _calculate_conflict_duration.
  destruct (sample_loop s1 s2 _ _ 0 Inf) as [[cd md] | e] eqn:Hl;
    cbn [bind]; [| reflexivity].
  apply (sample_loop_quiet s1 s2 _ _ _ _
           (sample_quiet_level s1 s2 Hl1 Hl2 Hvert)) in Hl.
  subst cd. destruct (Rlt_dec 0 0); [lra | reflexivity].
Qed.

Lemma row_quiet (s1 : FlightSegment) (rest : list FlightSegment) :
  Forall (cannot_conflict s1) rest ->
  row_time s1 rest = 0 /\ row_details s1 rest = [].
Proof.
  induction 1 as [| s2 rest Hc _ [IHt IHd]]; simpl.
  - split; reflexivity.
  - change (row_details s1 (s2 :: rest))
      with (pair_details s1 s2 ++ row_details s1 rest).
    unfold pair_time, pair_details. rewrite (pair_outcome_quiet s1 s2 Hc).
    rewrite IHt, IHd. simpl. split; [ring | reflexivity].
Qed.

Lemma pairs_quiet (segs : list FlightSegment) :
  ForallOrdPairs cannot_conflict segs ->
  pairs_time segs = 0 /\ pairs_details segs = [].
Proof.
  induction 1 as [| s1 rest Hrow _ [IHt IHd]]; simpl.
  - split; reflexivity.
  - destruct (row_quiet s1 rest Hrow) as [Ht Hd].
    rewrite Ht, Hd, IHt, IHd. split; [ring | reflexivity].
Qed.

End Quiet.

(** X9: when every two segments of the list are flown by the same aircraft,
    or have time windows that do not overlap, or are two level flights whose
    heights are [VERTICAL_SEPARATION] or more apart, [calculate_ntsc]
    reports no conflict: no details, no conflict time, an NTSC value of 0
    and the level EXCELLENT. *)
Theorem X9_no_conflict_possible (segs : list NTSC.FlightSegment) :
  ForallOrdPairs cannot_conflict segs ->
  exists r,
    NTSC.calculate_ntsc segs = Ok r /\
    NTSC.conflict_details r = [] /\
    NTSC.total_conflict_time r = 0 /\
    NTSC.ntsc_value r = 0 /\
    NTSC.safety_level r = NTSC.EXCELLENT.
Proof.
  intros Hq. destruct (pairs_quiet segs Hq) as [Ht Hd].
  destruct (calculate_ntsc_outcome segs) as (r & Hr & _ & Hc & Hdet & Hv & _ & Hs).
  exists r.
  assert (Hv0 : NTSC.ntsc_value r = 0).
  { rewrite Hv, Ht. destruct (Rlt_dec 0 (durations_sum segs)); [| reflexivity].
    unfold Rdiv. ring. }
  repeat split; try congruence.
  rewrite Hs, Hv0. unfold NTSC._get_safety_level.
  destruct (Rlt_dec 0 0.01); [reflexivity | lra].
Qed.

Lemma X9_no_conflict_possible_witness :
  exists r,
    NTSC.calculate_ntsc
      [ hover "A" 0 60 vertiport; hover "B" 60 120 vertiport;
        hover "C" 0 120 off_the_map ] = Ok r /\
    NTSC.conflict_details r = [] /\
    NTSC.ntsc_value r = 0.
Proof.
  destruct (X9_no_conflict_possible
              [ hover "A" 0 60 vertiport; hover "B" 60 120 vertiport;
                hover "C" 0 120 off_the_map ])
    as (r & Hr & Hd & _ & Hv & _).
  - assert (HA : forall id t0 t1,
               cannot_conflict (hover id t0 t1 vertiport)
                               (hover "C" 0 120 off_the_map)).
    { intros id t0 t1. right. right.
      split; [reflexivity |]. split; [reflexivity |].
      unfold NTSC.VERTICAL_SEPARATION. simpl.
      replace (120 - -5) with 125 by ring. rewrite Rabs_pos_eq; lra. }
    apply FOP_cons; [apply Forall_cons; [| apply Forall_cons; [| apply Forall_nil]] |].
    + right. left. simpl. unfold Py.min, Py.max.
      destruct (Rlt_dec 120 60); destruct (Rlt_dec 0 60); lra.
    + apply HA.
    + apply FOP_cons; [apply Forall_cons; [| apply Forall_nil] |].
      * apply HA.
      * apply FOP_cons; [apply Forall_nil | apply FOP_nil].
  - exists r. repeat split; assumption.
Defined.

(** ** The conflict details *)

Section Details.

Import NTSC.

Lemma pair_details_cases (s1 s2 : FlightSegment) :
  pair_details s1 s2 = [] \/
  exists d, pair_details s1 s2 = [d] /\ well_formed_detail [s1; s2] d.
Proof.
  unfold pair_details, pair_outcome, check_pair.
  destruct (String.eqb (aircraft_id s1) (aircraft_id s2)) eqn:Hid;
    [left; reflexivity |].
  apply String.eqb_neq in Hid. cbv zeta.
  destruct (Rlt_dec _ _) as [Hov | Hov]; [| left; reflexivity].
  apply overlap_proper in Hov as Hp. destruct Hp as [Hp1 Hp2].
  destruct (conflict_duration_shape s1 s2
              (Py.max (start_time s1) (start_time s2))
              (Py.min (end_time s1) (end_time s2)))
    as (k & m & Hccd & Hm); try lra.
  rewrite Hccd. cbn [bind].
  destruct (Rlt_dec 0 (INR k)) as [Hpos | Hpos]; [| left; reflexivity].
  right. eexists. split; [reflexivity |].
  exists s1, s2, k, m. simpl.
  repeat split; auto; try lra.
  apply INR_lt. simpl. exact Hpos.
Qed.

Lemma well_formed_detail_incl (l l' : list FlightSegment) (d : ConflictDetail) :
  incl l l' -> well_formed_detail l d -> well_formed_detail l' d.
Proof.
  intros Hi (s1 & s2 & k & m & In1 & In2 & Hrest).
  exists s1, s2, k, m. split; [apply Hi, In1 |]. split; [apply Hi, In2 |].
  exact Hrest.
Qed.

Lemma row_details_spec (segs : list FlightSegment) (s1 : FlightSegment)
    (rest : list FlightSegment) :
  In s1 segs -> incl rest segs ->
  Forall (well_formed_detail segs) (row_details s1 rest) /\
  (List.length (row_details s1 rest) <= List.length rest)%nat.
Proof.
  intros In1. induction rest as [| s2 rest IH]; intros Hincl.
  - split; [constructor | simpl; lia].
  - change (row_details s1 (s2 :: rest))
      with (pair_details s1 s2 ++ row_details s1 rest).
    destruct IH as [IHf IHl]; [intros x Hx; apply Hincl; right; exact Hx |].
    destruct (pair_details_cases s1 s2) as [-> | (d & -> & Hd)]; simpl.
    + split; [assumption | lia].
    + split; [| lia]. constructor; [| assumption].
      apply (well_formed_detail_incl [s1; s2]); [| assumption].
      intros x [<- | [<- | []]]; [assumption | apply Hincl; left; reflexivity].
Qed.

Lemma pairs_details_spec (segs : list FlightSegment) (l : list FlightSegment) :
  incl l segs ->
  Forall (well_formed_detail segs) (pairs_details l) /\
  (2 * List.length (pairs_details l) <= List.length l * (List.length l - 1))%nat.
Proof.
  induction l as [| s1 rest IH]; intros Hincl.
  - split; [constructor | simpl; lia].
  - assert (Hrest : incl rest segs)
      by (intros x Hx; apply Hincl; right; exact Hx).
    destruct (IH Hrest) as [IHf IHl].
    destruct (row_details_spec segs s1 rest (Hincl s1 (in_eq _ _)) Hrest)
      as [Hf Hl].
    simpl pairs_details. split.
    + apply Forall_app. split; assumption.
    + rewrite length_app. simpl List.length. nia.
Qed.

End Details.

(** X10: every entry of [conflict_details] is well formed: it names two
    segments of the list of different aircraft, its time range is their
    common window, which is not empty, its duration is a positive whole
    number of seconds, and its minimum distance is finite and not negative.
    There are at most [n (n - 1) / 2] entries for [n] segments. *)
Theorem X10_conflict_details_well_formed (segs : list NTSC.FlightSegment) :
  exists r,
    NTSC.calculate_ntsc segs = Ok r /\
    Forall (well_formed_detail segs) (NTSC.conflict_details r) /\
    (2 * List.length (NTSC.conflict_details r) <=
     List.length segs * (List.length segs - 1))%nat.
Proof.
  destruct (calculate_ntsc_outcome segs) as (r & Hr & _ & _ & Hd & _).
  exists r. split; [exact Hr |]. rewrite Hd.
  apply pairs_details_spec. apply incl_refl.
Qed.

(** X11: the safety level is monotonic in the NTSC value: a larger value
    never gives a better level, in the order EXCELLENT, GOOD, ACCEPTABLE,
    WARNING, CRITICAL. *)
Theorem X11_safety_level_monotonic (ntsc ntsc' : R) :
  ntsc <= ntsc' ->
  (safety_rank (NTSC._get_safety_level ntsc) <=
   safety_rank (NTSC._get_safety_level ntsc'))%nat.
Proof.
  intros Hle. unfold NTSC._get_safety_level.
  repeat match goal with
         | |- context [Rlt_dec ?x ?y] => destruct (Rlt_dec x y)
         end; simpl; try lia; exfalso; lra.
Qed.

Lemma X11_safety_level_monotonic_witness :
  (safety_rank (NTSC._get_safety_level 0.03) <=
   safety_rank (NTSC._get_safety_level 0.15))%nat.
Proof.
  apply X11_safety_level_monotonic. lra.
Defined.

(** ** The conflicts of [analyze_route_conflicts] *)

Section AnalyzerConflicts.

Import Analyzer.

Lemma closeb_close (p1 p2 : Waypoint) : closeb p1 p2 = true <-> close p1 p2.
Proof.
  unfold closeb, close. rewrite andb_true_iff, !ltb_lt. reflexivity.
Qed.

Lemma check_points_value (ri rj : Route) (k1 : nat) (p1 : Waypoint) (k2 : nat)
    (p2 : Waypoint) (cs : list Conflict) :
  check_points ri rj k1 p1 k2 p2 cs = Ok (cs ++ points_conflicts ri rj k1 p1 k2 p2).
Proof.
  unfold check_points, points_conflicts, closeb. cbv zeta.
  fold (time_gap p1 p2).
  destruct (ltb (time_gap p1 p2) 60); cbn [andb].
  2:{ rewrite app_nil_r. reflexivity. }
  rewrite haversine_value. cbn [bind].
  rewrite math_sqrt_nonneg.
  2:{ apply Rplus_le_le_0_compat; apply pow2_ge_0. }
  cbn [bind]. unfold conflict_of, dist3d.
  destruct (ltb (sqrt _) SAFETY_SEPARATION).
  - reflexivity.
  - rewrite app_nil_r. reflexivity.
Qed.

Lemma loop_k2_value (ri rj : Route) (k1 : nat) (p1 : Waypoint)
    (route2 : list Waypoint) :
  forall k2 cs,
    loop_k2 ri rj k1 p1 k2 route2 cs = Ok (cs ++ k2_conflicts ri rj k1 p1 k2 route2).
Proof.
  induction route2 as [| p2 rest IH]; intros k2 cs; simpl.
  - rewrite app_nil_r. reflexivity.
  - rewrite check_points_value. cbn [bind]. rewrite IH, <- app_assoc.
    reflexivity.
Qed.

Lemma loop_k1_value (ri rj : Route) (route1 : list Waypoint) :
  forall k1 cs,
    loop_k1 ri rj k1 route1 cs = Ok (cs ++ k1_conflicts ri rj k1 route1).
Proof.
  induction route1 as [| p1 rest IH]; intros k1 cs; simpl.
  - rewrite app_nil_r. reflexivity.
  - rewrite loop_k2_value. cbn [bind]. rewrite IH, <- app_assoc. reflexivity.
Qed.

Lemma loop_j_value (ri : Route) (rest : list Route) :
  forall cs, loop_j ri rest cs = Ok (cs ++ j_conflicts ri rest).
Proof.
  induction rest as [| rj rest IH]; intros cs; simpl.
  - rewrite app_nil_r. reflexivity.
  - rewrite loop_k1_value. cbn [bind]. rewrite IH, <- app_assoc. reflexivity.
Qed.

Lemma loop_i_value (routes : list Route) :
  forall cs, loop_i routes cs = Ok (cs ++ all_conflicts routes).
Proof.
  induction routes as [| ri rest IH]; intros cs; simpl.
  - rewrite app_nil_r. reflexivity.
  - rewrite loop_j_value. cbn [bind]. rewrite IH, <- app_assoc. reflexivity.
Qed.

Lemma analyze_route_conflicts_value (routes : list Route) :
  analyze_route_conflicts routes =
  Ok {| total_conflicts := List.length (all_conflicts routes);
        conflicts := all_conflicts routes;
        risk_assessment := _assess_overall_risk (all_conflicts routes) |}.
Proof.
  unfold analyze_route_conflicts. rewrite loop_i_value. reflexivity.
Qed.

Lemma in_k2_conflicts (ri rj : Route) (k1 : nat) (p1 : Waypoint) (c : Conflict)
    (route2 : list Waypoint) :
  forall k2,
    In c (k2_conflicts ri rj k1 p1 k2 route2) <->
    exists n p2,
      nth_error route2 n = Some p2 /\ close p1 p2 /\
      c = conflict_of ri rj k1 p1 (k2 + n) p2.
Proof.
  induction route2 as [| p2 rest IH]; intros k2; simpl.
  - split; [intros [] | intros (n & q & Hn & _)].
    destruct n; discriminate.
  - rewrite in_app_iff, IH. unfold points_conflicts. split.
    + intros [Hc | (n & q & Hn & Hcl & Hq)].
      * destruct (closeb p1 p2) eqn:Hb; [| destruct Hc].
        destruct Hc as [<- | []]. exists 0%nat, p2.
        rewrite Nat.add_0_r. apply closeb_close in Hb. auto.
      * exists (S n), q. rewrite Nat.add_succ_r. auto.
    + intros (n & q & Hn & Hcl & Hq). destruct n as [| n]; simpl in Hn.
      * injection Hn as <-. left. apply closeb_close in Hcl. rewrite Hcl.
        rewrite Nat.add_0_r in Hq. left. symmetry. exact Hq.
      * right. exists n, q. rewrite Nat.add_succ_r in Hq. auto.
Qed.

Lemma in_k1_conflicts (ri rj : Route) (c : Conflict) (route1 : list Waypoint) :
  forall k1,
    In c (k1_conflicts ri rj k1 route1) <->
    exists n1 p1 n2 p2,
      nth_error route1 n1 = Some p1 /\ nth_error (path rj) n2 = Some p2 /\
      close p1 p2 /\ c = conflict_of ri rj (k1 + n1) p1 n2 p2.
Proof.
  induction route1 as [| p1 rest IH]; intros k1; simpl.
  - split; [intros [] | intros (n1 & q & _ & _ & Hn & _)].
    destruct n1; discriminate.
  - rewrite in_app_iff, IH, in_k2_conflicts. split.
    + intros [(n2 & p2 & Hn2 & Hcl & Hc) | (n1 & q1 & n2 & p2 & H1 & H2 & Hcl & Hc)].
      * exists 0%nat, p1, n2, p2. rewrite Nat.add_0_r. auto.
      * exists (S n1), q1, n2, p2. rewrite Nat.add_succ_r. auto.
    + intros (n1 & q1 & n2 & p2 & H1 & H2 & Hcl & Hc).
      destruct n1 as [| n1]; simpl in H1.
      * injection H1 as <-. left. exists n2, p2.
        rewrite Nat.add_0_r in Hc. auto.
      * right. exists n1, q1, n2, p2. rewrite Nat.add_succ_r in Hc. auto.
Qed.

Lemma in_j_conflicts (ri : Route) (c : Conflict) (rest : list Route) :
  In c (j_conflicts ri rest) <->
  exists m rj, nth_error rest m = Some rj /\
               In c (k1_conflicts ri rj 0 (path ri)).
Proof.
  induction rest as [| rj rest IH]; simpl.
  - split; [intros [] | intros (m & q & Hm & _)]. destruct m; discriminate.
  - rewrite in_app_iff, IH. split.
    + intros [Hc | (m & q & Hm & Hc)].
      * exists 0%nat, rj. auto.
      * exists (S m), q. auto.
    + intros (m & q & Hm & Hc). destruct m as [| m]; simpl in Hm.
      * injection Hm as <-. left. exact Hc.
      * right. exists m, q. auto.
Qed.

Lemma in_all_conflicts (c : Conflict) (routes : list Route) :
  In c (all_conflicts routes) <->
  exists i j ri rj,
    (i < j)%nat /\ nth_error routes i = Some ri /\ nth_error routes j = Some rj /\
    In c (k1_conflicts ri rj 0 (path ri)).
Proof.
  induction routes as [| r rest IH]; simpl.
  - split; [intros [] | intros (i & j & ri & rj & _ & Hi & _)].
    destruct i; discriminate.
  - rewrite in_app_iff, IH, in_j_conflicts. split.
    + intros [(m & rj & Hm & Hc) | (i & j & ri & rj & Hlt & Hi & Hj & Hc)].
      * exists 0%nat, (S m), r, rj. simpl. repeat split; auto. lia.
      * exists (S i), (S j), ri, rj. simpl. repeat split; auto. lia.
    + intros (i & j & ri & rj & Hlt & Hi & Hj & Hc).
      destruct i as [| i]; simpl in Hi.
      * injection Hi as <-. destruct j as [| j]; [lia |]. simpl in Hj.
        left. exists j, rj. auto.
      * destruct j as [| j]; [lia |]. simpl in Hj.
        right. exists i, j, ri, rj. repeat split; auto. lia.
Qed.

End AnalyzerConflicts.

(** X12: [analyze_route_conflicts] is sound and complete.  A conflict is in
    the report exactly when it is the record of point [k1] of a route and
    point [k2] of a later route of the list that are less than 60 s apart in
    time and less than [SAFETY_SEPARATION] apart in space; the record holds
    the two route names, the two indices, the time of the first point, the
    3-D distance, the midpoint and the severity of that distance and time
    gap. *)
Theorem X12_conflicts_sound_and_complete (routes : list Analyzer.Route) :
  exists report,
    Analyzer.analyze_route_conflicts routes = Ok report /\
    forall c,
      In c (Analyzer.conflicts report) <->
      exists i j ri rj k1 p1 k2 p2,
        (i < j)%nat /\
        nth_error routes i = Some ri /\ nth_error routes j = Some rj /\
        nth_error (Analyzer.path ri) k1 = Some p1 /\
        nth_error (Analyzer.path rj) k2 = Some p2 /\
        close p1 p2 /\
        c = conflict_of ri rj k1 p1 k2 p2.
Proof.
  eexists. split; [apply analyze_route_conflicts_value |]. simpl.
  intros c. rewrite in_all_conflicts. split.
  - intros (i & j & ri & rj & Hlt & Hi & Hj & Hc).
    apply in_k1_conflicts in Hc as (k1 & p1 & k2 & p2 & H1 & H2 & Hcl & Hc).
    exists i, j, ri, rj, k1, p1, k2, p2. simpl in Hc. auto 10.
  - intros (i & j & ri & rj & k1 & p1 & k2 & p2 & Hlt & Hi & Hj & H1 & H2 & Hcl & Hc).
    exists i, j, ri, rj. repeat split; auto.
    apply in_k1_conflicts. exists k1, p1, k2, p2. simpl. auto.
Qed.

Lemma ForallOrdPairs_nth {A : Type} (P : A -> A -> Prop) (l : list A) :
  ForallOrdPairs P l ->
  forall i j a b,
    (i < j)%nat -> nth_error l i = Some a -> nth_error l j = Some b -> P a b.
Proof.
  induction 1 as [| x l Hx _ IH]; intros i j a b Hlt Hi Hj.
  - destruct i; discriminate.
  - destruct j as [| j]; [lia |]. simpl in Hj.
    destruct i as [| i]; simpl in Hi.
    + injection Hi as <-. rewrite Forall_forall in Hx.
      apply Hx. apply nth_error_In with j. exact Hj.
    + apply (IH i j); [lia | assumption | assumption].
Qed.

Lemma dist3d_vertical (p1 p2 : Analyzer.Waypoint) :
  Rabs (Analyzer.wp_height p1 - Analyzer.wp_height p2) <= dist3d p1 p2.
Proof.
  unfold dist3d.
  rewrite <- (sqrt_pow2 (Rabs _)) at 1 by apply Rabs_pos.
  apply sqrt_le_1_alt.
  pose proof (pow2_ge_0 (haversine_m (Analyzer.wp_latitude p1)
                                     (Analyzer.wp_longitude p1)
                                     (Analyzer.wp_latitude p2)
                                     (Analyzer.wp_longitude p2))).
  lra.
Qed.

Lemma separated_not_close (p1 p2 : Analyzer.Waypoint) :
  separated p1 p2 -> ~ close p1 p2.
Proof.
  intros [Ht | Hv] [Hc1 Hc2]; [lra |].
  pose proof (dist3d_vertical p1 p2). lra.
Qed.

Lemma all_conflicts_separated (routes : list Analyzer.Route) :
  ForallOrdPairs routes_separated routes -> all_conflicts routes = [].
Proof.
  intros Hsep.
  destruct (all_conflicts routes) as [| c cs] eqn:Hall; [reflexivity |].
  exfalso.
  assert (Hin : In c (all_conflicts routes)) by (rewrite Hall; left; reflexivity).
  apply in_all_conflicts in Hin as (i & j & ri & rj & Hlt & Hi & Hj & Hc).
  apply in_k1_conflicts in Hc as (k1 & p1 & k2 & p2 & H1 & H2 & Hcl & _).
  apply (separated_not_close p1 p2); [| exact Hcl].
  apply (ForallOrdPairs_nth _ _ Hsep i j ri rj Hlt Hi Hj).
  - apply nth_error_In with k1. exact H1.
  - apply nth_error_In with k2. exact H2.
Qed.

(** X13: when the points of every two routes of the list are, two by two,
    60 s or more apart in time or [SAFETY_SEPARATION] or more apart in
    height, whatever their ground tracks, the report has no conflict, a
    score of 0 and the level SAFE. *)
Theorem X13_separated_routes_are_safe (routes : list Analyzer.Route) :
  ForallOrdPairs routes_separated routes ->
  exists report,
    Analyzer.analyze_route_conflicts routes = Ok report /\
    Analyzer.total_conflicts report = 0%nat /\
    Analyzer.conflicts report = [] /\
    Analyzer.level (Analyzer.risk_assessment report) = Analyzer.Risk.SAFE /\
    Analyzer.score (Analyzer.risk_assessment report) = 0%nat.
Proof.
  intros Hsep. eexists. split; [apply analyze_route_conflicts_value |].
  rewrite (all_conflicts_separated routes Hsep). simpl. repeat split.
Qed.

Lemma X13_separated_routes_are_safe_witness :
  exists report,
    Analyzer.analyze_route_conflicts [low_alt_route; high_alt_route] = Ok report /\
    Analyzer.total_conflicts report = 0%nat.
Proof.
  destruct (X13_separated_routes_are_safe [low_alt_route; high_alt_route])
    as (report & Hr & Ht & _).
  - apply FOP_cons; [| apply FOP_cons; [apply Forall_nil | apply FOP_nil]].
    apply Forall_cons; [| apply Forall_nil].
    intros p1 p2 H1 H2. right. unfold Analyzer.SAFETY_SEPARATION.
    assert (Hh1 : Analyzer.wp_height p1 = 80).
    { simpl in H1. destruct H1 as [<- | [<- | [<- | []]]]; reflexivity. }
    assert (Hh2 : Analyzer.wp_height p2 = 150).
    { simpl in H2. destruct H2 as [<- | [<- | [<- | []]]]; reflexivity. }
    rewrite Hh1, Hh2. unfold Rabs. destruct (Rcase_abs _); lra.
  - exists report. split; assumption.
Defined.

(** ** The overall risk *)

Section OverallRisk.

Import Analyzer.

Lemma count_severity_app (s : Severity) (cs : list Conflict) (c : Conflict) :
  count_severity s (cs ++ [c]) =
  (count_severity s cs + if Severity_eqb (severity c) s then 1 else 0)%nat.
Proof.
  unfold count_severity. rewrite filter_app, length_app. simpl.
  destruct (Severity_eqb (severity c) s); reflexivity.
Qed.

Lemma count_critical_high (cs : list Conflict) :
  (count_severity CRITICAL cs + count_severity HIGH cs <= List.length cs)%nat.
Proof.
  unfold count_severity. induction cs as [| c cs IH]; simpl; [lia |].
  destruct (severity c); simpl; lia.
Qed.

Lemma score_value (cs : list Conflict) :
  score (_assess_overall_risk cs) =
  (count_severity CRITICAL cs * 10 + count_severity HIGH cs * 5 +
   List.length cs)%nat.
Proof.
  destruct cs; reflexivity.
Qed.

Lemma level_value (cs : list Conflict) :
  level (_assess_overall_risk cs) =
  match cs with
  | [] => Risk.SAFE
  | _ =>
      let n := score (_assess_overall_risk cs) in
      if (50 <? n)%nat then Risk.UNACCEPTABLE
      else if (30 <? n)%nat then Risk.HIGH
      else if (10 <? n)%nat then Risk.MEDIUM
      else Risk.LOW
  end.
Proof.
  destruct cs; reflexivity.
Qed.

End OverallRisk.

(** X14: the risk score lies between the number of conflicts and 11 times
    that number, and the level is SAFE exactly when there is no conflict:
    a list that is not empty is never SAFE, whatever its severities. *)
Theorem X14_risk_score_bounds (cs : list Analyzer.Conflict) :
  (List.length cs <= Analyzer.score (Analyzer._assess_overall_risk cs)
                  <= 11 * List.length cs)%nat /\
  (Analyzer.level (Analyzer._assess_overall_risk cs) = Analyzer.Risk.SAFE <->
   cs = []) /\
  (Analyzer.score (Analyzer._assess_overall_risk cs) = 0%nat <-> cs = []).
Proof.
  rewrite score_value. pose proof (count_critical_high cs) as Hc.
  split; [lia |]. split.
  - rewrite level_value. destruct cs as [| c cs]; [split; reflexivity |].
    split; [| discriminate]. cbv zeta.
    repeat match goal with
           | |- context [(?a <? ?b)%nat] => destruct (a <? b)%nat
           end; discriminate.
  - destruct cs as [| c cs]; [split; reflexivity |].
    split; [simpl; lia | discriminate].
Qed.

(** X15: recording one more conflict adds 11 to the score when it is
    CRITICAL, 6 when it is HIGH and 1 otherwise, and never lowers the risk
    level, in the order SAFE, LOW, MEDIUM, HIGH, UNACCEPTABLE. *)
Theorem X15_one_more_conflict (cs : list Analyzer.Conflict) (c : Analyzer.Conflict) :
  Analyzer.score (Analyzer._assess_overall_risk (cs ++ [c])) =
    (Analyzer.score (Analyzer._assess_overall_risk cs) +
     severity_weight (Analyzer.severity c))%nat /\
  (risk_rank (Analyzer.level (Analyzer._assess_overall_risk cs)) <=
   risk_rank (Analyzer.level (Analyzer._assess_overall_risk (cs ++ [c]))))%nat.
Proof.
  assert (Hs : Analyzer.score (Analyzer._assess_overall_risk (cs ++ [c])) =
               (Analyzer.score (Analyzer._assess_overall_risk cs) +
                severity_weight (Analyzer.severity c))%nat).
  { rewrite !score_value, !count_severity_app, length_app. simpl.
    destruct (Analyzer.severity c); simpl; lia. }
  split; [exact Hs |].
  rewrite (level_value (cs ++ [c])), Hs.
  destruct (cs ++ [c]) as [| x l] eqn:Happ.
  { destruct cs; discriminate. }
  rewrite (level_value cs). destruct cs as [| y cs']; [simpl; lia |].
  cbv zeta.
  set (n := Analyzer.score (Analyzer._assess_overall_risk (y :: cs'))).
  set (w := severity_weight (Analyzer.severity c)).
  destruct (Nat.ltb_spec 50 n), (Nat.ltb_spec 30 n), (Nat.ltb_spec 10 n),
    (Nat.ltb_spec 50 (n + w)), (Nat.ltb_spec 30 (n + w)),
    (Nat.ltb_spec 10 (n + w)); simpl; lia.
Qed.

(** ** The collision risk of a segment *)

Section CollisionRisk.

Import Analyzer.

Lemma point_to_line_distance_value (point : Obstacle) (line_start line_end : Position) :
  exists d,
    _point_to_line_distance point line_start line_end = Ok d /\ 0 <= d.
Proof.
  unfold _point_to_line_distance. rewrite !haversine_value. cbn [bind].
  eexists. split; [reflexivity |].
  pose proof (haversine_m_bounds (get_default (ob_latitude point) 0)
                (get_default (ob_longitude point) 0)
                (latitude line_start) (longitude line_start)).
  pose proof (haversine_m_bounds (get_default (ob_latitude point) 0)
                (get_default (ob_longitude point) 0)
                (latitude line_end) (longitude line_end)).
  unfold Py.min. destruct (Rlt_dec _ _); lra.
Qed.

(** Each obstacle adds between 0 and 0.2 to the obstacle risk. *)
Lemma obstacle_loop_bounds (obstacles : list Obstacle) (point1 point2 : Position) :
  forall acc,
  exists v,
    obstacle_loop obstacles point1 point2 acc = Ok v /\
    acc <= v <= acc + 0.2 * INR (List.length obstacles).
Proof.
  induction obstacles as [| o rest IH]; intros acc.
  - exists acc. split; [reflexivity |]. simpl. lra.
  - destruct (point_to_line_distance_value o point1 point2) as (d & Hd & Hd0).
    cbn [obstacle_loop]. rewrite Hd. cbn [bind]. cbv zeta.
    change (List.length (o :: rest)) with (S (List.length rest)).
    rewrite S_INR. unfold SAFETY_SEPARATION.
    destruct (Rlt_dec d 50) as [Hlt | Hge].
    + destruct (IH (acc + (1 - d / 50) * 0.2)) as (v & Hv & Hb).
      exists v. split; [exact Hv |]. lra.
    + destruct (IH acc) as (v & Hv & Hb).
      exists v. split; [exact Hv |]. pose proof (pos_INR (List.length rest)). lra.
Qed.

Lemma collision_risk_value (point1 point2 : Position) (obstacles : list Obstacle) :
  exists hr lr obr,
    0.05 <= hr <= 0.3 /\ 0 <= lr <= 0.3 /\
    0 <= obr <= 0.2 * INR (List.length obstacles) /\
    calculate_collision_risk point1 point2 obstacles =
    Ok {| total_risk := Py.min (hr * 0.4 + lr * 0.3 + obr * 0.3) 1;
          height_risk := hr;
          length_risk := lr;
          obstacle_risk := Py.min obr 1;
          risk_level := _get_risk_level (hr * 0.4 + lr * 0.3 + obr * 0.3) |}.
Proof.
  unfold calculate_collision_risk. cbv zeta.
  rewrite haversine_value. cbn [bind].
  destruct (obstacle_loop_bounds obstacles point1 point2 0) as (obr & Hobr & Hb).
  rewrite Hobr. cbn [bind].
  do 3 eexists. split; [| split; [| split; [| reflexivity]]].
  - repeat destruct (Rlt_dec _ _); lra.
  - pose proof (haversine_m_bounds (latitude point1) (longitude point1)
                  (latitude point2) (longitude point2)).
    unfold Py.min. destruct (Rlt_dec _ _); lra.
  - lra.
Qed.

End CollisionRisk.

(** X16: [calculate_collision_risk] returns for every input, with a total
    risk in (0, 1], a height risk in [0.05, 0.3], a length risk in [0, 0.3]
    and an obstacle risk in [0, 1]. *)
Theorem X16_collision_risk_bounds (point1 point2 : Position)
    (obstacles : list Analyzer.Obstacle) :
  exists r,
    Analyzer.calculate_collision_risk point1 point2 obstacles = Ok r /\
    0 < Analyzer.total_risk r <= 1 /\
    0.05 <= Analyzer.height_risk r <= 0.3 /\
    0 <= Analyzer.length_risk r <= 0.3 /\
    0 <= Analyzer.obstacle_risk r <= 1.
Proof.
  destruct (collision_risk_value point1 point2 obstacles)
    as (hr & lr & obr & Hhr & Hlr & Hobr & Hr).
  eexists. split; [exact Hr |]. simpl. unfold Py.min.
  repeat split; try lra; repeat destruct (Rlt_dec _ _); lra.
Qed.

(** X17: the risk level of a segment depends on how many obstacles are
    given.  With at most 3 obstacles the level is LOW, whatever the heights,
    the length and the obstacle positions; with at most 8 it is never
    HIGH. *)
Theorem X17_collision_risk_level (point1 point2 : Position)
    (obstacles : list Analyzer.Obstacle) :
  exists r,
    Analyzer.calculate_collision_risk point1 point2 obstacles = Ok r /\
    ((List.length obstacles <= 3)%nat ->
       Analyzer.risk_level r = Analyzer.SegmentRisk.LOW) /\
    ((List.length obstacles <= 8)%nat ->
       Analyzer.risk_level r <> Analyzer.SegmentRisk.HIGH).
Proof.
  destruct (collision_risk_value point1 point2 obstacles)
    as (hr & lr & obr & Hhr & Hlr & Hobr & Hr).
  eexists. split; [exact Hr |]. simpl. unfold Analyzer._get_risk_level.
  split; intros Hn; apply le_INR in Hn; simpl in Hn;
    repeat destruct (Rlt_dec _ _); try reflexivity; try discriminate;
    exfalso; lra.
Qed.

Lemma X17_collision_risk_level_witness :
  exists r,
    Analyzer.calculate_collision_risk vertiport off_the_map
      [Analyzer.mkObstacle None None; Analyzer.mkObstacle (Some 23.12) (Some 113.32)]
    = Ok r /\
    Analyzer.risk_level r = Analyzer.SegmentRisk.LOW.
Proof.
  destruct (X17_collision_risk_level vertiport off_the_map
              [Analyzer.mkObstacle None None;
               Analyzer.mkObstacle (Some 23.12) (Some 113.32)])
    as (r & Hr & Hlow & _).
  exists r. split; [exact Hr |]. apply Hlow. simpl. lia.
Defined.

(** ** The ground impact risk *)

Section GroundImpact.

Import Analyzer.

Lemma theta_value (h : R) : math_atan2 h 100 = atan (h / 100).
Proof.
  unfold math_atan2. destruct (Rlt_dec 0 100); [reflexivity | lra].
Qed.

Lemma theta_pos (h : R) : 0 < atan (h / 100) <-> 0 < h.
Proof.
  rewrite <- atan_0 at 1. split; intros H.
  - destruct (Rle_lt_dec h 0) as [Hle | Hlt]; [| exact Hlt]. exfalso.
    destruct Hle as [Hneg | ->].
    + assert (atan (h / 100) < atan 0) by (apply atan_increasing; lra). lra.
    + replace (0 / 100) with 0 in H by field. lra.
  - apply atan_increasing. lra.
Qed.

Lemma ground_impact_value (drone_position : Position) (population_density : R) :
  let h := height drone_position in
  let A_exp := if Rlt_dec 0 h then 850 / h + 6.25 * PI else 6.25 * PI in
  let P_impact := population_density * A_exp / 1000 in
  let ground_effect := if Rlt_dec h 100 then 3 * (1 - h / 100) else 0 in
  calculate_ground_impact_risk drone_position population_density =
  Ok {| impact_probability := P_impact;
        exposure_area := A_exp;
        height_factor := exp (- h / 100);
        ground_effect := ground_effect;
        total_ground_risk :=
          Py.min (P_impact * exp (- h / 100) * (1 + ground_effect / 10)) 1 |}.
Proof.
  cbv zeta. unfold calculate_ground_impact_risk. cbv zeta.
  rewrite theta_value. unfold GROUND_EFFECT_THRESHOLD.
  destruct (Rlt_dec 0 (atan (height drone_position / 100))) as [Ht | Ht].
  - assert (Hh : 0 < height drone_position) by (apply theta_pos; exact Ht).
    destruct (Rlt_dec 0 (height drone_position)); [| contradiction].
    rewrite tan_atan, div_nonzero by lra. cbn [bind].
    assert (Ha : 2 * (0.5 + 2) * 1.7 / (height drone_position / 100) +
                 PI * (2 + 0.5) ^ 2 =
                 850 / height drone_position + 6.25 * PI).
    { unfold Rdiv at 1 2. rewrite Rinv_mult, Rinv_inv. unfold Rdiv. simpl.
      set (x := / height drone_position). set (y := PI). lra. }
    rewrite Ha. reflexivity.
  - destruct (Rlt_dec 0 (height drone_position)) as [Hh | Hh].
    + exfalso. apply Ht. apply theta_pos. exact Hh.
    + cbn [bind].
      assert (Ha : PI * (2 + 0.5) ^ 2 = 6.25 * PI)
        by (simpl; set (y := PI); lra).
      rewrite Ha. reflexivity.
Qed.

End GroundImpact.

(** X18: [calculate_ground_impact_risk] never divides by zero, and its
    exposure area has a closed form: [850 / height + 6.25 PI] square metres
    above the ground, and [6.25 PI] at or below it. *)
Theorem X18_exposure_area (drone_position : Position) (population_density : R) :
  exists r,
    Analyzer.calculate_ground_impact_risk drone_position population_density = Ok r /\
    (0 < height drone_position ->
       Analyzer.exposure_area r = 850 / height drone_position + 6.25 * PI) /\
    (height drone_position <= 0 -> Analyzer.exposure_area r = 6.25 * PI) /\
    Analyzer.impact_probability r =
      population_density * Analyzer.exposure_area r / 1000.
Proof.
  eexists. split; [apply ground_impact_value |]. simpl.
  destruct (Rlt_dec 0 (height drone_position)); repeat split; intros; lra.
Qed.

Lemma X18_exposure_area_witness :
  exists r,
    Analyzer.calculate_ground_impact_risk vertiport 0.5 = Ok r /\
    Analyzer.exposure_area r = 850 / 120 + 6.25 * PI.
Proof.
  destruct (X18_exposure_area vertiport 0.5) as (r & Hr & Hpos & _).
  exists r. split; [exact Hr |]. apply Hpos. simpl. lra.
Defined.

Lemma min_one_bounds (x : R) : 0 <= x -> 0 <= Py.min x 1 <= 1.
Proof.
  intros Hx. unfold Py.min. destruct (Rlt_dec 1 x); lra.
Qed.

(** X19: for a population density that is not negative the total ground
    risk lies in [0, 1], at every height; the exposure area is positive; the
    ground effect is 0 from [GROUND_EFFECT_THRESHOLD] up and positive below
    it. *)
Theorem X19_ground_risk_bounds (drone_position : Position) (population_density : R) :
  0 <= population_density ->
  exists r,
    Analyzer.calculate_ground_impact_risk drone_position population_density = Ok r /\
    0 <= Analyzer.total_ground_risk r <= 1 /\
    0 < Analyzer.exposure_area r /\
    0 < Analyzer.height_factor r /\
    (Analyzer.GROUND_EFFECT_THRESHOLD <= height drone_position ->
       Analyzer.ground_effect r = 0) /\
    (height drone_position < Analyzer.GROUND_EFFECT_THRESHOLD ->
       0 < Analyzer.ground_effect r).
Proof.
  intros Hd. eexists. split; [apply ground_impact_value |]. simpl.
  set (h := height drone_position). pose proof PI_RGT_0 as HPI.
  pose proof (exp_pos (- h / 100)) as Hexp.
  set (A := if Rlt_dec 0 h then 850 / h + 6.25 * PI else 6.25 * PI).
  assert (HA : 0 < A).
  { unfold A. destruct (Rlt_dec 0 h) as [Hh | Hh]; [| lra].
    assert (0 < 850 / h) by (apply Rdiv_lt_0_compat; lra). lra. }
  set (ge := if Rlt_dec h 100 then 3 * (1 - h / 100) else 0).
  assert (Hge : 0 <= ge) by (unfold ge; destruct (Rlt_dec h 100); lra).
  assert (HP : 0 <= population_density * A / 1000).
  { unfold Rdiv. apply Rmult_le_pos; [apply Rmult_le_pos |]; lra. }
  assert (Hf : 0 <= population_density * A / 1000 * exp (- h / 100)
                    * (1 + ge / 10)).
  { apply Rmult_le_pos; [apply Rmult_le_pos |]; lra. }
  unfold Analyzer.GROUND_EFFECT_THRESHOLD.
  split; [exact (min_one_bounds _ Hf) |].
  split; [exact HA |]. split; [exact Hexp |].
  unfold ge. split; intros Hh; destruct (Rlt_dec h 100); lra.
Qed.

Lemma X19_ground_risk_bounds_witness :
  exists r,
    Analyzer.calculate_ground_impact_risk vertiport 0.8 = Ok r /\
    0 <= Analyzer.total_ground_risk r <= 1.
Proof.
  destruct (X19_ground_risk_bounds vertiport 0.8) as (r & Hr & Hb & _).
  - lra.
  - exists r. split; assumption.
Defined.

(** ** The length of a route *)

Section RouteLength.

Lemma route_length_loop_value (route : list Position) :
  forall acc,
    Capacity.route_length_loop route acc = Ok (acc + path_length route).
Proof.
  induction route as [| p1 rest IH]; intros acc.
  - simpl. rewrite Rplus_0_r. reflexivity.
  - destruct rest as [| p2 rest'].
    + simpl. rewrite Rplus_0_r. reflexivity.
    + change (Capacity.route_length_loop (p1 :: p2 :: rest') acc)
        with (bind (_haversine_distance (latitude p1) (longitude p1)
                                        (latitude p2) (longitude p2))
                   (fun distance =>
                      Capacity.route_length_loop (p2 :: rest') (acc + distance))).
      rewrite haversine_value. cbn [bind]. rewrite IH.
      change (path_length (p1 :: p2 :: rest'))
        with (haversine_m (latitude p1) (longitude p1)
                          (latitude p2) (longitude p2) +
              path_length (p2 :: rest')).
      f_equal. ring.
Qed.

Lemma calculate_route_length_value (route : list Position) :
  Capacity._calculate_route_length route = Ok (path_length route).
Proof.
  unfold Capacity._calculate_route_length.
  rewrite route_length_loop_value, Rplus_0_l. reflexivity.
Qed.

Lemma path_length_nonneg (route : list Position) : 0 <= path_length route.
Proof.
  induction route as [| p1 rest IH]; [simpl; lra |].
  destruct rest as [| p2 rest']; [simpl; lra |].
  change (path_length (p1 :: p2 :: rest'))
    with (haversine_m (latitude p1) (longitude p1)
                      (latitude p2) (longitude p2) +
          path_length (p2 :: rest')).
  pose proof (haversine_m_bounds (latitude p1) (longitude p1)
                (latitude p2) (longitude p2)).
  lra.
Qed.

(** A route cut at one of its points: the two parts add up. *)
Lemma path_length_app (l1 l2 : list Position) (p : Position) :
  path_length (l1 ++ p :: l2) = path_length (l1 ++ [p]) + path_length (p :: l2).
Proof.
  induction l1 as [| a l1 IH].
  - simpl. ring.
  - destruct l1 as [| b l1'].
    + simpl. ring.
    + change (path_length ((a :: b :: l1') ++ p :: l2))
        with (haversine_m (latitude a) (longitude a) (latitude b) (longitude b) +
              path_length ((b :: l1') ++ p :: l2)).
      change (path_length ((a :: b :: l1') ++ [p]))
        with (haversine_m (latitude a) (longitude a) (latitude b) (longitude b) +
              path_length ((b :: l1') ++ [p])).
      rewrite IH. ring.
Qed.

End RouteLength.

(** X20: the length of a route is built leg by leg, from the first point to
    the last.  A route of fewer than two points has length 0; a route of
    two points has the same length in both directions; and appending a
    point [p] to a route that ends in [q] adds the distance from [q] to [p]
    to its length, which is never negative and so never decreases. *)
Theorem X20_route_length_leg_by_leg (route : list Position) (q p : Position) :
  Capacity._calculate_route_length [] = Ok 0 /\
  Capacity._calculate_route_length [p] = Ok 0 /\
  Capacity._calculate_route_length [q; p] =
    Capacity._calculate_route_length [p; q] /\
  exists len d,
    Capacity._calculate_route_length (route ++ [q]) = Ok len /\
    _haversine_distance (latitude q) (longitude q) (latitude p) (longitude p)
      = Ok d /\
    Capacity._calculate_route_length (route ++ [q; p]) = Ok (len + d) /\
    0 <= len <= len + d.
Proof.
  rewrite !calculate_route_length_value.
  split; [reflexivity |]. split; [reflexivity |]. split.
  - simpl. rewrite (haversine_m_sym (latitude q)). reflexivity.
  - exists (path_length (route ++ [q])),
           (haversine_m (latitude q) (longitude q) (latitude p) (longitude p)).
    split; [reflexivity |]. split; [apply haversine_value |]. split.
    + rewrite (path_length_app route [p] q). simpl. do 2 f_equal. ring.
    + pose proof (path_length_nonneg (route ++ [q])).
      pose proof (haversine_m_bounds (latitude q) (longitude q)
                                     (latitude p) (longitude p)).
      lra.
Qed.

(** ** The capacity of a route *)

(** [int] of a number that is not negative is its floor. *)
Lemma int_floor (x : R) :
  0 <= x -> (0 <= int x)%Z /\ IZR (int x) <= x < IZR (int x) + 1.
Proof.
  intros Hx. unfold int. destruct (Rle_dec 0 x); [| contradiction].
  destruct (base_Int_part x) as [Hlo Hhi].
  split; [| lra].
  assert (Hgt : IZR (-1) < IZR (Int_part x)) by (simpl; lra).
  apply lt_IZR in Hgt. lia.
Qed.

(** X22: the metrics of [calculate_route_capacity], for every route and
    width.  The aircraft count is the number of 60 m slots that fit in the
    route length; the hourly throughput lies between 0 and 833, and is 0
    when no aircraft fits; the density limit is not negative; the length in
    kilometres is the length in metres over 1000. *)
Theorem X22_route_capacity_metrics (route : list Position) (route_width : R) :
  exists len m,
    Capacity._calculate_route_length route = Ok len /\
    Capacity.calculate_route_capacity route route_width = Ok m /\
    Capacity.route_length_km m * 1000 = len /\
    (0 <= Capacity.max_aircraft_count m)%Z /\
    IZR (Capacity.max_aircraft_count m) * 60 <= len /\
    (0 < len -> len < (IZR (Capacity.max_aircraft_count m) + 1) * 60) /\
    (0 <= Capacity.throughput_per_hour m <= 833)%Z /\
    (Capacity.max_aircraft_count m = 0%Z -> Capacity.throughput_per_hour m = 0%Z) /\
    (0 <= Capacity.density_limit m)%Z.
Proof.
  exists (path_length route).
  pose proof (path_length_nonneg route) as Hlen.
  unfold Capacity.calculate_route_capacity.
  rewrite calculate_route_length_value. cbn [bind]. cbv zeta.
  set (L := path_length route) in *.
  assert (Hden : (0 <= (if Rlt_dec 0 (L / 1000 * (route_width / 1000))
                        then int (Capacity.max_density *
                                  (L / 1000 * (route_width / 1000)))
                        else 0))%Z).
  { destruct (Rlt_dec 0 _) as [Ha | Ha]; [| lia].
    apply int_floor. unfold Capacity.max_density. lra. }
  destruct (Rlt_dec 0 L) as [Hpos | Hpos].
  - assert (Hslots : L / (Capacity.safety_separation + Capacity.aircraft_length)
                     = L / 60).
    { unfold Capacity.safety_separation, Capacity.aircraft_length.
      replace (50 + 10) with 60 by ring. reflexivity. }
    rewrite Hslots.
    destruct (int_floor (L / 60)) as (Hn0 & Hn1 & Hn2); [lra |].
    set (n := int (L / 60)) in *.
    assert (Htt : Capacity.travel_time L = L / 50000).
    { unfold Capacity.travel_time, Capacity.avg_speed. field. }
    rewrite Htt.
    destruct (Rlt_dec 0 (L / 50000)) as [Ht | Ht]; [| exfalso; lra].
    rewrite div_nonzero by lra. cbn [bind].
    assert (Hn : 0 <= IZR n) by (apply IZR_le in Hn0; exact Hn0).
    assert (Hq : IZR n / (L / 50000) = IZR n * 50000 / L) by (field; lra).
    assert (Hq0 : 0 <= IZR n / (L / 50000)).
    { rewrite Hq. unfold Rdiv. apply Rmult_le_pos; [lra |].
      left. apply Rinv_0_lt_compat. exact Hpos. }
    assert (Hq1 : IZR n / (L / 50000) < 834).
    { rewrite Hq. apply Rmult_lt_reg_r with L; [exact Hpos |].
      unfold Rdiv. rewrite Rmult_assoc, Rinv_l by lra. lra. }
    destruct (int_floor (IZR n / (L / 50000)) Hq0) as (Ht0 & Ht1 & Ht2).
    eexists. split; [reflexivity |]. split; [reflexivity |]. simpl.
    split; [field |]. split; [exact Hn0 |]. split; [lra |].
    split; [intros _; lra |]. split; [| split; [| exact Hden]].
    + split; [exact Ht0 |].
      assert (Hlt : IZR (int (IZR n / (L / 50000))) < IZR 834) by (simpl; lra).
      apply lt_IZR in Hlt. lia.
    + intros Hz. rewrite Hz in *. unfold Rdiv at 1. rewrite Rmult_0_l.
      unfold int. destruct (Rle_dec 0 0); [| lra].
      symmetry. apply Int_part_spec. simpl. lra.
  - cbn [bind]. eexists. split; [reflexivity |]. split; [reflexivity |]. simpl.
    split; [field |]. split; [lia |]. split; [lra |].
    split; [intros Hc; lra |]. split; [lia |]. split; [reflexivity | exact Hden].
Qed.

Lemma X22_route_capacity_metrics_witness :
  exists m,
    Capacity.calculate_route_capacity
      [ {| longitude := 113; latitude := 23; height := 100 |};
        {| longitude := 113; latitude := 23 + 1; height := 100 |} ] 100 = Ok m /\
    IZR (Capacity.max_aircraft_count m) * 60 <= 6371000 * math_radians 1
      < (IZR (Capacity.max_aircraft_count m) + 1) * 60.
Proof.
  destruct (X22_route_capacity_metrics
              [ {| longitude := 113; latitude := 23; height := 100 |};
                {| longitude := 113; latitude := 23 + 1; height := 100 |} ] 100)
    as (len & m & Hlen & Hm & _ & _ & Hlo & Hhi & _).
  assert (Hv : len = 6371000 * math_radians 1).
  { rewrite calculate_route_length_value in Hlen. injection Hlen as <-.
    simpl path_length. rewrite Rplus_0_r.
    assert (Hx : 0 <= math_radians 1 / 2 <= PI / 2).
    { unfold math_radians. pose proof PI_RGT_0. split; lra. }
    rewrite (haversine_of_half_angle _ _ _ _ (math_radians 1 / 2) Hx).
    - f_equal. field.
    - unfold haversine_a.
      replace (23 + 1 - 23) with 1 by ring.
      replace (math_radians (113 - 113) / 2) with 0
        by (unfold math_radians; field).
      rewrite sin_0. ring. }
  exists m. split; [exact Hm |]. rewrite <- Hv. split; [exact Hlo |].
  apply Hhi. rewrite Hv. unfold math_radians. pose proof PI_RGT_0. lra.
Defined.

(** ** The intersections of routes *)

Section Intersections.

Import Capacity.

Lemma check_intersection_value (i j : nat) (p1 p2 : Position)
    (l : list Intersection) :
  check_intersection i j p1 p2 l = Ok (l ++ point_intersections i j p1 p2).
Proof.
  unfold check_intersection, point_intersections, nearb, ltb.
  rewrite haversine_value. cbn [bind].
  destruct (Rlt_dec _ 100).
  - reflexivity.
  - rewrite app_nil_r. reflexivity.
Qed.

Lemma loop_point2_value (i j : nat) (p1 : Position) (route_j : list Position) :
  forall l,
    loop_point2 i j p1 route_j l =
    Ok (l ++ flat_map (point_intersections i j p1) route_j).
Proof.
  induction route_j as [| p2 rest IH]; intros l; simpl.
  - rewrite app_nil_r. reflexivity.
  - rewrite check_intersection_value. cbn [bind].
    rewrite IH, <- app_assoc. reflexivity.
Qed.

Lemma loop_point1_value (i j : nat) (route_i route_j : list Position) :
  forall l,
    loop_point1 i j route_i route_j l =
    Ok (l ++ route_pair_intersections i j route_i route_j).
Proof.
  unfold route_pair_intersections.
  induction route_i as [| p1 rest IH]; intros l; simpl.
  - rewrite app_nil_r. reflexivity.
  - rewrite loop_point2_value. cbn [bind].
    rewrite IH, <- app_assoc. reflexivity.
Qed.

Lemma loop_route_j_value (i : nat) (route_i : list Position)
    (rest : list (list Position)) :
  forall j l,
    loop_route_j i route_i j rest l =
    Ok (l ++ j_intersections i route_i j rest).
Proof.
  induction rest as [| route_j rest IH]; intros j l; simpl.
  - rewrite app_nil_r. reflexivity.
  - rewrite loop_point1_value. cbn [bind].
    rewrite IH, <- app_assoc. reflexivity.
Qed.

Lemma loop_route_i_value (routes : list (list Position)) :
  forall i l,
    loop_route_i i routes l = Ok (l ++ all_intersections i routes).
Proof.
  induction routes as [| route_i rest IH]; intros i l; simpl.
  - rewrite app_nil_r. reflexivity.
  - rewrite loop_route_j_value. cbn [bind].
    rewrite IH, <- app_assoc. reflexivity.
Qed.

Lemma find_route_intersections_value (routes : list (list Position)) :
  _find_route_intersections routes = Ok (all_intersections 0 routes).
Proof.
  unfold _find_route_intersections. apply loop_route_i_value.
Qed.

Lemma in_route_pair_intersections (i j : nat) (route_i route_j : list Position)
    (x : Intersection) :
  In x (route_pair_intersections i j route_i route_j) <->
  exists p1 p2,
    In p1 route_i /\ In p2 route_j /\ near p1 p2 /\
    x = intersection_of i j p1 p2.
Proof.
  unfold route_pair_intersections. rewrite in_flat_map. split.
  - intros (p1 & H1 & Hx). apply in_flat_map in Hx as (p2 & H2 & Hx).
    unfold point_intersections in Hx.
    destruct (nearb p1 p2) eqn:Hn; [| destruct Hx].
    destruct Hx as [<- | []]. exists p1, p2.
    apply ltb_lt in Hn. auto.
  - intros (p1 & p2 & H1 & H2 & Hn & ->). exists p1. split; [exact H1 |].
    apply in_flat_map. exists p2. split; [exact H2 |].
    unfold point_intersections, nearb. apply ltb_lt in Hn. rewrite Hn.
    left. reflexivity.
Qed.

Lemma in_j_intersections (i : nat) (route_i : list Position) (x : Intersection)
    (rest : list (list Position)) :
  forall j,
    In x (j_intersections i route_i j rest) <->
    exists m route_j p1 p2,
      nth_error rest m = Some route_j /\
      In p1 route_i /\ In p2 route_j /\ near p1 p2 /\
      x = intersection_of i (j + m) p1 p2.
Proof.
  induction rest as [| route_j rest IH]; intros j; simpl.
  - split; [intros [] | intros (m & q & _ & _ & Hm & _)].
    destruct m; discriminate.
  - rewrite in_app_iff, IH, in_route_pair_intersections. split.
    + intros [(p1 & p2 & H1 & H2 & Hn & Hx)
             | (m & q & p1 & p2 & Hm & H1 & H2 & Hn & Hx)].
      * exists 0%nat, route_j, p1, p2. rewrite Nat.add_0_r. auto.
      * exists (S m), q, p1, p2. rewrite Nat.add_succ_r. auto 6.
    + intros (m & q & p1 & p2 & Hm & H1 & H2 & Hn & Hx).
      destruct m as [| m]; simpl in Hm.
      * injection Hm as <-. left. exists p1, p2.
        rewrite Nat.add_0_r in Hx. auto.
      * right. exists m, q, p1, p2. rewrite Nat.add_succ_r in Hx. auto 6.
Qed.

Lemma in_all_intersections (x : Intersection) (routes : list (list Position)) :
  forall i0,
    In x (all_intersections i0 routes) <->
    exists i j route_i route_j p1 p2,
      (i < j)%nat /\
      nth_error routes i = Some route_i /\ nth_error routes j = Some route_j /\
      In p1 route_i /\ In p2 route_j /\ near p1 p2 /\
      x = intersection_of (i0 + i) (i0 + j) p1 p2.
Proof.
  induction routes as [| r rest IH]; intros i0; simpl.
  - split; [intros [] | intros (i & j & ri & rj & p1 & p2 & _ & Hi & _)].
    destruct i; discriminate.
  - rewrite in_app_iff, IH, in_j_intersections. split.
    + intros [(m & rj & p1 & p2 & Hm & H1 & H2 & Hn & Hx)
             | (i & j & ri & rj & p1 & p2 & Hlt & Hi & Hj & H1 & H2 & Hn & Hx)].
      * exists 0%nat, (S m), r, rj, p1, p2. simpl.
        rewrite Nat.add_0_r, Nat.add_succ_r. simpl in Hx.
        repeat split; auto. lia.
      * exists (S i), (S j), ri, rj, p1, p2. simpl.
        rewrite !Nat.add_succ_r. simpl in Hx.
        repeat split; auto. lia.
    + intros (i & j & ri & rj & p1 & p2 & Hlt & Hi & Hj & H1 & H2 & Hn & Hx).
      destruct j as [| j]; [lia |]. simpl in Hj.
      destruct i as [| i]; simpl in Hi.
      * injection Hi as <-. left. exists j, rj, p1, p2.
        rewrite Nat.add_0_r, Nat.add_succ_r in Hx. simpl. auto 6.
      * right. exists i, j, ri, rj, p1, p2.
        rewrite !Nat.add_succ_r in Hx. simpl.
        repeat split; auto. lia.
Qed.

End Intersections.

(** X23: [_find_route_intersections] is sound and complete.  An entry is in
    the list exactly when it records the indices [i < j] of two routes of
    the list and the midpoint of a point of route [i] and a point of route
    [j] that are less than 100 m apart on the ground. *)
Theorem X23_intersections_sound_and_complete (routes : list (list Position)) :
  exists l,
    Capacity._find_route_intersections routes = Ok l /\
    forall x,
      In x l <->
      exists i j route_i route_j p1 p2,
        (i < j)%nat /\
        nth_error routes i = Some route_i /\ nth_error routes j = Some route_j /\
        In p1 route_i /\ In p2 route_j /\ near p1 p2 /\
        x = intersection_of i j p1 p2.
Proof.
  eexists. split; [apply find_route_intersections_value |].
  intros x. rewrite in_all_intersections. simpl. reflexivity.
Qed.

Lemma min_mono (a b c : R) : a <= b -> Py.min a c <= Py.min b c.
Proof.
  intros H. unfold Py.min. destruct (Rlt_dec c a), (Rlt_dec c b); lra.
Qed.

(** X24: the conflict probability.  It is never above 1; it is not negative
    when the traffic density is not negative, and not positive when the
    density is not positive; it does not decrease when the density grows;
    and for fewer than two routes it is 0. *)
Theorem X24_conflict_probability (routes : list (list Position))
    (traffic_density traffic_density' : R) :
  exists p p',
    Capacity.analyze_conflict_probability routes traffic_density = Ok p /\
    Capacity.analyze_conflict_probability routes traffic_density' = Ok p' /\
    p <= 1 /\
    (0 <= traffic_density -> 0 <= p) /\
    (traffic_density <= 0 -> p <= 0) /\
    (traffic_density <= traffic_density' -> p <= p') /\
    ((List.length routes <= 1)%nat -> p = 0).
Proof.
  unfold Capacity.analyze_conflict_probability.
  rewrite find_route_intersections_value. cbn [bind]. cbv zeta.
  do 2 eexists. split; [reflexivity |]. split; [reflexivity |].
  set (n := INR (List.length (all_intersections 0 routes)) * 0.01).
  assert (Hn : 0 <= n).
  { unfold n. pose proof (pos_INR (List.length (all_intersections 0 routes))).
    lra. }
  unfold Capacity.max_density.
  assert (Hf : forall d, Py.min (d / 10) 1 <= 1 /\
                         (0 <= d -> 0 <= Py.min (d / 10) 1) /\
                         (d <= 0 -> Py.min (d / 10) 1 <= 0)).
  { intros d. unfold Py.min. destruct (Rlt_dec 1 (d / 10)); repeat split; lra. }
  destruct (Hf traffic_density) as (Hf1 & Hf2 & Hf3).
  split; [unfold Py.min; destruct (Rlt_dec 1 _); lra |].
  split; [| split; [| split]].
  - intros Hd. apply min_one_bounds. apply Rmult_le_pos; auto.
  - intros Hd. specialize (Hf3 Hd).
    assert (n * Py.min (traffic_density / 10) 1 <= 0) by nra.
    unfold Py.min at 1. destruct (Rlt_dec 1 _); lra.
  - intros Hd. apply min_mono. apply Rmult_le_compat_l; [exact Hn |].
    apply min_mono. lra.
  - intros Hlen. assert (Hz : n = 0).
    { unfold n. destruct routes as [| r [| r' rest]]; simpl in *;
        [lra | lra | lia]. }
    rewrite Hz, Rmult_0_l. unfold Py.min. destruct (Rlt_dec 1 0); lra.
Qed.

Lemma X24_conflict_probability_witness :
  exists p p',
    Capacity.analyze_conflict_probability
      [[vertiport; off_the_map]; [vertiport]] 5 = Ok p /\
    Capacity.analyze_conflict_probability
      [[vertiport; off_the_map]; [vertiport]] 12 = Ok p' /\
    0 <= p <= p' /\ p' <= 1.
Proof.
  destruct (X24_conflict_probability [[vertiport; off_the_map]; [vertiport]] 5 12)
    as (p & p' & Hp & Hp' & _ & Hpos & _ & Hmono & _).
  destruct (X24_conflict_probability [[vertiport; off_the_map]; [vertiport]] 12 12)
    as (q & _ & Hq & _ & Hle & _).
  assert (Heq : q = p') by congruence. subst q.
  exists p, p'. repeat split; try assumption.
  - apply Hpos. lra.
  - apply Hmono. lra.
Defined.

(** ** The safety assessment of a route *)

Section RouteSafety.

Import RouteOptimizer.

Lemma point_to_line_nonneg (o : Analyzer.Obstacle) (p1 p2 : Position) :
  0 <= _point_to_line_distance o p1 p2.
Proof.
  unfold _point_to_line_distance. cbv zeta.
  assert (H : forall a b c d, 0 <= Py.min (Rabs a + Rabs b) (Rabs c + Rabs d)).
  { intros a b c d. pose proof (Rabs_pos a). pose proof (Rabs_pos b).
    pose proof (Rabs_pos c). pose proof (Rabs_pos d).
    unfold Py.min. destruct (Rlt_dec _ _); lra. }
  apply Rmult_le_pos; [apply H | lra].
Qed.

Lemma obstacle_loop_ge (obstacles : list Analyzer.Obstacle) (p1 p2 : Position) :
  forall risk, risk <= obstacle_loop obstacles p1 p2 risk.
Proof.
  induction obstacles as [| o rest IH]; intros risk; simpl; [lra |].
  pose proof (point_to_line_nonneg o p1 p2).
  destruct (Rlt_dec _ 50).
  - eapply Rle_trans; [| apply IH]. lra.
  - apply IH.
Qed.

Lemma segment_risk_bounds (p1 p2 : Position) (obstacles : list Analyzer.Obstacle) :
  0 <= _calculate_segment_risk p1 p2 obstacles <= 1.
Proof.
  unfold _calculate_segment_risk. cbv zeta. apply min_one_bounds.
  eapply Rle_trans; [| apply obstacle_loop_ge].
  repeat destruct (Rlt_dec _ _); lra.
Qed.

Lemma segment_risk_clear (p1 p2 : Position) :
  0 <= _calculate_segment_risk p1 p2 [] <= 0.2.
Proof.
  unfold _calculate_segment_risk. cbv zeta. simpl. unfold Py.min.
  repeat destruct (Rlt_dec _ _); lra.
Qed.

(** The segments of a route, counted: one fewer than its points. *)
Lemma segment_loop_spec (obstacles : list Analyzer.Obstacle) (route : list Position) :
  forall i cr safe risk,
  exists cr' safe' risk',
    segment_loop i route obstacles cr safe risk = (cr', safe', risk') /\
    cr <= cr' <= cr + INR (List.length route - 1) /\
    Permutation (safe' ++ risk')
                ((safe ++ risk) ++ seq i (List.length route - 1)) /\
    (obstacles = [] ->
       cr' <= cr + 0.2 * INR (List.length route - 1) /\
       safe' = safe ++ seq i (List.length route - 1) /\ risk' = risk).
Proof.
  induction route as [| p1 rest IH]; intros i cr safe risk.
  - exists cr, safe, risk. simpl. rewrite app_nil_r.
    repeat split; try lra; auto. rewrite app_nil_r. reflexivity.
  - destruct rest as [| p2 rest'].
    + exists cr, safe, risk. simpl. rewrite app_nil_r.
      repeat split; try lra; auto. rewrite app_nil_r. reflexivity.
    + change (segment_loop i (p1 :: p2 :: rest') obstacles cr safe risk)
        with (let segment_risk := _calculate_segment_risk p1 p2 obstacles in
              segment_loop (S i) (p2 :: rest') obstacles (cr + segment_risk)
                (if Rlt_dec segment_risk 0.3 then safe ++ [i] else safe)
                (if Rlt_dec segment_risk 0.3 then risk else risk ++ [i])).
      cbv zeta.
      pose proof (segment_risk_bounds p1 p2 obstacles) as Hb.
      set (r := _calculate_segment_risk p1 p2 obstacles) in *.
      destruct (IH (S i) (cr + r)
                   (if Rlt_dec r 0.3 then safe ++ [i] else safe)
                   (if Rlt_dec r 0.3 then risk else risk ++ [i]))
        as (cr' & safe' & risk' & Hl & Hcr & Hperm & Hclear).
      exists cr', safe', risk'. split; [exact Hl |].
      assert (Hlen : (List.length (p1 :: p2 :: rest') - 1 =
                      S (List.length (p2 :: rest') - 1))%nat)
        by (simpl; lia).
      rewrite Hlen, S_INR.
      set (m := (List.length (p2 :: rest') - 1)%nat) in *.
      change (seq i (S m)) with (i :: seq (S i) m).
      split; [lra |]. split.
      * eapply Permutation_trans; [exact Hperm |].
        destruct (Rlt_dec r 0.3).
        -- rewrite <- !app_assoc. apply Permutation_app_head. simpl.
           apply Permutation_middle.
        -- rewrite <- !app_assoc. simpl. reflexivity.
      * intros Hobs. destruct (Hclear Hobs) as (Hc1 & Hs & Hr).
        assert (Hr2 : r <= 0.2).
        { unfold r. rewrite Hobs. apply segment_risk_clear. }
        destruct (Rlt_dec r 0.3); [| lra].
        split; [lra |]. split; [| exact Hr].
        rewrite Hs, <- app_assoc. reflexivity.
Qed.

Lemma exp_le_1 (x : R) : x <= 0 -> exp x <= 1.
Proof.
  intros [Hlt | ->].
  - rewrite <- exp_0. left. apply exp_increasing. exact Hlt.
  - rewrite exp_0. lra.
Qed.

Lemma ground_risk_loop_bounds (route : list Position) :
  forall acc,
    acc <= ground_risk_loop route acc /\
    (Forall (fun p => 0 <= height p) route ->
     ground_risk_loop route acc <= acc + 0.8 * INR (List.length route)).
Proof.
  induction route as [| p rest IH]; intros acc.
  - simpl. split; [lra | intros _; lra].
  - change (ground_risk_loop (p :: rest) acc)
      with (ground_risk_loop rest
              (acc + (if in_city_centre p then 0.8 else 0.4) *
                     exp (- height p / 100))).
    pose proof (exp_pos (- height p / 100)) as Hexp.
    destruct (IH (acc + (if in_city_centre p then 0.8 else 0.4) *
                        exp (- height p / 100))) as [Hlo Hhi].
    change (List.length (p :: rest)) with (S (List.length rest)).
    rewrite S_INR. split.
    + destruct (in_city_centre p); nra.
    + intros Hall. inversion Hall as [| ? ? Hp Hrest]; subst.
      specialize (Hhi Hrest).
      assert (Hle : exp (- height p / 100) <= 1) by (apply exp_le_1; lra).
      destruct (in_city_centre p); nra.
Qed.

Lemma calculate_ground_risk_bounds (route : list Position) :
  exists g,
    _calculate_ground_risk route = Ok g /\ 0 <= g /\
    (Forall (fun p => 0 <= height p) route -> g <= 0.8).
Proof.
  unfold _calculate_ground_risk. cbv zeta.
  destruct route as [| p rest].
  - exists 0. split; [reflexivity |]. split; [lra | intros _; lra].
  - destruct (ground_risk_loop_bounds (p :: rest) 0) as [Hlo Hhi].
    set (g := ground_risk_loop (p :: rest) 0) in *.
    assert (Hn : 0 < INR (List.length (p :: rest))) by (apply lt_0_INR; simpl; lia).
    rewrite div_nonzero by lra.
    eexists. split; [reflexivity |]. split.
    + unfold Rdiv. apply Rmult_le_pos; [exact Hlo |].
      left. apply Rinv_0_lt_compat. exact Hn.
    + intros Hall. specialize (Hhi Hall).
      apply Rmult_le_reg_r with (INR (List.length (p :: rest))); [exact Hn |].
      unfold Rdiv. rewrite Rmult_assoc, Rinv_l by lra. lra.
Qed.

(** The average of the segment risks. *)
Lemma average_bounds (n : nat) (cr c : R) :
  0 <= c -> 0 <= cr <= c * INR (n - 1) ->
  exists a,
    (if (1 <? n)%nat then div cr (INR n - 1) else Ok cr) = Ok a /\
    0 <= a <= c.
Proof.
  intros Hc Hcr. destruct (Nat.ltb_spec 1 n) as [Hn | Hn].
  - assert (Hm : INR (n - 1) = INR n - 1).
    { rewrite minus_INR by lia. reflexivity. }
    assert (Hpos : 0 < INR n - 1).
    { rewrite <- Hm. apply lt_0_INR. lia. }
    rewrite div_nonzero by lra. eexists. split; [reflexivity |]. split.
    + unfold Rdiv. apply Rmult_le_pos; [lra |].
      left. apply Rinv_0_lt_compat. exact Hpos.
    + apply Rmult_le_reg_r with (INR n - 1); [exact Hpos |].
      unfold Rdiv. rewrite Rmult_assoc, Rinv_l by lra. rewrite <- Hm. lra.
  - assert (Hz : (n - 1 = 0)%nat) by lia. rewrite Hz in Hcr. simpl in Hcr.
    exists cr. split; [reflexivity |]. lra.
Qed.

End RouteSafety.

(** X28: [validate_route_safety] returns for every route and every list of
    obstacles.  Each segment index from 0 to [len(route) - 2] is filed
    exactly once, under [safe_segments] or under [risk_segments]; the
    collision risk lies in [0, 1]; the ground risk is not negative; and
    [is_safe] holds exactly when the total risk is below 0.5. *)
Theorem X28_route_safety_assessment (route : list Position)
    (obstacles : option (list Analyzer.Obstacle)) :
  exists a,
    RouteOptimizer.validate_route_safety route obstacles = Ok a /\
    Permutation (RouteOptimizer.safe_segments a ++ RouteOptimizer.risk_segments a)
                (seq 0 (List.length route - 1)) /\
    0 <= RouteOptimizer.collision_risk a <= 1 /\
    0 <= RouteOptimizer.ground_risk a /\
    RouteOptimizer.total_risk a =
      RouteOptimizer.collision_risk a * 0.6 + RouteOptimizer.ground_risk a * 0.4 /\
    (RouteOptimizer.is_safe a = true <-> RouteOptimizer.total_risk a < 0.5).
Proof.
  unfold RouteOptimizer.validate_route_safety. cbv zeta.
  set (obs := match obstacles with None => [] | Some l => l end).
  destruct (segment_loop_spec obs route 0 0 [] [])
    as (cr & safe & risk & Hl & Hcr & Hperm & _).
  rewrite Hl.
  destruct (average_bounds (List.length route) cr 1) as (avg & Ha & Hab);
    [lra | lra |].
  rewrite Ha. cbn [bind].
  destruct (calculate_ground_risk_bounds route) as (g & Hg & Hg0 & _).
  rewrite Hg. cbn [bind].
  eexists. split; [reflexivity |]. simpl.
  split; [exact Hperm |]. split; [exact Hab |]. split; [exact Hg0 |].
  split; [reflexivity | apply ltb_lt].
Qed.

(** X29: a route without obstacles is always safe.  When no obstacle is
    given, or an empty list, and no point of the route is below the ground,
    every segment is filed under [safe_segments], none under
    [risk_segments], the total risk is below 0.5 and [is_safe] is true. *)
Theorem X29_route_without_obstacles_is_safe (route : list Position)
    (obstacles : option (list Analyzer.Obstacle)) :
  obstacles = None \/ obstacles = Some [] ->
  Forall (fun p => 0 <= height p) route ->
  exists a,
    RouteOptimizer.validate_route_safety route obstacles = Ok a /\
    RouteOptimizer.is_safe a = true /\
    RouteOptimizer.safe_segments a = seq 0 (List.length route - 1) /\
    RouteOptimizer.risk_segments a = [] /\
    RouteOptimizer.total_risk a < 0.5.
Proof.
  intros Hobs Hall. unfold RouteOptimizer.validate_route_safety. cbv zeta.
  assert (Hnil : match obstacles with None => [] | Some l => l end = [])
    by (destruct Hobs as [-> | ->]; reflexivity).
  rewrite Hnil.
  destruct (segment_loop_spec [] route 0 0 [] [])
    as (cr & safe & risk & Hl & Hcr & _ & Hclear).
  destruct (Hclear eq_refl) as (Hc & -> & ->).
  rewrite Hl.
  destruct (average_bounds (List.length route) cr 0.2) as (avg & Ha & Hab);
    [lra | lra |].
  rewrite Ha. cbn [bind].
  destruct (calculate_ground_risk_bounds route) as (g & Hg & Hg0 & Hg1).
  specialize (Hg1 Hall). rewrite Hg. cbn [bind].
  eexists. split; [reflexivity |]. simpl.
  split; [apply ltb_lt; lra |]. repeat split; try lra.
Qed.

Lemma X29_route_without_obstacles_is_safe_witness :
  exists a,
    RouteOptimizer.validate_route_safety [vertiport; vertiport; vertiport] None
      = Ok a /\
    RouteOptimizer.is_safe a = true /\
    RouteOptimizer.safe_segments a = [0; 1]%nat.
Proof.
  destruct (X29_route_without_obstacles_is_safe
              [vertiport; vertiport; vertiport] None)
    as (a & Ha & Hs & Hseg & _).
  - left. reflexivity.
  - repeat constructor; simpl; lra.
  - exists a. repeat split; assumption.
Defined.

(** ** The ground risk evaluator *)

Section GroundRiskEvaluator.

Import GroundRisk.

Lemma uav_params_cases (uav_type : string) :
  uav_params uav_type = small \/ uav_params uav_type = medium \/
  uav_params uav_type = large.
Proof.
  unfold uav_params. repeat destruct (String.eqb _ _); auto.
Qed.

Lemma impact_area_value (h : R) (uav : UavParams) :
  _calculate_impact_area h uav = Ok (PI * (h + h * 0.1 + radius uav) ^ 2).
Proof.
  unfold _calculate_impact_area. cbv zeta.
  assert (Hangle : math_radians 45 = PI / 4) by (unfold math_radians; field).
  rewrite Hangle, tan_PI4, div_nonzero by lra. cbn [bind].
  do 2 f_equal. unfold Rdiv. rewrite Rinv_1. ring.
Qed.

Lemma severity_value (h : R) (uav : UavParams) :
  (h < 0 -> _calculate_severity h uav = Raise ValueError) /\
  (0 <= h ->
   _calculate_severity h uav =
   Ok (Py.min (0.5 * weight uav * (2 * 9.8 * h) / 10000) 1)).
Proof.
  unfold _calculate_severity, math_sqrt. split; intros Hh.
  - destruct (Rlt_dec (2 * 9.8 * h) 0); [reflexivity | lra].
  - destruct (Rlt_dec (2 * 9.8 * h) 0); [lra |]. cbn [bind]. cbv zeta.
    rewrite pow2_sqrt by lra. reflexivity.
Qed.

(** The barriers add up to less than the cap of 0.8, which never applies. *)
Lemma mitigation_value (position : Position) :
  _calculate_mitigation_effect position =
  (if Rlt_dec 50 (height position) then 0 + 0.3 else 0) + 0.2 + 0.1.
Proof.
  unfold _calculate_mitigation_effect. cbv zeta. unfold Py.min.
  destruct (Rlt_dec 50 (height position)); destruct (Rlt_dec 0.8 _);
    try reflexivity; lra.
Qed.

End GroundRiskEvaluator.

(** X30: [evaluate_ground_risk].  Below the ground it raises [ValueError],
    from the square root of a negative number.  At a height that is not
    negative it returns, for every aircraft type, known or not: the impact
    area is [PI (height + 0.1 height + radius) ^ 2], the impact probability,
    the severity and the total risk lie in [0, 1], the mitigation factor is
    the sum of the barriers, [0.2 + 0.1], with [0.3] more above 50 m, a
    number between 0.3 and 0.6 that the cap of 0.8 never touches, and the
    mitigated risk is the total risk reduced by that factor. *)
Theorem X30_evaluate_ground_risk (position : Position) (uav_type : string) :
  (height position < 0 ->
     GroundRisk.evaluate_ground_risk position uav_type = Raise ValueError) /\
  (0 <= height position ->
   exists r,
     GroundRisk.evaluate_ground_risk position uav_type = Ok r /\
     GroundRisk.impact_area_m2 r =
       PI * (height position + height position * 0.1 +
             GroundRisk.radius (GroundRisk.uav_params uav_type)) ^ 2 /\
     0 <= GroundRisk.impact_probability r <= 1 /\
     0 <= GroundRisk.severity_score r <= 1 /\
     0 <= GroundRisk.total_risk r <= 1 /\
     GroundRisk.mitigation_factor r =
       (if Rlt_dec 50 (height position) then 0 + 0.3 else 0) + 0.2 + 0.1 /\
     0.3 <= GroundRisk.mitigation_factor r <= 0.6 /\
     GroundRisk.mitigated_risk r =
       GroundRisk.total_risk r * (1 - GroundRisk.mitigation_factor r) /\
     0 <= GroundRisk.mitigated_risk r <= GroundRisk.total_risk r).
Proof.
  unfold GroundRisk.evaluate_ground_risk. cbv zeta.
  rewrite impact_area_value. cbn [bind].
  destruct (severity_value (height position) (GroundRisk.uav_params uav_type))
    as [Hneg Hpos].
  split; intros Hh.
  - rewrite (Hneg Hh). reflexivity.
  - rewrite (Hpos Hh). cbn [bind]. eexists. split; [reflexivity |].
    cbn [GroundRisk.impact_area_m2 GroundRisk.impact_probability
         GroundRisk.severity_score GroundRisk.total_risk
         GroundRisk.mitigation_factor GroundRisk.mitigated_risk].
    rewrite mitigation_value.
    set (area := PI * (height position + height position * 0.1 +
                       GroundRisk.radius (GroundRisk.uav_params uav_type)) ^ 2).
    assert (Harea : 0 <= area).
    { unfold area. pose proof PI_RGT_0. apply Rmult_le_pos; [lra |].
      apply pow2_ge_0. }
    assert (Hdens : 0 <= GroundRisk._get_population_density
                           (longitude position) (latitude position)).
    { unfold GroundRisk._get_population_density. destruct (_ && _); lra. }
    assert (Hp : 0 <= GroundRisk._calculate_impact_probability area
                        (GroundRisk._get_population_density
                           (longitude position) (latitude position)) <= 1).
    { unfold GroundRisk._calculate_impact_probability. cbv zeta.
      apply min_one_bounds. apply Rmult_le_pos; [| lra].
      apply Rmult_le_pos; assumption. }
    assert (Hw : 0 <= GroundRisk.weight (GroundRisk.uav_params uav_type)).
    { destruct (uav_params_cases uav_type) as [-> | [-> | ->]]; simpl; lra. }
    assert (Hs : 0 <= Py.min (0.5 * GroundRisk.weight
                                      (GroundRisk.uav_params uav_type) *
                              (2 * 9.8 * height position) / 10000) 1 <= 1).
    { apply min_one_bounds. unfold Rdiv.
      apply Rmult_le_pos; [| lra]. apply Rmult_le_pos; [| lra].
      apply Rmult_le_pos; [lra | exact Hw]. }
    set (P := GroundRisk._calculate_impact_probability area _) in *.
    set (S := Py.min _ 1) in *.
    split; [reflexivity |]. split; [exact Hp |]. split; [exact Hs |].
    assert (Ht : 0 <= P * S <= 1) by nra.
    set (T := P * S) in *.
    split; [exact Ht |]. split; [reflexivity |].
    split; [destruct (Rlt_dec 50 (height position)); lra |].
    split; [reflexivity |].
    destruct (Rlt_dec 50 (height position)); nra.
Qed.

Lemma X30_evaluate_ground_risk_witness :
  GroundRisk.evaluate_ground_risk off_the_map "medium" = Raise ValueError /\
  exists r,
    GroundRisk.evaluate_ground_risk vertiport "cargo" = Ok r /\
    0.3 <= GroundRisk.mitigation_factor r <= 0.6 /\
    0 <= GroundRisk.mitigated_risk r <= GroundRisk.total_risk r.
Proof.
  split.
  - apply (X30_evaluate_ground_risk off_the_map "medium"). simpl. lra.
  - destruct (proj2 (X30_evaluate_ground_risk vertiport "cargo"))
      as (r & Hr & _ & _ & _ & _ & _ & Hm & _ & Hb).
    + simpl. lra.
    + exists r. split; [exact Hr |]. split; assumption.
Defined.
